(* ===== verification/_CoqProject ===== *)
-Q . S2P
Prelude.v
Text.v
Json.v
Todo.v
JsonText.v
Store.v
Sqlite.v
Rowid.v
Handlers.v
Router.v
Server.v
Api.v
Wire.v
Cors.v
Refinement.v
Scenarios.v
Concurrency.v
Witnesses.v
