(* ===== verification/Prelude.v ===== *)
(** * A verification development of the todo service (src/backend/main.py)

    ** The program
    [src/backend/main.py] is a Flask application over an SQLite file
    [todo.db] reached through SQLAlchemy.  Its parts:
    - the mapped class [Todo] (lines 13-24): a row [(id, value)] of the
      table [todo], [id] the primary key, and its [serialize] view;
    - the persistence layer: the engine on [sqlite:///todo.db] and
      [Base.metadata.create_all] at start-up (lines 26-29), then one
      short-lived [Session] per request issuing the statements below;
    - four view functions registered with [@app.route]: [test] (31-33),
      [get_todos] (35-39), [create_todo] (41-64), [delete_todo] (66-72);
    - Flask and Werkzeug around them: URL routing, [request.json], the
      automatic [HEAD]/[OPTIONS] answers, the 4xx/5xx error pages, and
      [app.run] (line 74) serving requests.
    A request flows router -> view function -> session -> SQLite table
    -> response; the table is the only state kept between requests.

    ** The files
    - [Prelude] (this file): the scope [todo_scope] (its notation
      [≈ᵣ] for response equivalence is declared in Refinement), the hint
      database [todo], the tactic
      [eval_decide], shared lemmas on association lists and filters.
    - [Text]: the Python [str] methods header values go through
      ([strip], [lower], [upper], [partition], [split], [startswith],
      [endswith]) on ASCII strings, with the character test [has_char].
    - [Json]: the Python value [request.json] decodes to ([json]), its
      [type()] ([py_type_of]), [is None], [type(x) is str] ([is_str]) and
      the subscript [body[k]] with its [KeyError]/[TypeError]
      ([py_getitem], [dict_get]: the last duplicate key wins, as in the
      dictionary [dict_of] Python builds).
    - [Todo]: [Module Todo], the record [Todo.t] and [Todo.serialize].
    - [JsonText]: the JSON text of the bodies: [jsonify_text], the body
      [jsonify] writes in debug mode ([json.dumps] with [indent=2],
      [ensure_ascii], [sort_keys] and a trailing newline: [print_json],
      [escape_char], [dedup_last]), and [loads], Python's strict
      [json.loads] ([skip_ws], [scan_str], [unescape], [scan_number],
      [parse_value], [parse_elems], [parse_members]); [normalize] is the
      value up to the order of a [dict]'s members.
    - [Store]: the interface between handlers and persistence, the class
      [TodoStore] of the four statements ([store_all]: [query(Todo).all()],
      [store_get]: the reload of an expired instance, [store_insert]:
      [add] + [commit] with [IntegrityError] as [None], [store_delete]:
      [query.where(...).delete()] + [commit]), and the contract
      [TodoStoreSpec] against an abstract view [gmap string string].
      [AbstractStore] is the reference implementation by a map.
    - [Sqlite]: [Module Sqlite], the table as a list of rows in rowid
      order, [create_all], the four statements, the primary-key invariant
      [wf], the abstraction [view], and the instances meeting the contract.
    - [Rowid]: [Module Rowid], the same table with SQLite's 64-bit
      rowids: [OP_NewRowid] ([new_rowid]: largest plus one, then random
      candidates [(v & (MAX_ROWID >> 1)) + 1] and [SQLITE_FULL]), the
      scan in rowid order, and sequences of statements from the empty
      table.
    - [Handlers]: the [Content-Type] check of [request.json] ([mimetype],
      [is_json], [body_of]), [request_json] (Flask's [request.json]), [parse_body]
      (lines 44-53), [test], [get_todos], [create_todo], [delete_todo],
      written once against [TodoStore]; [create_todo]'s second statement
      is the reload SQLAlchemy issues when [new_todo.serialize] reads the
      attributes [commit] expired; [create_todo_stdout] is what the view
      prints ([print(e)], line 61: the [log_line] of the
      [IntegrityError]).
    - [Router]: [split_path], [match_path], [route]: Werkzeug's matching
      of the four rules, with 404, 405, [HEAD] and [OPTIONS].
    - [Server]: [dispatch], [handle] (one request), [serve] (a sequence),
      the transition relation [step], [reachable] states from [startup].
    - [Wire]: the views on the wire: [request_body] ([request.json] on
      the body text, [loads] after the [Content-Type] check) and
      [response_text] (the text [jsonify] writes).
    - [Api]: the API table of section 6 of the spec ([api]) over JSON
      shapes ([has_shape]) and the conformance of every response.
    - [Cors]: [CORS(app)] (line 8) with Flask-Cors's default options: the
      headers its [after_request] hook adds ([get_cors_headers]), and
      [handle_cors], one request with the hook, which does not run for
      the 500 answers of the debug server.
    - [Refinement]: response equivalence up to the order of listed rows
      ([resp_equiv], an [Equivalence]) and the refinement theorems.
    - [Scenarios]: request sequences on the SQLite table (§8 of the spec).
    - [Concurrency]: the threaded server; each thread runs its statements
      one at a time ([start_step] up to the commit, [reload_step] for the
      reload of [create_todo]), interleaved by the relation [cstep].
    - [Witnesses]: each theorem with hypotheses applied to a concrete
      table.

    ** Effects and faults
    State is passed explicitly: each handler takes the store and returns
    the response with the new store.  Every SQL statement can also raise
    an [OperationalError] (a locked or unreadable file); handlers take one
    [io_outcome] per statement ([Server.handle] reads them from a list,
    missing entries meaning success).  An uncaught exception becomes
    Flask's 500 page; the [with Session] block rolls back what was not
    committed.

    ** What is proved
    - the handlers' behaviour on every branch against the contract
      (Handlers: C1-C7, C14; Server: C15): created rows, 409 on a
      taken key with the table unchanged, existing rows never changed
      by [create_todo], the exact set of bodies refused with 400,
      deletion, listing, fault behaviour;
    - the store invariant on every reachable state (Server: C9);
    - refinement: the SQLite table and the abstract map give equivalent
      answers to every sequence of requests and the same final map
      (Refinement: C8);
    - rows with an empty key or a key containing [/] can be created and
      never deleted (Server: C10, with [Router.route_delete_id]);
    - routing (Router: C33; Server: C34, C35): a path reaches a view
      exactly when it is one of the rule strings, [<id>] non-empty and
      without slash; [HEAD] answers as [GET] without body; a request
      that is neither [POST] nor [DELETE] never changes the table;
    - the order of [GET /todo] on the SQLite table and the scenario of
      the spec on any table and any fresh row (Scenarios: C11, C12, C16,
      C29);
    - interleavings (Concurrency: C17-C20), with statement faults:
      without concurrent [DELETE]s every committed [POST] is answered
      with its own row; for any table and pool of threads, a [DELETE] of
      the key between the commit and the reload makes the [POST] answer
      500, and a [DELETE] with a second [POST] of the key makes it answer
      201 with the other request's row; two racing [POST]s of one fresh
      key never both answer 201 and, without a 500, end with one 201 and
      one 409 (the primary key decides, not the handler).  The lemmas
      [single_thread_sequential] and [serial_schedule] check the threaded
      model against [handle] and [serve], and [cstep_store_wf] keeps the
      primary key along every interleaving;
    - the type of the answers (Api: C24): each response is a row of the
      spec's API table with a body of the listed shape, or an error page
      or empty body of the framework;
    - CORS (Cors: C21-C23): every finalized response allows the requesting
      origin, a preflight allows every method and the requested headers,
      and the 500 answers of a storage fault carry no CORS header;
    - rowids (Rowid: C25-C27): they stay ordered within
      [1 .. min(inserts, 2^63-1)]; the list model of Sqlite.v is exact
      while fewer than [2^63-1] rows were inserted; past that every new
      row is listed before the row of the largest rowid, where the list
      model appends it, and an [INSERT] fails with [SQLITE_FULL] exactly
      when every random candidate is taken, whatever its key (C36);
    - the [Content-Type] check of [request.json] ignores letter case and
      parameters (Handlers: C28); the lookup [body[k]] agrees with the
      dictionary [json.loads] builds ([Json.dict_get_dict_of]);
    - deleting an absent key leaves the table as it was (Scenarios: C29);
    - the JSON text (JsonText: C30; Wire: C13, C31): [json.loads] reads back every document without
      floats that [jsonify] prints, as the same Python value; every JSON
      body the service sends decodes to the very value the view passed to
      [jsonify]; a listed row posted back as printed is accepted as that
      row;
    - logging (Handlers: C32): [create_todo] prints its [IntegrityError]
      line exactly when it answers 409, for a key the table holds.

    ** Bounds and choices
    Only the JSON decoder needs fuel: [parse_value], [parse_elems] and
    [parse_members] recurse on a counter, which [loads] sets to one more
    than the length of the text, and [scan_str] on one more than the
    length of what follows the quote, which consumes a character per
    step.  Every call consumes a character before the counter drops
    again, so a parse that succeeds with some fuel succeeds with as much
    fuel as characters it consumed ([parse_fuel_adequate]): [loads] is
    never short of fuel ([loads_complete]).  The fuel is not a depth
    limit: the model accepts documents nested to any depth, where
    CPython's decoder recurses once per level of arrays and objects and
    raises [RecursionError] past the interpreter's recursion limit (1000
    frames by default, minus the frames of the request below the call).
    [get_json] catches only [ValueError], so such a body makes the real
    service answer 500 where the model decodes it; the theorems on
    [loads] hold for the documents CPython can decode.  Everything else
    is structurally recursive, and [serve] runs a given finite list of
    requests.  Sqlite.v keeps no rowids:
    SQLite gives a new row [max(rowid)+1], so appending models the scan
    order until the rowid reaches 2^63-1, which would take 9.2e18
    inserts; Rowid.v proves this ([run_refines_list]) and models what
    happens past it.  Rowids are [Z] with the bound [MAX_ROWID] and the
    mask of the random candidate written out with [Z.land] and
    [Z.shiftr].  The random draws of SQLite and the outcome of each
    statement are inputs of the model.
    JSON numbers are kept as [JInt]/[JFloat] literals since the code
    only tests their type; the encoder prints an [int] as
    [int.__repr__] does and a float's literal where Python prints
    [float.__repr__] (no response holds a float), and the round trip is
    proved for documents without floats whose integers have at most
    4300 digits (CPython's [int_max_str_digits]: longer ones make
    [int()] and [int.__repr__] raise).  JSON text is a
    [String.string]: code points below 256, a [\u] escape of a larger
    one being refused by [loads].  [request.json] follows Flask/Werkzeug 2.3 and
    later (415 for a non-JSON Content-Type, 400 for undecodable JSON).

    ** Not modelled
    CPython's recursion limit in [json.loads] (see above: a body nested
    more deeply than the limit is answered 500 by the real service), the
    HTML error pages of Werkzeug (only their status and name are
    kept), the UTF-8 decoding of the body bytes before [json.loads],
    HTTP headers other than the CORS ones and [Content-Type], the text of
    the [IntegrityError] message beyond the row it names, the debug
    reloader (it
    restarts the process on the same database file), Werkzeug's static
    route, and the 308 redirect Werkzeug's [merge_slashes] sends for a
    path with repeated slashes.  Header values are ASCII strings; Python's
    case mapping and white space on other characters are not modelled.  The
    interleaved model treats each SQLite statement as atomic, which
    SQLite's file locking provides. *)

From Stdlib Require Export Ascii.
From stdpp Require Export base list gmap strings fin_maps.

Declare Scope todo_scope.
Delimit Scope todo_scope with todo.

Create HintDb todo.

(** Decide a decidable proposition by evaluating its decision procedure. *)
Ltac eval_decide := apply (bool_decide_unpack _); vm_compute; reflexivity.

(** ** Generic lemmas on association lists read as maps *)

Section AssocLists.
Context {K A : Type} `{Countable K}.
Implicit Types (l : list (K * A)) (k : K).

(** Removing every pair with key [k] removes [k] from the map the list
    denotes (with or without duplicate keys). *)
Lemma list_to_map_filter_key l k :
  list_to_map (filter (λ p, p.1 ≠ k) l) =@{gmap K A} delete k (list_to_map l).
Proof.
  induction l as [|[i x] l IH].
  - rewrite filter_nil, !list_to_map_nil. by rewrite delete_empty.
  - rewrite filter_cons, list_to_map_cons. case_decide as Hik; simpl in Hik.
    + by rewrite list_to_map_cons, IH, delete_insert_ne by congruence.
    + assert (i = k) as -> by (destruct (decide (i = k)); naive_solver).
      by rewrite IH, delete_insert_eq.
Qed.

Lemma NoDup_fst_filter (P : K * A → Prop) `{∀ p, Decision (P p)} l :
  NoDup l.*1 → NoDup (filter P l).*1.
Proof.
  induction l as [|[i x] l IH]; simpl; [done|].
  rewrite NoDup_cons. intros [Hi Hl]. rewrite filter_cons.
  case_decide; simpl; [|auto].
  rewrite NoDup_cons. split; [|auto].
  intros Hin. apply Hi. apply list_elem_of_fmap in Hin as ([j y] & -> & Hj).
  apply list_elem_of_filter in Hj as [_ Hj].
  apply list_elem_of_fmap. by exists (j, y).
Qed.

Lemma NoDup_fst_snoc l k x :
  NoDup l.*1 → k ∉ l.*1 → NoDup (l ++ [(k, x)]).*1.
Proof.
  intros Hl Hk. rewrite fmap_app. simpl.
  apply NoDup_app. split; [done|]. split; [|apply NoDup_singleton].
  intros y Hy ->%list_elem_of_singleton. done.
Qed.
End AssocLists.

(** Filtering commutes with a map when the predicate reads the image. *)
Lemma fmap_filter_comm {A B} (f : A → B) (Q : A → Prop) (P : B → Prop)
    `{∀ a, Decision (Q a)} `{∀ b, Decision (P b)} (l : list A) :
  (∀ a, Q a ↔ P (f a)) →
  f <$> filter Q l = filter P (f <$> l).
Proof.
  intros HQ. induction l as [|a l IH]; [done|].
  rewrite fmap_cons, !filter_cons.
  case_decide as Ha; case_decide as Hb; rewrite ?fmap_cons, IH; naive_solver.
Qed.

(** Replacing the [i]-th element changes a weighted sum by the
    difference of the weights. *)
Lemma sum_list_with_insert {A} (f : A → nat) (l : list A) i x y :
  l !! i = Some x →
  sum_list_with f (<[i := y]> l) + f x = sum_list_with f l + f y.
Proof.
  revert i. induction l as [|a l IH]; intros [|i] Hi; simplify_eq/=; [lia|].
  specialize (IH i Hi). lia.
Qed.

(** A filter keeps what holds of every element. *)
Lemma Forall_filter_sub {A} (P Q : A → Prop) `{∀ x, Decision (Q x)} (l : list A) :
  Forall P l → Forall P (filter Q l).
Proof.
  intros Hl. apply Forall_forall. intros x Hx%list_elem_of_filter.
  by apply (Forall_forall P l) with x in Hl; [|apply Hx].
Qed.

#[export] Hint Resolve NoDup_fst_filter NoDup_fst_snoc : todo.
