(* ===== verification/Text.v ===== *)
(** * Text: the Python [str] methods header values go through

    Werkzeug and Flask-Cors read the request headers with Python string
    methods: [str.strip], [str.lower], [str.upper], [str.partition],
    [str.split], [str.startswith], [str.endswith] and [sep.join].  Header
    values are Latin-1 text; this file models them on ASCII strings
    ([String.string]), where Python's [str.isspace] holds of the
    characters 9-13 and 28-32 and case mapping moves between [A-Z] and
    [a-z] only. *)

From S2P Require Import Prelude.

Local Open Scope char_scope.

(** [c.isspace()] on an ASCII character. *)
Definition py_isspace (c : ascii) : bool :=
  let n := nat_of_ascii c in bool_decide (9 ≤ n ≤ 13 ∨ 28 ≤ n ≤ 32)%nat.

Fixpoint lstrip (s : string) : string :=
  match s with
  | EmptyString => EmptyString
  | String c rest => if py_isspace c then lstrip rest else s
  end.

(** [s.strip()] *)
Definition strip (s : string) : string := String.rev (lstrip (String.rev (lstrip s))).

Definition ascii_lower (c : ascii) : ascii :=
  let n := nat_of_ascii c in
  if bool_decide (65 ≤ n ≤ 90)%nat then ascii_of_nat (n + 32) else c.

Definition ascii_upper (c : ascii) : ascii :=
  let n := nat_of_ascii c in
  if bool_decide (97 ≤ n ≤ 122)%nat then ascii_of_nat (n - 32) else c.

Fixpoint str_map (f : ascii → ascii) (s : string) : string :=
  match s with
  | EmptyString => EmptyString
  | String c rest => String (f c) (str_map f rest)
  end.

(** [s.lower()] and [s.upper()] *)
Definition lower : string → string := str_map ascii_lower.
Definition upper : string → string := str_map ascii_upper.

(** [s.partition(c)[0]]: the text before the first [c], all of [s]
    when [c] does not occur. *)
Fixpoint before_char (c : ascii) (s : string) : string :=
  match s with
  | EmptyString => EmptyString
  | String c' rest => if decide (c' = c) then EmptyString else String c' (before_char c rest)
  end.

(** [s.split(c)] for a one-character separator. *)
Fixpoint split_on (c : ascii) (s : string) : list string :=
  match s with
  | EmptyString => [""%string]
  | String c' rest =>
      match split_on c rest with
      | seg :: segs =>
          if decide (c' = c) then ""%string :: seg :: segs else String c' seg :: segs
      | [] => [String c' ""]
      end
  end.

(** [s.startswith(p)] and [s.endswith(p)]. *)
Definition startswith (s p : string) : bool := String.prefix p s.
Definition endswith (s p : string) : bool := String.prefix (String.rev p) (String.rev s).

(** [c in s] *)
Fixpoint has_char (c : ascii) (s : string) : bool :=
  match s with
  | EmptyString => false
  | String c' rest => bool_decide (c' = c) || has_char c rest
  end.

(** ** Lemmas *)

Lemma split_on_nil c s : split_on c s ≠ [].
Proof.
  induction s as [|c' rest IH]; simpl; [done|].
  destruct (split_on c rest); [done|]. by case_decide.
Qed.

(** Splitting and joining with the separator gives the string back. *)
Lemma split_on_concat c s : String.concat (String c "") (split_on c s) = s.
Proof.
  induction s as [|c' rest IH]; [done|]. simpl.
  destruct (split_on c rest) as [|seg segs] eqn:E; [by destruct (split_on_nil c rest)|].
  rewrite <-IH. case_decide as Hc; [subst c'|]; by destruct segs.
Qed.

Lemma ascii_lower_upper c : ascii_lower (ascii_upper c) = ascii_lower c.
Proof. destruct c as [[] [] [] [] [] [] [] []]; reflexivity. Qed.

Lemma ascii_lower_idem c : ascii_lower (ascii_lower c) = ascii_lower c.
Proof. destruct c as [[] [] [] [] [] [] [] []]; reflexivity. Qed.

(** Lower-casing forgets the case the text was written in. *)
Lemma lower_upper s : lower (upper s) = lower s.
Proof. unfold lower, upper. induction s as [|c s IH]; simpl; [done|]. by rewrite IH, ascii_lower_upper. Qed.

Lemma lower_idem s : lower (lower s) = lower s.
Proof. unfold lower. induction s as [|c s IH]; simpl; [done|]. by rewrite IH, ascii_lower_idem. Qed.

(** The text before the first [c] of [s ++ c :: rest] is [s] when [s]
    has no [c]. *)
Lemma before_char_app c s rest :
  has_char c s = false → before_char c (s ++ String c rest) = s.
Proof.
  induction s as [|c' s IH]; simpl.
  - intros _. by rewrite decide_True.
  - intros [Hc Hs]%orb_false_iff. apply bool_decide_eq_false in Hc.
    rewrite decide_False by done. by rewrite IH.
Qed.

Lemma before_char_plain c s : has_char c s = false → before_char c s = s.
Proof.
  induction s as [|c' s IH]; simpl; [done|].
  intros [Hc Hs]%orb_false_iff. apply bool_decide_eq_false in Hc.
  rewrite decide_False by done. by rewrite IH.
Qed.

(** Upper-casing keeps white space and the separator [;] where they are. *)
Lemma py_isspace_upper c : py_isspace (ascii_upper c) = py_isspace c.
Proof. destruct c as [[] [] [] [] [] [] [] []]; reflexivity. Qed.

Lemma ascii_upper_semicolon c : bool_decide (ascii_upper c = ";") = bool_decide (c = ";").
Proof. destruct c as [[] [] [] [] [] [] [] []]; reflexivity. Qed.

Lemma has_char_semicolon_upper s : has_char ";" (upper s) = has_char ";" s.
Proof.
  unfold upper. induction s as [|c s IH]; simpl; [done|].
  by rewrite IH, ascii_upper_semicolon.
Qed.

Lemma before_char_upper s : before_char ";" (upper s) = upper (before_char ";" s).
Proof.
  unfold upper. induction s as [|c s IH]; simpl; [done|].
  pose proof (ascii_upper_semicolon c) as Hc.
  case_decide as H1; case_decide as H2; simpl; rewrite ?IH; try done;
    rewrite ?bool_decide_true in Hc by done; rewrite ?bool_decide_false in Hc by done; done.
Qed.

Lemma lstrip_upper s : lstrip (upper s) = upper (lstrip s).
Proof.
  unfold upper. induction s as [|c s IH]; simpl; [done|].
  rewrite py_isspace_upper. by destruct (py_isspace c).
Qed.

Lemma rev_app_map f s1 s2 :
  String.rev_app (str_map f s1) (str_map f s2) = str_map f (String.rev_app s1 s2).
Proof.
  revert s2. induction s1 as [|c s1 IH]; intros s2; simpl; [done|].
  by rewrite <-IH.
Qed.

Lemma rev_upper s : String.rev (upper s) = upper (String.rev s).
Proof. unfold String.rev, upper. by rewrite <-rev_app_map. Qed.

Lemma strip_upper s : strip (upper s) = upper (strip s).
Proof. unfold strip. by rewrite lstrip_upper, rev_upper, lstrip_upper, rev_upper. Qed.
