(* ===== verification/Json.v ===== *)
(** * Json: the Python values a JSON request body decodes to

    [create_todo] (src/backend/main.py, lines 43-53) reads [request.json],
    the value Python's [json] module decodes from the body, and inspects it
    with [body['id']], [is None] and [type(x) is str].  This file models
    those values ([json]), their Python type ([py_type]), the dictionary
    a JSON object becomes ([dict_get]: the last of duplicate keys wins, as
    in [json.loads]) and the subscript [body[k]] with the exceptions it
    raises ([py_getitem]). *)

From S2P Require Import Prelude.

(** A decoded JSON document: [None], [bool], [int], [float] (kept as its
    literal text: the handlers only test its type), [str], [list], and
    [dict] built from the object's members in document order. *)
#[warnings="-register-all"]
Inductive json : Type :=
  | JNull
  | JBool (b : bool)
  | JInt (n : Z)
  | JFloat (lit : string)
  | JStr (s : string)
  | JArr (xs : list json)
  | JObj (kvs : list (string * json)).

(** The Python classes [type(x)] can return for a decoded value. *)
Inductive py_type := NoneType | PyBool | PyInt | PyFloat | PyStr | PyList | PyDict.

#[export] Instance py_type_eq_dec : EqDecision py_type.
Proof. solve_decision. Defined.

Definition py_type_of (j : json) : py_type :=
  match j with
  | JNull => NoneType
  | JBool _ => PyBool
  | JInt _ => PyInt
  | JFloat _ => PyFloat
  | JStr _ => PyStr
  | JArr _ => PyList
  | JObj _ => PyDict
  end.

(** [x is None] *)
Definition is_none (j : json) : bool :=
  match j with JNull => true | _ => false end.

(** [type(x) is str], as a test and as the string it exposes. *)
Definition is_str (j : json) : bool := bool_decide (py_type_of j = PyStr).

Definition as_str (j : json) : option string :=
  match j with JStr s => Some s | _ => None end.

(** The exceptions a subscript [body[k]] with a [str] key can raise. *)
Inductive py_exc :=
  | KeyError (k : string)    (** a [dict] without the key *)
  | TypeError.               (** [list], [str], [int], [float], [bool], [None] *)

(** [dict(pairs)[k]]: [json.loads] keeps the last member of a key that
    occurs several times in an object. *)
Fixpoint dict_get (kvs : list (string * json)) (k : string) : option json :=
  match kvs with
  | [] => None
  | (k', v) :: rest =>
      match dict_get rest k with
      | Some v' => Some v'
      | None => if decide (k = k') then Some v else None
      end
  end.

(** [body[k]] for a string key [k]. *)
Definition py_getitem (body : json) (k : string) : py_exc + json :=
  match body with
  | JObj kvs =>
      match dict_get kvs k with
      | Some v => inr v
      | None => inl (KeyError k)
      end
  | _ => inl TypeError
  end.

(** Python's [dict(pairs)], which [json.loads] applies to an object's
    members: each member assigned in document order. *)
Definition dict_of (kvs : list (string * json)) : gmap string json :=
  foldl (λ m kv, <[kv.1 := kv.2]> m) ∅ kvs.

(** ** Lemmas *)

Lemma is_str_as_str j : is_str j = true ↔ ∃ s, j = JStr s.
Proof.
  unfold is_str. rewrite bool_decide_eq_true.
  split; [destruct j; simpl; intros; try done; by eexists | by intros [s ->]].
Qed.

Lemma as_str_is_str j s : as_str j = Some s → j = JStr s.
Proof. destruct j; naive_solver. Qed.

Lemma dict_get_app kvs1 kvs2 k :
  dict_get (kvs1 ++ kvs2) k =
  match dict_get kvs2 k with Some v => Some v | None => dict_get kvs1 k end.
Proof.
  induction kvs1 as [|[k' v] kvs1 IH]; simpl.
  - by destruct (dict_get kvs2 k).
  - rewrite IH. by destruct (dict_get kvs2 k).
Qed.

(** A key whose last member is [v] is found with value [v]. *)
Lemma dict_get_last kvs k v : dict_get (kvs ++ [(k, v)]) k = Some v.
Proof. rewrite dict_get_app. simpl. by rewrite decide_True. Qed.

Lemma dict_get_not_key kvs k :
  k ∉ kvs.*1 → dict_get kvs k = None.
Proof.
  induction kvs as [|[k' v] kvs IH]; simpl; [done|].
  rewrite not_elem_of_cons. intros [Hne Hk]. rewrite IH by done.
  by rewrite decide_False.
Qed.

Lemma py_getitem_not_dict body k :
  py_type_of body ≠ PyDict → py_getitem body k = inl TypeError.
Proof. destruct body; naive_solver. Qed.

Lemma foldl_insert_lookup (m : gmap string json) kvs k :
  foldl (λ m kv, <[kv.1 := kv.2]> m) m kvs !! k =
  match dict_get kvs k with Some v => Some v | None => m !! k end.
Proof.
  revert m. induction kvs as [|[k' v] kvs IH]; intros m; simpl; [done|].
  rewrite IH. destruct (dict_get kvs k); [done|].
  rewrite lookup_insert. by case_decide; case_decide; simplify_eq.
Qed.

(** The lookup [body[k]] reads is the dictionary [json.loads] builds
    from the object's members: the member assigned last wins. *)
Lemma dict_get_dict_of kvs k : dict_get kvs k = dict_of kvs !! k.
Proof.
  unfold dict_of. rewrite foldl_insert_lookup, lookup_empty.
  by destruct (dict_get kvs k).
Qed.

#[export] Hint Resolve dict_get_not_key py_getitem_not_dict : todo.
