(* ===== verification/Todo.v ===== *)
(** * Todo: the mapped class [Todo] and its [serialize] view

    src/backend/main.py, lines 13-24: the table [todo] has two string
    columns, the primary key [id] and [value]; the [serialize] property
    turns a row into the JSON object [{'id': ..., 'value': ...}]. *)

From S2P Require Import Prelude Json.

Module Todo.

(** [class Todo(Base)]: [id: Mapped[str]] (primary key) and
    [value: Mapped[str]] (not unique, not null). *)
Record t : Type := mk { id : string; value : string }.

#[export] Instance t_eq_dec : EqDecision t.
Proof. solve_decision. Defined.

(** The [@property serialize]. *)
Definition serialize (todo : t) : json :=
  JObj [("id", JStr (id todo)); ("value", JStr (value todo))].

(** A row as the pair (primary key, value) the table maps. *)
Definition to_pair (todo : t) : string * string := (id todo, value todo).

Lemma to_pair_inj : Inj (=) (=) to_pair.
Proof. intros [] [] ?; simpl in *; by simplify_eq. Qed.

Lemma to_pair_fst (l : list t) : (to_pair <$> l).*1 = id <$> l.
Proof. by rewrite <-list_fmap_compose. Qed.

Lemma serialize_inj : Inj (=) (=) serialize.
Proof. intros [] [] ?; simpl in *; by simplify_eq. Qed.

End Todo.

#[export] Existing Instance Todo.to_pair_inj.
#[export] Existing Instance Todo.serialize_inj.
