(* ===== verification/JsonText.v ===== *)
(** * JsonText: the JSON text of the request and response bodies

    The service reads and writes JSON text.  [request.json] (line 43 of
    src/backend/main.py) decodes the request body with Python's
    [json.loads]; every [jsonify(...)] (lines 33, 39, 45, 50, 53, 62, 64,
    72) encodes its argument with Flask's JSON provider, which, because
    [app.run] sets [debug=True], calls [json.dumps(obj, indent=2,
    ensure_ascii=True, sort_keys=True)] and appends a newline.

    This file models both directions on strings of code points below 256
    ([String.string]):
    - [jsonify_text]: the encoder of [json.encoder] with those options:
      strings escaped by [py_encode_basestring_ascii], arrays and objects
      indented by two spaces per level with the separators [","] and
      [": "], an object's members those of the [dict] (the last of a
      repeated key wins, [dedup_last]) in key order (Python's [sorted]
      compares strings by code point, as [String.le] does);
    - [loads]: the strict decoder of [json.decoder] and [json.scanner]:
      white space [ \t\n\r], the literals, numbers by the regular
      expression [-?(0|[1-9]\d* )(\.\d+)?([eE][-+]?\d+)?] (an integer of
      more than 4300 digits makes CPython's [int()] raise), strings whose
      control characters must be escaped, arrays, objects, the constants
      [NaN], [Infinity] and [-Infinity], and nothing but white space after
      the value.

    A [\uXXXX] escape of a code point of 256 or more decodes to a
    character outside [String.string]; [loads] refuses it, so the model
    covers the documents whose strings are Latin-1.  A float keeps its
    literal text ([JFloat]); the encoder prints that text where Python
    prints [float.__repr__], and no response of the service holds a
    float.  The decoder recurses on a fuel argument; [loads] gives it one
    more than the length of the text, which is enough for every text
    ([parse_fuel_adequate], [loads_complete]).  CPython's decoder, which
    recurses once per nesting level of arrays and objects, raises
    [RecursionError] past the interpreter's recursion limit (1000 frames
    by default, fewer for the decoder by the depth of the request's own
    call stack); the model has no such limit and accepts every nesting
    depth.

    The theorems: [loads_complete] (the fuel never refuses a text),
    [textual_prints_back] and [loads_jsonify_text] (the decoder reads
    back what the encoder writes, objects as their [dict] in key order),
    [py_getitem_normalize] (that [dict] binds every key as the
    original). *)

From stdpp Require Import sorting.
From Stdlib Require Import DecimalString DecimalPos.
From S2P Require Import Prelude Json Todo.

Local Open Scope string_scope.

(** The characters the encoder and decoder name by code. *)
Definition dq : ascii := ascii_of_nat 34.        (** the double quote *)
Definition bslash : ascii := ascii_of_nat 92.    (** the backslash *)
Definition nl : ascii := ascii_of_nat 10.        (** line feed *)

(** ** The encoder *)

(** A lower-case hexadecimal digit, as [format(n, '04x')] writes it. *)
Definition hex_digit (n : nat) : ascii :=
  ascii_of_nat (if n <? 10 then 48 + n else 87 + n)%nat.

(** ['\\u{0:04x}'.format(n)] for a code point below 256. *)
Definition u_escape (n : nat) : string :=
  String bslash (String "u" (String "0" (String "0"
    (String (hex_digit (n / 16)) (String (hex_digit (n mod 16)) ""))))).

(** The replacement [py_encode_basestring_ascii] makes of one character:
    the entries of [ESCAPE_DCT], the printable ASCII characters as they
    are, every other one as [\u00xx]. *)
Definition escape_char (c : ascii) : string :=
  let n := nat_of_ascii c in
  if decide (c = bslash) then String bslash (String bslash "")
  else if decide (c = dq) then String bslash (String dq "")
  else if decide (n = 8) then String bslash "b"
  else if decide (n = 12) then String bslash "f"
  else if decide (n = 10) then String bslash "n"
  else if decide (n = 13) then String bslash "r"
  else if decide (n = 9) then String bslash "t"
  else if bool_decide (32 ≤ n ≤ 126)%nat then String c ""
  else u_escape n.

Fixpoint escape (s : string) : string :=
  match s with
  | EmptyString => EmptyString
  | String c rest => escape_char c ++ escape rest
  end.

(** [py_encode_basestring_ascii(s)]: the escaped text between quotes. *)
Definition print_str (s : string) : string := String dq (escape s ++ String dq "").

(** [int.__repr__] *)
Definition print_int (z : Z) : string := NilEmpty.string_of_int (Z.to_int z).

Fixpoint spaces (n : nat) : string :=
  match n with 0 => EmptyString | S n => String " " (spaces n) end.

(** ['\n' + ' ' * (indent * level)] with [indent=2]. *)
Definition newline_indent (level : nat) : string := String nl (spaces (2 * level)).

(** The items of a [dict] built from pairs: the last value of each key. *)
Fixpoint dedup_last {A} (kvs : list (string * A)) : list (string * A) :=
  match kvs with
  | [] => []
  | (k, v) :: rest =>
      if bool_decide (k ∈ rest.*1) then dedup_last rest else (k, v) :: dedup_last rest
  end.

Definition key_le {A} (a b : string * A) : Prop := String.le a.1 b.1.

#[export] Instance key_le_dec {A} : RelDecision (@key_le A).
Proof. intros a b. unfold key_le. apply _. Defined.

(** [_iterencode] at nesting level [level]: [_iterencode_list] and
    [_iterencode_dict] with [indent=2], [sort_keys=True] and the
    separators [(',', ': ')]. *)
Fixpoint print_json (level : nat) (j : json) : string :=
  match j with
  | JNull => "null"
  | JBool true => "true"
  | JBool false => "false"
  | JInt z => print_int z
  | JFloat lit => lit
  | JStr s => print_str s
  | JArr [] => "[]"
  | JArr xs =>
      "[" ++ newline_indent (S level) ++
      String.concat ("," ++ newline_indent (S level)) (List.map (print_json (S level)) xs) ++
      newline_indent level ++ "]"
  | JObj [] => "{}"
  | JObj kvs =>
      let items := merge_sort key_le
        (dedup_last (List.map (λ '(k, v), (k, print_json (S level) v)) kvs)) in
      "{" ++ newline_indent (S level) ++
      String.concat ("," ++ newline_indent (S level))
        (List.map (λ '(k, txt), print_str k ++ ": " ++ txt) items) ++
      newline_indent level ++ "}"
  end.

(** The body of [jsonify(obj)] in debug mode:
    [f"{json.dumps(obj, indent=2, ensure_ascii=True, sort_keys=True)}\n"]. *)
Definition jsonify_text (j : json) : string := print_json 0 j ++ String nl "".

(** ** The decoder *)

(** [_ws = ' \t\n\r'] and [WHITESPACE.match(s, end).end()]. *)
Definition is_ws (c : ascii) : bool :=
  bool_decide (nat_of_ascii c ∈ [32; 9; 10; 13]%nat).

Fixpoint skip_ws (s : string) : string :=
  match s with
  | EmptyString => EmptyString
  | String c rest => if is_ws c then skip_ws rest else s
  end.

(** The text after the prefix [p] of [s], when [s] starts with it. *)
Fixpoint chop (p s : string) : option string :=
  match p, s with
  | EmptyString, _ => Some s
  | String c p', String c' s' => if decide (c = c') then chop p' s' else None
  | String _ _, EmptyString => None
  end.

(** The value of a hexadecimal digit, either case. *)
Definition hex_val (c : ascii) : option nat :=
  let n := nat_of_ascii c in
  if bool_decide (48 ≤ n ≤ 57)%nat then Some (n - 48)%nat
  else if bool_decide (97 ≤ n ≤ 102)%nat then Some (n - 87)%nat
  else if bool_decide (65 ≤ n ≤ 70)%nat then Some (n - 55)%nat
  else None.

(** The character an escape sequence stands for, the text after [\]
    given: [BACKSLASH] and [_decode_uXXXX] (four hexadecimal digits);
    [None] for an invalid escape and for a code point of 256 or more. *)
Definition unescape (s : string) : option (ascii * string) :=
  match s with
  | EmptyString => None
  | String e rest =>
      if decide (e = dq) then Some (dq, rest)
      else if decide (e = bslash) then Some (bslash, rest)
      else if decide (e = "/"%char) then Some ("/"%char, rest)
      else if decide (e = "b"%char) then Some (ascii_of_nat 8, rest)
      else if decide (e = "f"%char) then Some (ascii_of_nat 12, rest)
      else if decide (e = "n"%char) then Some (ascii_of_nat 10, rest)
      else if decide (e = "r"%char) then Some (ascii_of_nat 13, rest)
      else if decide (e = "t"%char) then Some (ascii_of_nat 9, rest)
      else if decide (e = "u"%char) then
        match rest with
        | String h1 (String h2 (String h3 (String h4 rest'))) =>
            match hex_val h1, hex_val h2, hex_val h3, hex_val h4 with
            | Some a, Some b, Some c, Some d =>
                let v := (((a * 16 + b) * 16 + c) * 16 + d)%nat in
                if (v <? 256)%nat then Some (ascii_of_nat v, rest') else None
            | _, _, _, _ => None
            end
        | _ => None
        end
      else None
  end.

(** [scanstring(s, end, strict=True)] after the opening quote: the
    decoded text and the text after the closing quote.  An unescaped
    control character (below 32) is an error in strict mode. *)
Fixpoint scan_str (fuel : nat) (s : string) : option (string * string) :=
  match fuel with
  | 0 => None
  | S f =>
      match s with
      | EmptyString => None
      | String c rest =>
          if decide (c = dq) then Some (EmptyString, rest)
          else if decide (c = bslash) then
            match unescape rest with
            | None => None
            | Some (c', rest') =>
                match scan_str f rest' with
                | Some (t, r) => Some (String c' t, r)
                | None => None
                end
            end
          else if bool_decide (nat_of_ascii c < 32)%nat then None
          else
            match scan_str f rest with
            | Some (t, r) => Some (String c t, r)
            | None => None
            end
      end
  end.

Definition is_digit (c : ascii) : bool := bool_decide (48 ≤ nat_of_ascii c ≤ 57)%nat.

(** The longest prefix of decimal digits and the text after it. *)
Fixpoint span_digits (s : string) : string * string :=
  match s with
  | EmptyString => (EmptyString, EmptyString)
  | String c rest =>
      if is_digit c then let '(d, r) := span_digits rest in (String c d, r)
      else (EmptyString, s)
  end.

(** The value of a string of decimal digits, after the digits [acc]. *)
Fixpoint dec_value (acc : Z) (s : string) : Z :=
  match s with
  | EmptyString => acc
  | String c rest => dec_value (acc * 10 + Z.of_nat (nat_of_ascii c - 48))%Z rest
  end.

(** [(0|[1-9]\d* )] *)
Definition scan_int_part (s : string) : option (string * string) :=
  match s with
  | EmptyString => None
  | String c rest =>
      if decide (c = "0"%char) then Some (String c EmptyString, rest)
      else if is_digit c then let '(d, r) := span_digits rest in Some (String c d, r)
      else None
  end.

(** [(\.\d+)?]: the fraction, empty when absent. *)
Definition scan_frac (s : string) : string * string :=
  match s with
  | String c rest =>
      if decide (c = "."%char) then
        match span_digits rest with
        | (EmptyString, _) => (EmptyString, s)
        | (d, r) => (String c d, r)
        end
      else (EmptyString, s)
  | EmptyString => (EmptyString, s)
  end.

(** [[-+]?] *)
Definition scan_sign (s : string) : string * string :=
  match s with
  | String c r =>
      if decide (c = "+"%char ∨ c = "-"%char) then (String c EmptyString, r)
      else (EmptyString, s)
  | EmptyString => (EmptyString, s)
  end.

(** [([eE][-+]?\d+)?]: the exponent, empty when absent. *)
Definition scan_exp (s : string) : string * string :=
  match s with
  | String e rest =>
      if decide (e = "e"%char ∨ e = "E"%char) then
        let '(sign, r) := scan_sign rest in
        match span_digits r with
        | (EmptyString, _) => (EmptyString, s)
        | (d, r') => (String e (sign ++ d), r')
        end
      else (EmptyString, s)
  | EmptyString => (EmptyString, s)
  end.

(** [-?]: whether the literal is negative, and the text after the sign. *)
Definition scan_minus (s : string) : bool * string :=
  match s with
  | String c rest => if decide (c = "-"%char) then (true, rest) else (false, s)
  | EmptyString => (false, s)
  end.

(** CPython's [sys.int_info.default_max_str_digits]: converting a
    decimal string of more digits to an [int] raises [ValueError]. *)
Definition int_max_str_digits : nat := 4300.

(** [match_number]: an [int] when the literal has neither fraction nor
    exponent, a [float] otherwise; [int()] of more than
    [int_max_str_digits] digits raises [ValueError], which fails the
    whole decoding. *)
Definition scan_number (s : string) : option (json * string) :=
  let '(neg, s1) := scan_minus s in
  match scan_int_part s1 with
  | None => None
  | Some (int, s2) =>
      let '(frac, s3) := scan_frac s2 in
      let '(exp, s4) := scan_exp s3 in
      if bool_decide (frac = EmptyString ∧ exp = EmptyString) then
        if bool_decide (String.length int ≤ int_max_str_digits)%nat then
          let z := dec_value 0 int in Some (JInt (if neg then (- z)%Z else z), s4)
        else None
      else Some (JFloat ((if neg then "-" else "") ++ int ++ frac ++ exp), s4)
  end.

(** The constants of [scan_once] after the numbers: [parse_constant]. *)
Definition scan_constant (s : string) : option (json * string) :=
  match chop "NaN" s with
  | Some r => Some (JFloat "NaN", r)
  | None =>
      match chop "Infinity" s with
      | Some r => Some (JFloat "Infinity", r)
      | None =>
          match chop "-Infinity" s with
          | Some r => Some (JFloat "-Infinity", r)
          | None => None
          end
      end
  end.

(** [scan_once], [JSONArray] and [JSONObject], on a fuel argument: each
    returns the value and the text after it.  [parse_elems] starts at an
    element, [parse_members] at the opening quote of a key; [acc] holds
    the items read so far, last first. *)
Fixpoint parse_value (fuel : nat) (s : string) {struct fuel} : option (json * string) :=
  match fuel with
  | 0 => None
  | S f =>
      match s with
      | EmptyString => None
      | String c rest =>
          if decide (c = dq) then
            match scan_str (S (String.length rest)) rest with
            | Some (t, r) => Some (JStr t, r)
            | None => None
            end
          else if decide (c = "{"%char) then
            match skip_ws rest with
            | String c' r' => if decide (c' = "}"%char) then Some (JObj [], r')
                              else parse_members f [] (String c' r')
            | EmptyString => None
            end
          else if decide (c = "["%char) then
            match skip_ws rest with
            | String c' r' => if decide (c' = "]"%char) then Some (JArr [], r')
                              else parse_elems f [] (String c' r')
            | EmptyString => None
            end
          else
            match chop "null" s with
            | Some r => Some (JNull, r)
            | None =>
                match chop "true" s with
                | Some r => Some (JBool true, r)
                | None =>
                    match chop "false" s with
                    | Some r => Some (JBool false, r)
                    | None =>
                        match scan_number s with
                        | Some res => Some res
                        | None => scan_constant s
                        end
                    end
                end
            end
      end
  end
with parse_elems (fuel : nat) (acc : list json) (s : string) {struct fuel}
    : option (json * string) :=
  match fuel with
  | 0 => None
  | S f =>
      match parse_value f s with
      | None => None
      | Some (v, r) =>
          match skip_ws r with
          | String c r' =>
              if decide (c = "]"%char) then Some (JArr (rev (v :: acc)), r')
              else if decide (c = ","%char) then parse_elems f (v :: acc) (skip_ws r')
              else None
          | EmptyString => None
          end
      end
  end
with parse_members (fuel : nat) (acc : list (string * json)) (s : string) {struct fuel}
    : option (json * string) :=
  match fuel with
  | 0 => None
  | S f =>
      match s with
      | String q rest =>
          if decide (q = dq) then
            match scan_str (S (String.length rest)) rest with
            | None => None
            | Some (k, r1) =>
                match skip_ws r1 with
                | String c1 r2 =>
                    if decide (c1 = ":"%char) then
                      match parse_value f (skip_ws r2) with
                      | None => None
                      | Some (v, r3) =>
                          match skip_ws r3 with
                          | String c3 r4 =>
                              if decide (c3 = "}"%char) then Some (JObj (rev ((k, v) :: acc)), r4)
                              else if decide (c3 = ","%char) then
                                parse_members f ((k, v) :: acc) (skip_ws r4)
                              else None
                          | EmptyString => None
                          end
                      end
                    else None
                | EmptyString => None
                end
            end
          else None
      | EmptyString => None
      end
  end.

(** [json.loads(s)]: [JSONDecoder.decode], white space around one value
    and nothing else ("Extra data" otherwise). *)
Definition loads (s : string) : option json :=
  match parse_value (S (String.length s)) (skip_ws s) with
  | Some (v, r) => if bool_decide (skip_ws r = EmptyString) then Some v else None
  | None => None
  end.

(** ** What a decoded text denotes *)

(** The number of digits [int.__repr__] writes. *)
Definition int_digits (z : Z) : nat := String.length (print_int (Z.abs z)).

(** The values without floats and without [int]s too long for
    [int.__repr__] (which raises beyond [int_max_str_digits] digits): the
    encoder prints them exactly. *)
Fixpoint textual (j : json) : bool :=
  match j with
  | JInt z => bool_decide (int_digits z ≤ int_max_str_digits)%nat
  | JFloat _ => false
  | JArr xs => forallb textual xs
  | JObj kvs => forallb (λ '(_, v), textual v) kvs
  | _ => true
  end.

(** The Python value of a document up to the order of a [dict]'s
    members: each object replaced by its [dict], listed in key order. *)
Fixpoint normalize (j : json) : json :=
  match j with
  | JArr xs => JArr (List.map normalize xs)
  | JObj kvs =>
      JObj (merge_sort key_le (dedup_last (List.map (λ '(k, v), (k, normalize v)) kvs)))
  | _ => j
  end.

(** ** Lemmas on strings *)

Lemma str_app_assoc (s1 s2 s3 : string) : (s1 ++ s2) ++ s3 = s1 ++ (s2 ++ s3).
Proof.
  induction s1 as [|c s1 IH]; [done|].
  change (String c ((s1 ++ s2) ++ s3) = String c (s1 ++ (s2 ++ s3))). by rewrite IH.
Qed.

Lemma str_app_nil_r (s : string) : s ++ EmptyString = s.
Proof.
  induction s as [|c s IH]; [done|].
  change (String c (s ++ EmptyString) = String c s). by rewrite IH.
Qed.

Lemma str_length_app (s1 s2 : string) :
  String.length (s1 ++ s2) = (String.length s1 + String.length s2)%nat.
Proof.
  induction s1 as [|c s1 IH]; [done|].
  change (S (String.length (s1 ++ s2)) = S (String.length s1 + String.length s2))%nat.
  by rewrite IH.
Qed.

(** Rewrites that bring a printed text into the shape the decoder reads:
    one character at a time, from the left. *)
Lemma str_cons_app c (s1 s2 : string) : String c s1 ++ s2 = String c (s1 ++ s2).
Proof. done. Qed.

Lemma str_app_nil_l (s : string) : EmptyString ++ s = s.
Proof. done. Qed.

Lemma str_char_app c (s : string) : String c EmptyString ++ s = String c s.
Proof. done. Qed.

(** Skipping white space stops at a character that is not white space. *)
Lemma skip_ws_stop c s : is_ws c = false → skip_ws (String c s) = String c s.
Proof. simpl. by intros ->. Qed.

Lemma skip_ws_spaces n s : skip_ws (spaces n ++ s) = skip_ws s.
Proof. induction n as [|n IH]; simpl; [done|]. exact IH. Qed.

Lemma skip_ws_newline_indent n s : skip_ws (newline_indent n ++ s) = skip_ws s.
Proof. unfold newline_indent. simpl. apply skip_ws_spaces. Qed.

Lemma skip_ws_idem s : skip_ws (skip_ws s) = skip_ws s.
Proof. induction s as [|c s IH]; simpl; [done|]. destruct (is_ws c) eqn:Hc; [done|]. cbn [skip_ws]. by rewrite Hc. Qed.

(** ** Strings: [scanstring] reads back what [py_encode_basestring_ascii]
    writes *)

(** One character: its escape is read in one step of [scan_str].  The
    proof goes through the 256 characters. *)
Lemma scan_str_escape_char c f rest :
  scan_str (S f) (escape_char c ++ rest) =
  match scan_str f rest with Some (t, r) => Some (String c t, r) | None => None end.
Proof. destruct c as [[] [] [] [] [] [] [] []]; reflexivity. Qed.

Lemma escape_char_length c : (1 ≤ String.length (escape_char c))%nat.
Proof. destruct c as [[] [] [] [] [] [] [] []]; cbv; lia. Qed.

Lemma escape_length s : (String.length s ≤ String.length (escape s))%nat.
Proof.
  induction s as [|c s IH]; simpl; [lia|].
  rewrite str_length_app. pose proof (escape_char_length c). lia.
Qed.

Lemma scan_str_escape s rest f :
  (String.length s < f)%nat → scan_str f (escape s ++ String dq rest) = Some (s, rest).
Proof.
  revert f. induction s as [|c s IH]; intros [|f] Hf; simpl in Hf; try lia; [done|].
  cbn [escape]. rewrite str_app_assoc, scan_str_escape_char, IH by lia. done.
Qed.

(** [print_str] followed by any text decodes to the string. *)
Lemma scan_str_print s rest :
  scan_str (S (String.length (escape s ++ String dq rest))) (escape s ++ String dq rest) =
  Some (s, rest).
Proof. apply scan_str_escape. rewrite str_length_app. pose proof (escape_length s). lia. Qed.

(** ** Objects: [dict] items in key order *)

(** Induction on documents through their elements and members. *)
Lemma json_nested_ind (P : json → Prop) :
  P JNull → (∀ b, P (JBool b)) → (∀ n, P (JInt n)) → (∀ lit, P (JFloat lit)) →
  (∀ s, P (JStr s)) → (∀ xs, Forall P xs → P (JArr xs)) →
  (∀ kvs, Forall (λ kv, P kv.2) kvs → P (JObj kvs)) → ∀ j, P j.
Proof.
  intros Hn Hb Hi Hf Hs Ha Ho.
  refine (fix go (j : json) : P j := match j with
    | JNull => Hn | JBool b => Hb b | JInt n => Hi n | JFloat l => Hf l | JStr s => Hs s
    | JArr xs => Ha xs ((fix go_l (xs : list json) : Forall P xs := match xs with
        | [] => Forall_nil_2 _ | x :: xs => Forall_cons_2 _ _ _ (go x) (go_l xs) end) xs)
    | JObj kvs => Ho kvs ((fix go_m (kvs : list (string * json)) : Forall (λ kv, P kv.2) kvs :=
        match kvs with
        | [] => Forall_nil_2 _ | kv :: kvs => Forall_cons_2 _ _ _ (go kv.2) (go_m kvs) end) kvs)
    end).
Qed.

Section Items.
Context {A B : Type}.
Implicit Types (l : list (string * A)).

(** A map that keeps the keys. *)
Context (h : string * A → string * B) (Hh : ∀ kv, (h kv).1 = kv.1).

Lemma fst_map_keys l : (List.map h l).*1 = l.*1.
Proof. induction l as [|kv l IH]; [done|]. cbn [List.map]. rewrite !fmap_cons, Hh. by f_equal. Qed.

Lemma dedup_last_map l : dedup_last (List.map h l) = List.map h (dedup_last l).
Proof.
  induction l as [|[k v] l IH]; [done|]. cbn [List.map dedup_last].
  destruct (h (k, v)) as [k' v'] eqn:E. pose proof (Hh (k, v)) as Hk.
  rewrite E in Hk. simpl in Hk. subst k'. rewrite fst_map_keys.
  case_bool_decide; simpl; by rewrite IH, ?E.
Qed.

Lemma key_le_map kv1 kv2 : key_le kv1 kv2 → key_le (h kv1) (h kv2).
Proof. unfold key_le. by rewrite !Hh. Qed.
End Items.

Lemma map_fmap {A B} (f : A → B) (l : list A) : List.map f l = f <$> l.
Proof. induction l as [|x l IH]; [done|]. simpl. by rewrite IH. Qed.

Lemma NoDup_fst_eq {A} (l : list (string * A)) kv1 kv2 :
  NoDup l.*1 → kv1 ∈ l → kv2 ∈ l → kv1.1 = kv2.1 → kv1 = kv2.
Proof.
  induction l as [|kv l IH]; [set_solver|]. rewrite fmap_cons, NoDup_cons, !elem_of_cons.
  intros [Hk Hnd] [->|H1] [->|H2] Heq; try done.
  - destruct Hk. rewrite Heq. apply list_elem_of_fmap. by exists kv2.
  - destruct Hk. rewrite <-Heq. apply list_elem_of_fmap. by exists kv1.
  - by apply IH.
Qed.

Lemma NoDup_dedup_last {A} (l : list (string * A)) : NoDup (dedup_last l).*1.
Proof.
  induction l as [|[k v] l IH]; simpl; [constructor|].
  case_bool_decide as Hk; [done|]. simpl. constructor; [|done].
  intros Hin. apply Hk. clear -Hin. induction l as [|[k' v'] l IHl]; simpl in *; [set_solver|].
  case_bool_decide; simpl in *; set_solver.
Qed.

Lemma dedup_last_subset {A} (l : list (string * A)) kv : kv ∈ dedup_last l → kv ∈ l.
Proof. induction l as [|[k v] l IH]; simpl; [done|]. case_bool_decide; set_solver. Qed.

#[export] Instance key_le_trans {A} : Transitive (@key_le A).
Proof. intros a b c. unfold key_le. apply transitivity. Qed.

#[export] Instance key_le_total {A} : Total (@key_le A).
Proof. intros a b. unfold key_le. apply (total String.le). Qed.

(** Sorting by key commutes with a map that keeps the keys, on items
    with distinct keys. *)
Lemma merge_sort_map {A B} (h : string * A → string * B) (l : list (string * A)) :
  (∀ kv, (h kv).1 = kv.1) → NoDup l.*1 →
  merge_sort key_le (List.map h l) = List.map h (merge_sort key_le l).
Proof.
  intros Hh Hnd. rewrite !map_fmap. apply Sorted_unique_strong with (R := key_le); [apply _|..].
  - intros kv1 kv2 H1 H2 Hle1 Hle2. apply (NoDup_fst_eq (List.map h l)).
    + by rewrite (fst_map_keys h Hh).
    + by rewrite map_fmap, <-(merge_sort_Permutation key_le (h <$> l)).
    + by rewrite map_fmap, <-(merge_sort_Permutation key_le l).
    + by apply (anti_symm String.le).
  - apply Sorted_merge_sort, _.
  - apply (Sorted_fmap h key_le key_le), Sorted_merge_sort, _. apply key_le_map, Hh.
  - by rewrite !merge_sort_Permutation.
Qed.

(** The items of an object, as the encoder lists them. *)
Definition items {A} (kvs : list (string * A)) : list (string * A) :=
  merge_sort key_le (dedup_last kvs).

Lemma items_map {A B} (h : string * A → string * B) (l : list (string * A)) :
  (∀ kv, (h kv).1 = kv.1) → items (List.map h l) = List.map h (items l).
Proof.
  intros Hh. unfold items. rewrite (dedup_last_map h Hh).
  apply merge_sort_map; [done|]. apply NoDup_dedup_last.
Qed.

Lemma items_subset {A} (l : list (string * A)) kv : kv ∈ items l → kv ∈ l.
Proof. unfold items. rewrite merge_sort_Permutation. apply dedup_last_subset. Qed.

Lemma dedup_last_nonempty {A} (l : list (string * A)) : l ≠ [] → dedup_last l ≠ [].
Proof.
  induction l as [|[k v] l IH]; [done|]. intros _. cbn [dedup_last]. case_bool_decide as Hk; [|done].
  apply IH. intros ->. set_solver.
Qed.

Lemma items_nonempty {A} (l : list (string * A)) : l ≠ [] → items l ≠ [].
Proof.
  intros Hl%dedup_last_nonempty Hi. apply Hl, Permutation_nil_r.
  rewrite <-(merge_sort_Permutation key_le). unfold items in Hi. by rewrite Hi.
Qed.

Lemma items_Forall {A} (P : string * A → Prop) (l : list (string * A)) :
  Forall P l → Forall P (items l).
Proof. rewrite !Forall_forall. intros HP kv Hkv. by apply HP, items_subset. Qed.

(** ** Integers: [int.__repr__] read back by [match_number] *)

(** The text after a number cannot extend it: no digit, [.], [e] or [E]. *)
Definition number_end (s : string) : bool :=
  match s with
  | EmptyString => true
  | String c _ => negb (is_digit c) && bool_decide (c ≠ "."%char ∧ c ≠ "e"%char ∧ c ≠ "E"%char)
  end.

Lemma number_end_frac_exp rest :
  number_end rest = true → scan_frac rest = (EmptyString, rest) ∧ scan_exp rest = (EmptyString, rest).
Proof.
  destruct rest as [|c r]; [done|]. simpl. intros [_ Hc]%andb_prop.
  apply bool_decide_eq_true in Hc as (? & ? & ?).
  rewrite !decide_False by naive_solver. done.
Qed.

Lemma span_digits_uint d rest :
  number_end rest = true →
  span_digits (NilEmpty.string_of_uint d ++ rest) = (NilEmpty.string_of_uint d, rest).
Proof.
  intros Hr. induction d; cbn [NilEmpty.string_of_uint]; rewrite ?str_cons_app.
  1: destruct rest as [|c r]; [done|]; simpl in Hr |- *; by destruct (is_digit c).
  all: simpl; by rewrite IHd.
Qed.

Lemma dec_value_uint d acc :
  dec_value (Zpos acc) (NilEmpty.string_of_uint d) = Zpos (Pos.of_uint_acc d acc).
Proof. revert acc. induction d; intros acc; simpl; [done|..]; rewrite <-IHd; f_equal; lia. Qed.

(** [Pos.to_uint] writes no leading zero. *)
Lemma nzhead_head d : match Decimal.nzhead d with Decimal.D0 _ => False | _ => True end.
Proof. induction d; simpl; auto. Qed.

Lemma to_uint_head p :
  match Pos.to_uint p with Decimal.Nil | Decimal.D0 _ => False | _ => True end.
Proof.
  pose proof (DecimalPos.Unsigned.to_of (Pos.to_uint p)) as H.
  rewrite DecimalPos.Unsigned.of_to in H. change (N.to_uint (Npos p)) with (Pos.to_uint p) in H.
  pose proof (DecimalPos.Unsigned.to_uint_nonzero p). pose proof (nzhead_head (Pos.to_uint p)).
  unfold Decimal.unorm in H. destruct (Decimal.nzhead (Pos.to_uint p)); by rewrite H.
Qed.

Lemma scan_int_part_uint p rest :
  number_end rest = true →
  scan_int_part (NilEmpty.string_of_uint (Pos.to_uint p) ++ rest) =
  Some (NilEmpty.string_of_uint (Pos.to_uint p), rest).
Proof.
  intros Hr. pose proof (to_uint_head p).
  destruct (Pos.to_uint p) as [|d|d|d|d|d|d|d|d|d|d]; try done;
    cbn [NilEmpty.string_of_uint]; rewrite str_cons_app; simpl; by rewrite span_digits_uint.
Qed.

Lemma dec_value_to_uint p : dec_value 0 (NilEmpty.string_of_uint (Pos.to_uint p)) = Zpos p.
Proof.
  pose proof (to_uint_head p). pose proof (DecimalPos.Unsigned.of_to p) as Hp.
  destruct (Pos.to_uint p) as [|d|d|d|d|d|d|d|d|d|d]; try done;
    simpl; rewrite Z.mul_0_l, Z.add_0_l; unfold Z.of_nat; simpl Pos.of_succ_nat;
    rewrite dec_value_uint; simpl in Hp; by injection Hp as <-.
Qed.

Lemma uint_string_head p :
  ∃ c t, NilEmpty.string_of_uint (Pos.to_uint p) = String c t ∧ is_digit c = true.
Proof.
  pose proof (to_uint_head p).
  destruct (Pos.to_uint p) as [|d|d|d|d|d|d|d|d|d|d]; try done; by eexists _, _.
Qed.

Lemma scan_number_print_int z rest :
  number_end rest = true → (int_digits z ≤ int_max_str_digits)%nat →
  scan_number (print_int z ++ rest) = Some (JInt z, rest).
Proof.
  intros Hr Hd. destruct (number_end_frac_exp rest Hr) as [Hf He]. unfold print_int, scan_number.
  unfold int_digits, print_int in Hd.
  destruct z as [|p|p]; cbn [Z.abs Z.to_int NilEmpty.string_of_int] in Hd |- *.
  - simpl. rewrite str_app_nil_l, Hf, He. done.
  - destruct (uint_string_head p) as (c & t & Hs & Hc).
    replace (scan_minus _) with (false, NilEmpty.string_of_uint (Pos.to_uint p) ++ rest).
    2: { rewrite Hs, str_cons_app. simpl. rewrite decide_False; [done|]. by intros ->. }
    rewrite scan_int_part_uint, Hf, He by done. simpl.
    rewrite bool_decide_true by exact Hd. by rewrite dec_value_to_uint.
  - rewrite str_cons_app. simpl. rewrite scan_int_part_uint, Hf, He by done. simpl.
    rewrite bool_decide_true by exact Hd. by rewrite dec_value_to_uint.
Qed.

Lemma print_int_head z :
  ∃ c t, print_int z = String c t ∧ (is_digit c = true ∨ c = "-"%char).
Proof.
  unfold print_int. destruct z as [|p|p]; cbn [Z.to_int NilEmpty.string_of_int].
  - eexists _, _. split; [reflexivity|]. by left.
  - destruct (uint_string_head p) as (c & t & -> & Hc). eauto.
  - eexists _, _. split; [reflexivity|]. by right.
Qed.

(** On a digit or a minus sign, [scan_once] tries a number first. *)
Lemma parse_value_number f c s :
  is_digit c = true ∨ c = "-"%char →
  parse_value (S f) (String c s) =
  match scan_number (String c s) with Some res => Some res | None => scan_constant (String c s) end.
Proof.
  intros Hc. cbn [parse_value chop].
  rewrite !decide_False by (intros ?; subst; destruct Hc as [Hc|Hc]; discriminate).
  done.
Qed.

Lemma parse_value_print_int z f rest :
  number_end rest = true → (int_digits z ≤ int_max_str_digits)%nat → (0 < f)%nat →
  parse_value f (print_int z ++ rest) = Some (JInt z, rest).
Proof.
  intros Hr Hd Hf. destruct f as [|f]; [lia|].
  destruct (print_int_head z) as (c & t & Hz & Hc).
  rewrite Hz, str_cons_app, parse_value_number by done.
  by rewrite <-str_cons_app, <-Hz, scan_number_print_int.
Qed.

(** ** The decoder reads back what the encoder writes *)

Lemma concat_map_cons {A} (g : A → string) sep x xs :
  String.concat sep (List.map g (x :: xs)) =
  g x ++ match xs with [] => EmptyString | _ => sep ++ String.concat sep (List.map g xs) end.
Proof. destruct xs; simpl; [by rewrite str_app_nil_r|done]. Qed.

(** A printed value starts with a character that is neither white space
    nor a closing bracket. *)
Lemma print_head level j :
  textual j = true →
  ∃ c t, print_json level j = String c t ∧ is_ws c = false ∧
         c ≠ "]"%char ∧ c ≠ "}"%char.
Proof.
  intros Hj. destruct j as [|[]|z| | |[]|[]]; try done.
  4: { destruct (print_int_head z) as (c & t & Hz & Hc). exists c, t. split; [done|].
       destruct Hc as [Hc| ->]; [|done]. split_and!; [|by intros ->..].
       apply bool_decide_eq_true in Hc. apply bool_decide_eq_false.
       rewrite !elem_of_cons. set_solver by lia. }
  all: eexists _, _; (split; [reflexivity|]); done.
Qed.

Lemma skip_ws_print level j s :
  textual j = true → skip_ws (print_json level j ++ s) = print_json level j ++ s.
Proof. intros (c & t & -> & Hc & _)%(print_head level). by apply skip_ws_stop. Qed.

(** The steps of [parse_value] on the first character of a value. *)
Lemma parse_value_arr f s :
  parse_value (S f) (String "[" s) =
  match skip_ws s with
  | String c' r' => if decide (c' = "]"%char) then Some (JArr [], r')
                    else parse_elems f [] (String c' r')
  | EmptyString => None
  end.
Proof. reflexivity. Qed.

Lemma parse_value_obj f s :
  parse_value (S f) (String "{" s) =
  match skip_ws s with
  | String c' r' => if decide (c' = "}"%char) then Some (JObj [], r')
                    else parse_members f [] (String c' r')
  | EmptyString => None
  end.
Proof. reflexivity. Qed.

(** The round trip of one value, at every nesting level and before any
    text: enough fuel reads it back. *)
Definition prints_back (j : json) : Prop :=
  ∀ level f rest, number_end rest = true → (String.length (print_json level j) < f)%nat →
  parse_value f (print_json level j ++ rest) = Some (normalize j, rest).

Lemma parse_value_print_str s f rest :
  (0 < f)%nat → parse_value f (print_str s ++ rest) = Some (JStr s, rest).
Proof.
  destruct f as [|f]; [lia|]. intros _. unfold print_str.
  rewrite str_cons_app, str_app_assoc, str_cons_app, str_app_nil_l.
  cbn [parse_value]. rewrite decide_True by done.
  by rewrite scan_str_print.
Qed.

Lemma forallb_Forall_true {A} (p : A → bool) (l : list A) :
  forallb p l = true → Forall (λ x, p x = true) l.
Proof. induction l as [|x l IH]; simpl; [constructor|]. intros [? ?]%andb_prop. by constructor; [|apply IH]. Qed.

Lemma skip_ws_space s : skip_ws (String " " s) = skip_ws s.
Proof. done. Qed.

(** A non-empty list of printed values, joined, starts with a character
    that is neither white space nor a closing bracket. *)
Lemma concat_print_head {A} (g : A → string) sep (xs : list A) s :
  Forall (λ x, ∃ c t, g x = String c t ∧ is_ws c = false ∧ c ≠ "]"%char ∧ c ≠ "}"%char) xs →
  xs ≠ [] →
  ∃ c t, String.concat sep (List.map g xs) ++ s = String c t ∧ is_ws c = false ∧
         c ≠ "]"%char ∧ c ≠ "}"%char.
Proof.
  destruct xs as [|x xs]; [done|]. intros Hall _. apply Forall_cons in Hall as [(c & t & Hx & Hc) _].
  rewrite concat_map_cons, str_app_assoc, Hx. eexists c, _. by split; [reflexivity|].
Qed.

Lemma parse_elems_print level xs acc f rest :
  xs ≠ [] → Forall (λ x, textual x = true ∧ prints_back x) xs →
  (S (String.length (String.concat ("," ++ newline_indent (S level))
     (List.map (print_json (S level)) xs))) < f)%nat →
  parse_elems f acc (String.concat ("," ++ newline_indent (S level))
     (List.map (print_json (S level)) xs) ++ newline_indent level ++ String "]" rest) =
  Some (JArr (rev acc ++ List.map normalize xs), rest).
Proof.
  revert acc f. induction xs as [|x xs IH]; intros acc f Hne Hall Hf; [done|].
  apply Forall_cons in Hall as [[_ Hb] Hall].
  rewrite concat_map_cons, !str_length_app in Hf. rewrite concat_map_cons, str_app_assoc.
  destruct f as [|f]; [lia|]. cbn [parse_elems]. rewrite (Hb (S level)) by (lia || by destruct xs).
  destruct xs as [|y ys].
  - rewrite str_app_nil_l, skip_ws_newline_indent, skip_ws_stop by done.
    rewrite decide_True by done. done.
  - rewrite !str_app_assoc, str_cons_app, str_app_nil_l, skip_ws_stop by done.
    rewrite decide_False, decide_True by done. rewrite skip_ws_newline_indent.
    destruct (concat_print_head (print_json (S level)) ("," ++ newline_indent (S level)) (y :: ys)
      (newline_indent level ++ String "]" rest)) as (c & t & Heq & Hc & _); [|done|].
    { eapply Forall_impl; [exact Hall|]. intros z [Hz _]. by apply print_head. }
    rewrite Heq, skip_ws_stop, <-Heq by done.
    cbn match in Hf. rewrite !str_length_app in Hf. cbn [String.length] in Hf.
    rewrite IH by (done || lia).
    simpl. by rewrite <-app_assoc.
Qed.

(** The text of one member of an object at nesting level [level]. *)
Definition member_text (level : nat) (kv : string * json) : string :=
  print_str kv.1 ++ ": " ++ print_json (S level) kv.2.

Lemma member_text_pair level k v :
  member_text level (k, v) = print_str k ++ ": " ++ print_json (S level) v.
Proof. done. Qed.

Lemma member_text_head level kv :
  ∃ c t, member_text level kv = String c t ∧ is_ws c = false ∧ c ≠ "]"%char ∧ c ≠ "}"%char.
Proof. eexists _, _. split; [reflexivity|]. done. Qed.

Lemma member_text_app level k v s :
  member_text level (k, v) ++ s =
  String dq (escape k ++ String dq (String ":" (String " " (print_json (S level) v ++ s)))).
Proof.
  unfold member_text, print_str. rewrite !str_app_assoc.
  change (String dq ((escape k ++ String dq "") ++ (": " ++ (print_json (S level) v ++ s))) =
          String dq (escape k ++ String dq (String ":" (String " " (print_json (S level) v ++ s))))).
  by rewrite str_app_assoc.
Qed.

Lemma member_text_length level k v :
  (String.length (print_json (S level) v) + 4 ≤ String.length (member_text level (k, v)))%nat.
Proof. unfold member_text, print_str. rewrite !str_length_app. simpl. rewrite str_length_app. simpl. lia. Qed.

(** The separator [',' + newline + indent] is read one character at a time. *)
Lemma sep_app level s :
  ("," ++ newline_indent (S level)) ++ s = String "," (newline_indent (S level) ++ s).
Proof. done. Qed.

Lemma parse_members_print level kvs acc f rest :
  kvs ≠ [] → Forall (λ kv, textual kv.2 = true ∧ prints_back kv.2) kvs →
  (S (String.length (String.concat ("," ++ newline_indent (S level))
     (List.map (member_text level) kvs))) < f)%nat →
  parse_members f acc (String.concat ("," ++ newline_indent (S level))
     (List.map (member_text level) kvs) ++ newline_indent level ++ String "}" rest) =
  Some (JObj (rev acc ++ List.map (λ '(k, v), (k, normalize v)) kvs), rest).
Proof.
  revert acc f. induction kvs as [|[k v] kvs IH]; intros acc f Hne Hall Hf; [done|].
  apply Forall_cons in Hall as [[Ht Hb] Hall]. simpl in Ht, Hb.
  rewrite concat_map_cons, !str_length_app in Hf. pose proof (member_text_length level k v).
  rewrite concat_map_cons, str_app_assoc, member_text_app.
  destruct f as [|f]; [lia|]. cbn [parse_members]. rewrite decide_True by done.
  rewrite scan_str_print, skip_ws_stop, decide_True by done.
  rewrite skip_ws_space, skip_ws_print by done. rewrite (Hb (S level)) by (lia || by destruct kvs).
  destruct kvs as [|kv' kvs].
  - rewrite str_app_nil_l, skip_ws_newline_indent, skip_ws_stop by done.
    rewrite decide_True by done. done.
  - rewrite str_app_assoc, sep_app, skip_ws_stop, decide_False, decide_True by done.
    rewrite skip_ws_newline_indent.
    destruct (concat_print_head (member_text level) ("," ++ newline_indent (S level))
      (kv' :: kvs) (newline_indent level ++ String "}" rest)) as (c & t & Heq & Hc & _);
      [apply Forall_forall; intros; apply member_text_head|done|].
    rewrite Heq, skip_ws_stop, <-Heq by done.
    cbn match in Hf. rewrite !str_length_app in Hf. cbn [String.length] in Hf.
    rewrite IH by (done || lia).
    simpl. by rewrite <-app_assoc.
Qed.

(** The members of an object as the encoder prints them. *)
Lemma print_members level kvs :
  List.map (λ '(k, txt), print_str k ++ ": " ++ txt)
    (merge_sort key_le (dedup_last (List.map (λ '(k, v), (k, print_json (S level) v)) kvs))) =
  List.map (member_text level) (items kvs).
Proof.
  change (merge_sort key_le (dedup_last ?l)) with (items l).
  rewrite (items_map (λ '(k, v), (k, print_json (S level) v))) by (by intros []).
  rewrite map_map. apply map_ext. by intros [].
Qed.

Lemma normalize_obj kvs :
  normalize (JObj kvs) = JObj (List.map (λ '(k, v), (k, normalize v)) (items kvs)).
Proof.
  cbn [normalize]. change (merge_sort key_le (dedup_last ?l)) with (items l).
  by rewrite (items_map (λ '(k, v), (k, normalize v))) by (by intros []).
Qed.

(** A non-empty array whose elements print back prints back. *)
Lemma prints_back_arr xs :
  xs ≠ [] → Forall (λ x, textual x = true ∧ prints_back x) xs → prints_back (JArr xs).
Proof.
  intros Hne Hall level f rest _ Hf. destruct xs as [|x xs']; [done|].
  cbn [print_json] in Hf |- *. rewrite !str_length_app in Hf. cbn [String.length] in Hf.
  rewrite !str_app_assoc, (str_char_app "["), (str_char_app "]").
  destruct f as [|f]; [lia|]. rewrite parse_value_arr, skip_ws_newline_indent.
  destruct (concat_print_head (print_json (S level)) ("," ++ newline_indent (S level))
    (x :: xs') (newline_indent level ++ String "]" rest)) as (c & t & Heq & Hc & Hc' & _);
    [|done|].
  { eapply Forall_impl; [exact Hall|]. intros z [Hz _]. by apply print_head. }
  rewrite Heq, skip_ws_stop, decide_False, <-Heq by done.
  by rewrite parse_elems_print by (done || lia).
Qed.

(** A non-empty object whose members print back prints back, as the
    items of its [dict]. *)
Lemma prints_back_obj kvs :
  kvs ≠ [] → Forall (λ kv, textual kv.2 = true ∧ prints_back kv.2) kvs →
  prints_back (JObj kvs).
Proof.
  intros Hne Hall%items_Forall level f rest _ Hf. destruct kvs as [|kv kvs']; [done|].
  cbn [print_json] in Hf |- *. rewrite print_members in Hf |- *.
  rewrite !str_length_app in Hf. cbn [String.length] in Hf.
  rewrite !str_app_assoc, (str_char_app "{"), (str_char_app "}").
  destruct f as [|f]; [lia|]. rewrite parse_value_obj, skip_ws_newline_indent.
  destruct (concat_print_head (member_text level) ("," ++ newline_indent (S level))
    (items (kv :: kvs')) (newline_indent level ++ String "}" rest)) as (c & t & Heq & Hc & _ & Hc');
    [apply Forall_forall; intros; apply member_text_head|by apply items_nonempty|].
  rewrite Heq, skip_ws_stop, decide_False, <-Heq by done.
  rewrite parse_members_print by (done || by apply items_nonempty || lia).
  by rewrite normalize_obj.
Qed.

(** Every document without floats prints back. *)
Lemma textual_prints_back j : textual j = true → prints_back j.
Proof.
  induction j as [| b | n | lit | s | xs IH | kvs IH] using json_nested_ind;
    intros Hj; try done.
  - intros level [|f] rest _ Hf; simpl in Hf; [lia|done].
  - intros level [|f] rest _ Hf; simpl in Hf; [lia|by destruct b].
  - intros level f rest Hr Hf. apply bool_decide_eq_true in Hj.
    apply parse_value_print_int; [done|done|lia].
  - intros level f rest _ Hf. apply parse_value_print_str. lia.
  - destruct xs as [|x xs']; [intros level [|f] rest _ Hf; simpl in Hf; [lia|done]|].
    apply prints_back_arr; [done|]. apply forallb_Forall_true in Hj.
    apply Forall_and. split; [done|]. eapply Forall_impl; [apply Forall_and; split; [exact IH|exact Hj]|].
    naive_solver.
  - destruct kvs as [|kv kvs']; [intros level [|f] rest _ Hf; simpl in Hf; [lia|done]|].
    apply prints_back_obj; [done|]. apply forallb_Forall_true in Hj.
    apply Forall_and. split; [eapply Forall_impl; [exact Hj|]; by intros []|].
    eapply Forall_impl; [apply Forall_and; split; [exact IH|exact Hj]|]. intros [k v]. naive_solver.
Qed.

(** ** [normalize] keeps the Python value *)

Lemma dict_get_dedup_last kvs k : dict_get (dedup_last kvs) k = dict_get kvs k.
Proof.
  induction kvs as [|[k' v] kvs IH]; [done|]. cbn [dedup_last dict_get].
  case_bool_decide as Hk; cbn [dict_get]; rewrite IH; [|done].
  destruct (dict_get kvs k) eqn:E; [done|]. case_decide; [subst k'|done].
  apply list_elem_of_fmap in Hk as ([k'' v''] & ? & Hin). simpl in *. subst k''.
  exfalso. revert E. clear -Hin. induction kvs as [|[k' v'] kvs IH]; [set_solver|].
  cbn [dict_get]. apply elem_of_cons in Hin as [Heq|Hin]; [injection Heq as <- <-|].
  - destruct (dict_get kvs k); [done|]. by rewrite decide_True.
  - intros E. apply IH; [done|]. by destruct (dict_get kvs k).
Qed.

Lemma dict_get_elem_of kvs k v : NoDup kvs.*1 → dict_get kvs k = Some v ↔ (k, v) ∈ kvs.
Proof.
  revert v. induction kvs as [|[k' v'] kvs IH]; intros v; [set_solver|].
  rewrite fmap_cons, NoDup_cons. intros [Hk Hnd]. cbn [dict_get].
  assert (∀ w, dict_get kvs k = Some w → (k, w) ∈ kvs) as Hin by (intros w; by apply IH).
  rewrite elem_of_cons, <-(IH v Hnd). destruct (dict_get kvs k) as [v''|] eqn:E.
  - split; [naive_solver|]. intros [Heq|?]; [|done]. injection Heq as -> ->.
    destruct Hk. apply list_elem_of_fmap. exists (k', v''). split; [done|]. by apply Hin.
  - case_decide; naive_solver.
Qed.

(** A lookup in the items of an object finds what [dict(pairs)] finds. *)
Lemma dict_get_items kvs k : dict_get (items kvs) k = dict_get kvs k.
Proof.
  rewrite <-(dict_get_dedup_last kvs). pose proof (NoDup_dedup_last kvs) as Hnd.
  assert (NoDup (items kvs).*1) as Hnd'.
  { unfold items. by rewrite merge_sort_Permutation. }
  destruct (dict_get (dedup_last kvs) k) as [v|] eqn:E.
  - apply dict_get_elem_of; [done|]. apply dict_get_elem_of in E; [|done].
    unfold items. by rewrite merge_sort_Permutation.
  - destruct (dict_get (items kvs) k) as [v|] eqn:E'; [|done].
    apply dict_get_elem_of in E'; [|done]. unfold items in E'.
    rewrite merge_sort_Permutation, <-dict_get_elem_of in E' by done. congruence.
Qed.

Lemma dict_get_map_values (g : json → json) kvs k :
  dict_get (List.map (λ '(k, v), (k, g v)) kvs) k = g <$> dict_get kvs k.
Proof.
  induction kvs as [|[k' v] kvs IH]; [done|]. cbn [List.map dict_get]. rewrite IH.
  destruct (dict_get kvs k); [done|]. by case_decide.
Qed.

(** The object a decoded text gives is the [dict] of the original: every
    key is bound to the (normalized) value [body[k]] reads. *)
Lemma py_getitem_normalize kvs k :
  py_getitem (normalize (JObj kvs)) k =
  match py_getitem (JObj kvs) k with inr v => inr (normalize v) | inl e => inl e end.
Proof.
  rewrite normalize_obj. unfold py_getitem.
  rewrite dict_get_map_values, dict_get_items. by destruct (dict_get kvs k).
Qed.

(** ** The round trip *)

Lemma loads_print j : textual j = true → loads (jsonify_text j) = Some (normalize j).
Proof.
  intros Hj. unfold loads, jsonify_text. rewrite skip_ws_print by done.
  rewrite (textual_prints_back j Hj 0) by (done || rewrite str_length_app; simpl; lia).
  by rewrite bool_decide_true.
Qed.

(** C30: [json.loads] reads back every document without floats that
    [jsonify] writes, as the same Python value: the same scalars and
    arrays, and for an object the [dict] of its members, listed in key
    order, in which [body[k]] finds what it finds in the original. *)
Theorem loads_jsonify_text j :
  textual j = true →
  loads (jsonify_text j) = Some (normalize j) ∧
  ∀ kvs k, j = JObj kvs →
    py_getitem (normalize j) k =
    match py_getitem j k with inr v => inr (normalize v) | inl e => inl e end.
Proof.
  intros Hj. split; [by apply loads_print|]. intros kvs k ->. apply py_getitem_normalize.
Qed.

(** ** The fuel of [loads] is enough for every text *)

(** Each scanner returns a suffix of its input, shorter when it consumed
    something. *)
Lemma skip_ws_length s : (String.length (skip_ws s) ≤ String.length s)%nat.
Proof. induction s as [|c s IH]; simpl; [lia|]. destruct (is_ws c); simpl; lia. Qed.

Lemma skip_ws_cons_length s c r :
  skip_ws s = String c r → (S (String.length r) ≤ String.length s)%nat.
Proof. intros Hs. pose proof (skip_ws_length s) as Hl. rewrite Hs in Hl. exact Hl. Qed.

Lemma chop_length p s r : chop p s = Some r → String.length s = (String.length p + String.length r)%nat.
Proof.
  revert s. induction p as [|c p IH]; intros s; [by intros [= ->]|].
  destruct s as [|c' s]; [done|]. cbn [chop]. case_decide; [|done].
  intros Hr%IH. simpl. lia.
Qed.

Lemma unescape_length s c r : unescape s = Some (c, r) → (String.length r < String.length s)%nat.
Proof.
  destruct s as [|e rest]; [done|]. cbn [unescape].
  repeat case_decide; try (intros [= _ <-]; simpl; lia).
  repeat case_match; try done. intros [= _ <-]. simpl. lia.
Qed.

Lemma scan_str_length f s t r : scan_str f s = Some (t, r) → (String.length r < String.length s)%nat.
Proof.
  revert s t. induction f as [|f IH]; intros [|c rest] t; try done. cbn [scan_str].
  repeat case_decide; [intros [= _ <-]; simpl; lia| |done|].
  - destruct (unescape rest) as [[c' rest']|] eqn:E; [|done].
    destruct (scan_str f rest') as [[t' r']|] eqn:E'; [|done]. intros [= _ <-].
    apply IH in E'. apply unescape_length in E. simpl. lia.
  - destruct (scan_str f rest) as [[t' r']|] eqn:E'; [|done]. intros [= _ <-].
    apply IH in E'. simpl. lia.
Qed.

Lemma span_digits_length s : String.length s =
  (String.length (span_digits s).1 + String.length (span_digits s).2)%nat.
Proof.
  induction s as [|c s IH]; [done|]. cbn [span_digits].
  destruct (is_digit c); [|done]. destruct (span_digits s). simpl in *. lia.
Qed.

Lemma scan_frac_length s : (String.length (scan_frac s).2 ≤ String.length s)%nat.
Proof.
  destruct s as [|c rest]; simpl; [lia|]. case_decide; simpl; [|lia].
  pose proof (span_digits_length rest). destruct (span_digits rest) as [[] ?]; simpl in *; lia.
Qed.

Lemma scan_sign_length s : (String.length (scan_sign s).2 ≤ String.length s)%nat.
Proof. destruct s as [|c r]; simpl; [lia|]. case_decide; simpl; lia. Qed.

Lemma scan_exp_length s : (String.length (scan_exp s).2 ≤ String.length s)%nat.
Proof.
  destruct s as [|e rest]; cbn [scan_exp]; [simpl; lia|]. case_decide; [|simpl; lia].
  pose proof (scan_sign_length rest) as Hr. destruct (scan_sign rest) as [sign r]. simpl in Hr.
  pose proof (span_digits_length r). destruct (span_digits r) as [[] ?]; simpl in *; lia.
Qed.

Lemma scan_int_part_length s int r :
  scan_int_part s = Some (int, r) → (String.length r < String.length s)%nat.
Proof.
  destruct s as [|c rest]; [done|]. cbn [scan_int_part].
  case_decide; [intros [= _ <-]; simpl; lia|]. destruct (is_digit c); [|done].
  pose proof (span_digits_length rest). destruct (span_digits rest). intros [= _ <-]. simpl in *. lia.
Qed.

Lemma scan_number_length s j r : scan_number s = Some (j, r) → (String.length r < String.length s)%nat.
Proof.
  unfold scan_number.
  assert (String.length (scan_minus s).2 ≤ String.length s)%nat as Hm.
  { destruct s as [|c rest]; simpl; [lia|]. case_decide; simpl; lia. }
  destruct (scan_minus s) as [neg s1]. simpl in Hm.
  destruct (scan_int_part s1) as [[int s2]|] eqn:E; [|done]. apply scan_int_part_length in E.
  pose proof (scan_frac_length s2). destruct (scan_frac s2) as [frac s3]. simpl in *.
  pose proof (scan_exp_length s3). destruct (scan_exp s3) as [exp s4]. simpl in *.
  repeat case_bool_decide; try discriminate; intros [= _ <-]; lia.
Qed.

Lemma scan_constant_length s j r : scan_constant s = Some (j, r) → (String.length r < String.length s)%nat.
Proof.
  unfold scan_constant.
  destruct (chop "NaN" s) eqn:E1; [intros [= _ <-]; apply chop_length in E1; simpl in E1; lia|].
  destruct (chop "Infinity" s) eqn:E2; [intros [= _ <-]; apply chop_length in E2; simpl in E2; lia|].
  destruct (chop "-Infinity" s) eqn:E3; [intros [= _ <-]; apply chop_length in E3; simpl in E3; lia|].
  done.
Qed.

(** What a successful parse promises: it consumed a character, and any
    fuel at least the number of characters consumed gives the same
    result. *)
Definition fuel_adequate (p : nat → option (json * string)) (s : string) (v : json) (r : string) :=
  (String.length r < String.length s)%nat ∧
  ∀ f', (String.length s - String.length r ≤ f')%nat → p f' = Some (v, r).

Lemma chop_shorter p s r :
  chop p s = Some r → p ≠ EmptyString → (String.length r < String.length s)%nat.
Proof. intros ->%chop_length Hp. destruct p; [done|]. simpl. lia. Qed.

(** The three parsers at fuel [f] keep their promise. *)
Definition adequate_at (f : nat) : Prop :=
  (∀ s v r, parse_value f s = Some (v, r) → fuel_adequate (λ f', parse_value f' s) s v r) ∧
  (∀ acc s v r, parse_elems f acc s = Some (v, r) →
     fuel_adequate (λ f', parse_elems f' acc s) s v r) ∧
  (∀ acc s v r, parse_members f acc s = Some (v, r) →
     fuel_adequate (λ f', parse_members f' acc s) s v r).

Section FuelStep.
Context (f : nat) (IH : adequate_at f).

Lemma parse_value_fuel_step s v r :
  parse_value (S f) s = Some (v, r) → fuel_adequate (λ f', parse_value f' s) s v r.
Proof.
  destruct IH as (_ & IHe & IHm). unfold fuel_adequate in *.
  destruct s as [|c rest]; [done|]. intros Hs.
  enough ((String.length r < S (String.length rest))%nat ∧
    ∀ f', (S (String.length rest) - String.length r ≤ S f')%nat →
      parse_value (S f') (String c rest) = Some (v, r)) as [Hl Hf].
  { split; [done|]. intros [|f'] Hf'; [simpl in Hf'; lia|]. by apply Hf. }
  cbn [parse_value] in Hs |- *.
  destruct (decide (c = dq)).
  { destruct (scan_str _ rest) as [[t r']|] eqn:E; [|done]. injection Hs as <- <-.
    apply scan_str_length in E. split; [lia|done]. }
  destruct (decide (c = "{"%char)).
  { destruct (skip_ws rest) as [|c' r'] eqn:Ew; [done|]. apply skip_ws_cons_length in Ew.
    destruct (decide (c' = "}"%char)); [injection Hs as <- <-; split; [lia|done]|].
    destruct (IHm _ _ _ _ Hs) as [Hl Hf]. simpl in Hl.
    split; [lia|]. intros f' Hf'. apply Hf. simpl. lia. }
  destruct (decide (c = "["%char)).
  { destruct (skip_ws rest) as [|c' r'] eqn:Ew; [done|]. apply skip_ws_cons_length in Ew.
    destruct (decide (c' = "]"%char)); [injection Hs as <- <-; split; [lia|done]|].
    destruct (IHe _ _ _ _ Hs) as [Hl Hf]. simpl in Hl.
    split; [lia|]. intros f' Hf'. apply Hf. simpl. lia. }
  destruct (chop "null" _) eqn:E1;
    [injection Hs as <- <-; apply chop_shorter in E1; [split; [done..]|done]|].
  destruct (chop "true" _) eqn:E2;
    [injection Hs as <- <-; apply chop_shorter in E2; [split; [done..]|done]|].
  destruct (chop "false" _) eqn:E3;
    [injection Hs as <- <-; apply chop_shorter in E3; [split; [done..]|done]|].
  destruct (scan_number _) as [[j r']|] eqn:E4;
    [injection Hs as <- <-; apply scan_number_length in E4; split; [done..]|].
  split; [exact (scan_constant_length _ _ _ Hs)|done].
Qed.

Lemma parse_elems_fuel_step acc s v r :
  parse_elems (S f) acc s = Some (v, r) → fuel_adequate (λ f', parse_elems f' acc s) s v r.
Proof.
  destruct IH as (IHv & IHe & _). unfold fuel_adequate in *. intros Hs. cbn [parse_elems] in Hs.
  destruct (parse_value f s) as [[x r1]|] eqn:E; [|done].
  destruct (IHv _ _ _ E) as [Hl1 Hf1].
  destruct (skip_ws r1) as [|c r'] eqn:Ew; [done|]. apply skip_ws_cons_length in Ew as Hw.
  destruct (decide (c = "]"%char)).
  { injection Hs as <- <-. split; [lia|]. intros [|f'] Hf'; [lia|]. cbn [parse_elems].
    rewrite (Hf1 f') by lia. by rewrite Ew, decide_True. }
  destruct (decide (c = ","%char)); [|done].
  destruct (IHe _ _ _ _ Hs) as [Hl2 Hf2]. pose proof (skip_ws_length r').
  split; [lia|]. intros [|f'] Hf'; [lia|]. cbn [parse_elems].
  rewrite (Hf1 f') by lia. rewrite Ew, decide_False, decide_True by done. apply Hf2. lia.
Qed.

Lemma parse_members_fuel_step acc s v r :
  parse_members (S f) acc s = Some (v, r) → fuel_adequate (λ f', parse_members f' acc s) s v r.
Proof.
  destruct IH as (IHv & _ & IHm). unfold fuel_adequate in *.
  destruct s as [|q rest]; [done|]. intros Hs. cbn [parse_members] in Hs.
  destruct (decide (q = dq)); [|done].
  destruct (scan_str _ rest) as [[k r1]|] eqn:Ek; [|done]. apply scan_str_length in Ek as Hk.
  destruct (skip_ws r1) as [|c1 r2] eqn:E1; [done|]. apply skip_ws_cons_length in E1 as H1.
  destruct (decide (c1 = ":"%char)); [|done].
  destruct (parse_value f (skip_ws r2)) as [[x r3]|] eqn:Ev; [|done].
  destruct (IHv _ _ _ Ev) as [Hl3 Hf3]. pose proof (skip_ws_length r2).
  destruct (skip_ws r3) as [|c3 r4] eqn:E3; [done|]. apply skip_ws_cons_length in E3 as H3.
  destruct (decide (c3 = "}"%char)).
  { injection Hs as <- <-. split; [simpl; lia|]. intros [|f'] Hf'; [simpl in Hf'; lia|].
    cbn [parse_members]. rewrite decide_True by done. rewrite Ek, E1, decide_True by done.
    rewrite (Hf3 f') by (simpl in Hf'; lia). by rewrite E3, decide_True. }
  destruct (decide (c3 = ","%char)); [|done].
  destruct (IHm _ _ _ _ Hs) as [Hl4 Hf4]. pose proof (skip_ws_length r4).
  split; [simpl; lia|]. intros [|f'] Hf'; [simpl in Hf'; lia|].
  cbn [parse_members]. rewrite decide_True by done. rewrite Ek, E1, decide_True by done.
  rewrite (Hf3 f') by (simpl in Hf'; lia). rewrite E3, decide_False, decide_True by done.
  apply Hf4. simpl in Hf'. lia.
Qed.
End FuelStep.

Lemma parse_fuel_adequate f : adequate_at f.
Proof.
  induction f as [|f IH]; [done|].
  split_and!; [apply parse_value_fuel_step|apply parse_elems_fuel_step|apply parse_members_fuel_step];
    exact IH.
Qed.

(** The fuel of [loads] never refuses a text: [loads] accepts a text
    exactly when the decoder accepts it with some fuel, with the same
    value.  The decoder itself has no depth limit, where CPython's
    scanner raises [RecursionError] once the nesting exceeds the
    interpreter's recursion limit. *)
Lemma loads_complete s v :
  loads s = Some v ↔
  ∃ f r, parse_value f (skip_ws s) = Some (v, r) ∧ skip_ws r = EmptyString.
Proof.
  unfold loads. split.
  - destruct (parse_value _ _) as [[v' r]|] eqn:E; [|done].
    case_bool_decide; [|done]. intros [= <-]. eauto.
  - intros (f & r & Hp & Hr). destruct (proj1 (parse_fuel_adequate f) _ _ _ Hp) as [_ Hf].
    rewrite Hf by (pose proof (skip_ws_length s); lia). by rewrite bool_decide_true.
Qed.
