(* ===== verification/Store.v ===== *)
(** * Store: what the handlers require of the persistence layer

    The handlers of src/backend/main.py reach the database through
    SQLAlchemy sessions and issue four statements on the [todo] table:
    - [session.query(Todo).all()] (line 38): every row ([store_all]);
    - the reload of an expired [Todo] after [commit] when
      [new_todo.serialize] reads its attributes (line 64): a [SELECT] by
      primary key ([store_get]);
    - [session.add(new_todo); session.commit()] (lines 57-59): an [INSERT]
      that fails with [IntegrityError] when the key exists ([store_insert]
      returns [None]);
    - [session.query(Todo).where(Todo.id == id).delete()] and [commit]
      (lines 69-70): a [DELETE] by key ([store_delete]).

    [TodoStore] is that interface; [TodoStoreSpec] states what a store
    promises, against an abstract view of the table as a finite map from
    primary key to value.  The handlers' theorems are proved against
    [TodoStoreSpec] only; [AbstractStore] (here) and the SQLite table of
    Sqlite.v discharge it. *)

From S2P Require Import Prelude Todo.

Class TodoStore (S : Type) := {
  store_all : S → list Todo.t;
  store_get : string → S → option Todo.t;
  store_insert : Todo.t → S → option S;
  store_delete : string → S → S;
}.

(** The contract.  [store_wf] is the store's own invariant; [store_view]
    its abstraction. *)
Class TodoStoreSpec (S : Type) `{!TodoStore S} := {
  store_wf : S → Prop;
  store_view : S → gmap string string;
  store_all_view s :
    store_wf s → list_to_map (Todo.to_pair <$> store_all s) = store_view s;
  store_all_nodup s :
    store_wf s → NoDup (Todo.id <$> store_all s);
  store_get_view k s :
    store_wf s → store_get k s = Todo.mk k <$> store_view s !! k;
  store_insert_fresh t s :
    store_wf s → store_view s !! Todo.id t = None →
    ∃ s', store_insert t s = Some s' ∧ store_wf s' ∧
          store_view s' = <[Todo.id t := Todo.value t]> (store_view s);
  store_insert_dup t s :
    store_wf s → is_Some (store_view s !! Todo.id t) → store_insert t s = None;
  store_delete_wf k s :
    store_wf s → store_wf (store_delete k s);
  store_delete_view k s :
    store_wf s → store_view (store_delete k s) = delete k (store_view s);
}.

Arguments store_wf {_ _ _} _.
Arguments store_view {_ _ _} _.

(** ** Consequences of the contract, shared by every client *)

Section StoreFacts.
Context {St : Type} `{TodoStoreSpec St}.
Implicit Types (s : St) (t : Todo.t).

(** A row is listed exactly when the view maps its key to its value. *)
Lemma store_all_elem s t :
  store_wf s → t ∈ store_all s ↔ store_view s !! Todo.id t = Some (Todo.value t).
Proof.
  intros Hwf. rewrite <-store_all_view by done.
  rewrite <-elem_of_list_to_map by (rewrite Todo.to_pair_fst; by apply store_all_nodup).
  split.
  - intros Ht. apply list_elem_of_fmap. by exists t.
  - intros ([? ?] & Heq & Hin)%list_elem_of_fmap.
    destruct t. unfold Todo.to_pair in Heq. simpl in *. by simplify_eq.
Qed.

(** The listed rows are the view's bindings, in some order. *)
Lemma store_all_perm s :
  store_wf s → Todo.to_pair <$> store_all s ≡ₚ map_to_list (store_view s).
Proof.
  intros Hwf. rewrite <-store_all_view by done. symmetry.
  apply map_to_list_to_map. rewrite Todo.to_pair_fst. by apply store_all_nodup.
Qed.

Lemma store_insert_None_iff t s :
  store_wf s → store_insert t s = None ↔ is_Some (store_view s !! Todo.id t).
Proof.
  intros Hwf. split; [|by apply store_insert_dup].
  intros Hnone. destruct (store_view s !! Todo.id t) eqn:E; [done|].
  destruct (store_insert_fresh t s Hwf E) as (s' & Hs' & _). congruence.
Qed.

Lemma store_insert_Some t s s' :
  store_wf s → store_insert t s = Some s' →
  store_view s !! Todo.id t = None ∧ store_wf s' ∧
  store_view s' = <[Todo.id t := Todo.value t]> (store_view s).
Proof.
  intros Hwf Hins. destruct (store_view s !! Todo.id t) eqn:E.
  - rewrite store_insert_dup in Hins by (done || by eexists). done.
  - destruct (store_insert_fresh t s Hwf E) as (s'' & Hs'' & ? & ?).
    rewrite Hins in Hs''. by simplify_eq.
Qed.

Lemma store_get_after_insert t s s' :
  store_wf s → store_insert t s = Some s' → store_get (Todo.id t) s' = Some t.
Proof.
  intros Hwf Hins. destruct (store_insert_Some t s s' Hwf Hins) as (_ & Hwf' & Hv).
  rewrite store_get_view, Hv, lookup_insert_eq by done. by destruct t.
Qed.
End StoreFacts.

#[export] Hint Resolve store_delete_wf : todo.

(** ** The abstract store: the table as a map from key to value *)

Module AbstractStore.

Abbreviation table := (gmap string string).

#[export] Instance abs_store : TodoStore table := {
  store_all m := (λ kv, Todo.mk kv.1 kv.2) <$> map_to_list m;
  store_get k m := Todo.mk k <$> m !! k;
  store_insert t m :=
    match m !! Todo.id t with
    | Some _ => None
    | None => Some (<[Todo.id t := Todo.value t]> m)
    end;
  store_delete k m := delete k m;
}.

Lemma abs_all_pairs (m : table) :
  Todo.to_pair <$> store_all m = map_to_list m.
Proof.
  simpl. rewrite <-list_fmap_compose.
  rewrite <-(list_fmap_id (map_to_list m)) at 2.
  apply list_fmap_ext. by intros ? [].
Qed.

#[export, refine] Instance abs_store_spec : TodoStoreSpec table := {
  store_wf _ := True;
  store_view m := m;
}.
Proof.
  - intros s _. by rewrite abs_all_pairs, list_to_map_to_list.
  - intros s _. simpl. rewrite <-list_fmap_compose.
    apply NoDup_fst_map_to_list.
  - done.
  - intros t s _ Hn. simpl. rewrite Hn. by eexists.
  - intros t s _ [v Hv]. simpl. by rewrite Hv.
  - done.
  - done.
Defined.
End AbstractStore.

(** ** Two stores with the same view list the same rows *)

Section TwoStores.
Context {S1 S2 : Type} `{TodoStoreSpec S1} `{TodoStoreSpec S2}.

Lemma store_all_same_view (s1 : S1) (s2 : S2) :
  store_wf s1 → store_wf s2 → store_view s1 = store_view s2 →
  store_all s1 ≡ₚ store_all s2.
Proof.
  intros Hwf1 Hwf2 Hv. apply NoDup_Permutation.
  - apply (NoDup_fmap_1 Todo.id). by apply store_all_nodup.
  - apply (NoDup_fmap_1 Todo.id). by apply store_all_nodup.
  - intros t. by rewrite !store_all_elem, Hv.
Qed.
End TwoStores.

#[export] Existing Instance AbstractStore.abs_store.
#[export] Existing Instance AbstractStore.abs_store_spec.
