(* ===== verification/Sqlite.v ===== *)
(** * Sqlite: the [todo] table in the file [todo.db]

    src/backend/main.py, lines 26-29 and the statements of lines 38, 57-59,
    64 and 69-70.  The table [todo(id VARCHAR PRIMARY KEY, value VARCHAR)]
    is a rowid table: its rows are kept here as a list in rowid order,
    which is the order of a full table scan ([SELECT todo.id, todo.value
    FROM todo], the statement [session.query(Todo).all()] issues).  A new
    row receives rowid [max(rowid) + 1], so an insert appends; a delete
    removes rows in place.  The [PRIMARY KEY] constraint is what makes an
    [INSERT] of an existing key fail with [IntegrityError].

    [create_all] models [Base.metadata.create_all(db)] at start-up: the
    table is created empty when the file has none, and kept as it is
    otherwise.  The instances at the end discharge the [TodoStoreSpec]
    contract of Store.v, the table's view being the map it denotes. *)

From S2P Require Import Prelude Todo Store.

Module Sqlite.

Abbreviation table := (list Todo.t).

(** [Base.metadata.create_all(db)]: [CREATE TABLE todo] unless the
    database file already holds it. *)
Definition create_all (file : option table) : table :=
  match file with
  | Some rows => rows
  | None => []
  end.

(** [SELECT todo.id, todo.value FROM todo]: a scan in rowid order. *)
Definition select_all (tbl : table) : list Todo.t := tbl.

(** [SELECT ... FROM todo WHERE todo.id = ?] (the reload of an expired
    instance by primary key). *)
Definition select_by_id (k : string) (tbl : table) : option Todo.t :=
  find (λ r, bool_decide (Todo.id r = k)) tbl.

(** [INSERT INTO todo (id, value) VALUES (?, ?)]: rejected by the primary
    key's uniqueness ([None]: [IntegrityError]), else appended with the
    next rowid. *)
Definition insert (t : Todo.t) (tbl : table) : option table :=
  if existsb (λ r, bool_decide (Todo.id r = Todo.id t)) tbl then None
  else Some (tbl ++ [t]).

(** [DELETE FROM todo WHERE todo.id = ?]. *)
Definition delete_where (k : string) (tbl : table) : table :=
  filter (λ r, Todo.id r ≠ k) tbl.

(** The primary key constraint: no two rows share an [id]. *)
Definition wf (tbl : table) : Prop := NoDup (Todo.id <$> tbl).

(** The abstraction: the map from primary key to value. *)
Definition view (tbl : table) : gmap string string :=
  list_to_map (Todo.to_pair <$> tbl).

#[export] Instance wf_dec tbl : Decision (wf tbl).
Proof. unfold wf. apply _. Defined.

(** ** The statements against the view *)

Lemma view_cons r tbl : view (r :: tbl) = <[Todo.id r := Todo.value r]> (view tbl).
Proof. done. Qed.

Lemma select_by_id_view k tbl : select_by_id k tbl = Todo.mk k <$> view tbl !! k.
Proof.
  unfold select_by_id. induction tbl as [|[i v] tbl IH]; [done|].
  rewrite view_cons. simpl. rewrite lookup_insert.
  case_bool_decide; case_decide; simplify_eq; done.
Qed.

Lemma key_taken_view k tbl :
  existsb (λ r, bool_decide (Todo.id r = k)) tbl = true ↔ is_Some (view tbl !! k).
Proof.
  induction tbl as [|r tbl IH]; simpl.
  - split; [done|]. unfold view. rewrite fmap_nil, list_to_map_nil, lookup_empty. by intros [].
  - rewrite view_cons, orb_true_iff, IH, bool_decide_eq_true, lookup_insert.
    case_decide; split; intros; simplify_eq; try by eauto.
    destruct_or!; naive_solver.
Qed.

Lemma not_key_view k tbl : k ∉ Todo.id <$> tbl ↔ view tbl !! k = None.
Proof. by rewrite <-Todo.to_pair_fst, not_elem_of_list_to_map. Qed.

Lemma insert_fresh_view t tbl :
  wf tbl → view tbl !! Todo.id t = None →
  insert t tbl = Some (tbl ++ [t]) ∧ wf (tbl ++ [t]) ∧
  view (tbl ++ [t]) = <[Todo.id t := Todo.value t]> (view tbl).
Proof.
  intros Hwf Hk. unfold insert.
  assert (existsb (λ r, bool_decide (Todo.id r = Todo.id t)) tbl = false) as ->.
  { apply not_true_iff_false. rewrite key_taken_view, Hk. by intros []. }
  apply not_key_view in Hk. split_and!; [done| |].
  - unfold wf. rewrite fmap_app. apply NoDup_app. split_and!; [done| |].
    + intros x Hx ->%list_elem_of_singleton. done.
    + apply NoDup_singleton.
  - unfold view. rewrite fmap_app. apply list_to_map_snoc. by rewrite Todo.to_pair_fst.
Qed.

Lemma delete_where_view k tbl : view (delete_where k tbl) = delete k (view tbl).
Proof.
  unfold view, delete_where. rewrite <-list_to_map_filter_key. f_equal.
  apply fmap_filter_comm. intros ?. reflexivity.
Qed.

Lemma delete_where_wf k tbl : wf tbl → wf (delete_where k tbl).
Proof.
  unfold wf, delete_where. rewrite <-!Todo.to_pair_fst.
  assert (Todo.to_pair <$> filter (λ r, Todo.id r ≠ k) tbl
          = filter (λ p, p.1 ≠ k) (Todo.to_pair <$> tbl)) as ->
    by (apply fmap_filter_comm; intros ?; reflexivity).
  apply NoDup_fst_filter.
Qed.

#[export] Instance sqlite_store : TodoStore table := {
  store_all := select_all;
  store_get := select_by_id;
  store_insert := insert;
  store_delete := delete_where;
}.

#[export, refine] Instance sqlite_store_spec : TodoStoreSpec table := {
  store_wf := wf;
  store_view := view;
}.
Proof.
  - done.
  - done.
  - intros k s _. apply select_by_id_view.
  - intros t s Hwf Hk. eexists. apply (insert_fresh_view t s Hwf Hk).
  - intros t s _ Hk. simpl. unfold insert.
    by rewrite (proj2 (key_taken_view (Todo.id t) s) Hk).
  - intros k s. apply delete_where_wf.
  - intros k s _. apply delete_where_view.
Defined.

End Sqlite.

#[export] Existing Instance Sqlite.sqlite_store.
#[export] Existing Instance Sqlite.sqlite_store_spec.
