(* ===== verification/Rowid.v ===== *)
(** * Rowid: the rowids SQLite gives the rows of [todo]

    [todo] is a rowid table: each row has a 64-bit integer key, the rowid,
    and a scan ([session.query(Todo).all()], line 38) returns the rows in
    rowid order.  The [INSERT] of lines 57-59 gives no rowid, so SQLite's
    [OP_NewRowid] chooses one: the largest rowid plus one (1 in an empty
    table) while the largest is below [MAX_ROWID = 2^63 - 1]; once it has
    reached [MAX_ROWID], up to 100 random candidates
    [(v & (MAX_ROWID >> 1)) + 1] from 64-bit draws [v] of
    [sqlite3_randomness], the first one unused is taken, and the statement
    fails with [SQLITE_FULL] when all are used.  The new rowid is chosen
    before the constraints are checked.

    [Module Rowid] keeps the rows with their rowids.  The draws are an
    input of [insert], as the outcome of a statement is an input of the
    handlers.  The theorems show that rowids stay ordered and within
    [1 .. MAX_ROWID], that while the largest rowid is below [MAX_ROWID]
    forgetting the rowids gives Sqlite.v's list model exactly (an insert
    appends), that the largest rowid never exceeds the number of inserts,
    so the list model is exact for the first [2^63 - 2] inserts, and that
    past that point every new row is listed before the row of rowid
    [MAX_ROWID], where the list model appends it, and that an [INSERT]
    fails with [SQLITE_FULL] exactly when the random search finds no
    free rowid, whatever the key of the row ([insert_full]). *)

From stdpp Require Import sorting.
From S2P Require Import Prelude Todo Sqlite.

Module Rowid.

Definition MAX_ROWID : Z := 9223372036854775807.

(** Rows with their rowids, in rowid order (the table's B-tree). *)
Abbreviation table := (list (Z * Todo.t)).

(** [sqlite3BtreeLast]: the largest rowid, 0 in an empty table. *)
Definition last_rowid (tbl : table) : Z := default 0%Z (fst <$> last tbl).

(** One random candidate: [v &= (MAX_ROWID>>1); v++]. *)
Definition candidate (v : Z) : Z := (Z.land v (Z.shiftr MAX_ROWID 1) + 1)%Z.

(** The random search: the first of at most 100 candidates that no row
    uses. *)
Definition random_rowid (tbl : table) (draws : list Z) : option Z :=
  head (filter (λ r, r ∉ tbl.*1) (candidate <$> take 100 draws)).

(** [OP_NewRowid] *)
Definition new_rowid (tbl : table) (draws : list Z) : option Z :=
  if bool_decide (last_rowid tbl < MAX_ROWID)%Z then Some (last_rowid tbl + 1)%Z
  else random_rowid tbl draws.

(** A row placed at its rowid in the B-tree. *)
Fixpoint insert_row (row : Z * Todo.t) (tbl : table) : table :=
  match tbl with
  | [] => [row]
  | r :: rest => if bool_decide (row.1 < r.1)%Z then row :: tbl else r :: insert_row row rest
  end.

Inductive insert_result :=
  | Inserted (tbl : table)
  | Conflict     (** [IntegrityError]: the primary key is taken *)
  | Full.        (** [SQLITE_FULL], an [OperationalError] *)

(** [INSERT INTO todo (id, value) VALUES (?, ?)]: a new rowid, then the
    primary key check. *)
Definition insert (draws : list Z) (t : Todo.t) (tbl : table) : insert_result :=
  match new_rowid tbl draws with
  | None => Full
  | Some r =>
      if existsb (λ row, bool_decide (Todo.id row.2 = Todo.id t)) tbl then Conflict
      else Inserted (insert_row (r, t) tbl)
  end.

(** [DELETE FROM todo WHERE todo.id = ?] *)
Definition delete_where (k : string) (tbl : table) : table :=
  filter (λ row, Todo.id row.2 ≠ k) tbl.

(** [SELECT todo.id, todo.value FROM todo]: the rows in rowid order. *)
Definition select_all (tbl : table) : list Todo.t := snd <$> tbl.

(** The rowids increase along the table and lie in [1 .. MAX_ROWID]. *)
Definition rowids_ok (tbl : table) : Prop :=
  StronglySorted (λ a b, a.1 < b.1)%Z tbl ∧ Forall (λ r, 1 ≤ r.1 ≤ MAX_ROWID)%Z tbl.

(** A sequence of the statements that change the table. *)
Inductive op :=
  | OInsert (draws : list Z) (t : Todo.t)
  | ODelete (k : string).

Definition apply_op (tbl : table) (o : op) : table :=
  match o with
  | OInsert draws t => match insert draws t tbl with Inserted tbl' => tbl' | _ => tbl end
  | ODelete k => delete_where k tbl
  end.

(** The same statements on Sqlite.v's list model. *)
Definition apply_list_op (tbl : Sqlite.table) (o : op) : Sqlite.table :=
  match o with
  | OInsert _ t => default tbl (Sqlite.insert t tbl)
  | ODelete k => Sqlite.delete_where k tbl
  end.

Definition is_insert (o : op) : bool :=
  match o with OInsert _ _ => true | ODelete _ => false end.

(** The number of [INSERT]s of a sequence. *)
Definition inserts (ops : list op) : nat := length (filter (λ o, is_insert o = true) ops).

(** The table after a sequence of statements from the empty table of
    [create_all], with and without rowids. *)
Definition run (ops : list op) : table := foldl apply_op [] ops.
Definition run_list (ops : list op) : Sqlite.table := foldl apply_list_op [] ops.

(** ** Candidates and the largest rowid *)

Lemma candidate_range v : (1 ≤ candidate v ≤ 2 ^ 62)%Z.
Proof.
  unfold candidate. change (Z.shiftr MAX_ROWID 1) with (Z.ones 62).
  rewrite Z.land_ones by lia. pose proof (Z.mod_pos_bound v (2 ^ 62)). lia.
Qed.

Lemma random_rowid_spec tbl draws r :
  random_rowid tbl draws = Some r → (r ∉ tbl.*1) ∧ ((1 ≤ r ≤ 2 ^ 62)%Z).
Proof.
  unfold random_rowid. intros Hr%head_Some_elem_of.
  apply list_elem_of_filter in Hr as [Hnot Hin].
  apply list_elem_of_fmap in Hin as (v & -> & _). split; [done|apply candidate_range].
Qed.

Lemma last_rowid_cons r rest :
  last_rowid (r :: rest) = match rest with [] => r.1 | _ => last_rowid rest end.
Proof. by destruct rest. Qed.

(** In a table in rowid order the last rowid is the largest. *)
Lemma sorted_le_last tbl :
  StronglySorted (λ a b, a.1 < b.1)%Z tbl → Forall (λ r, r.1 ≤ last_rowid tbl)%Z tbl.
Proof.
  induction 1 as [|r rest Hs IH Hr]; [done|].
  rewrite last_rowid_cons. destruct rest as [|x xs]; [constructor; [lia|done]|].
  constructor; [|done]. apply Forall_cons in Hr as [Hx _]. apply Forall_cons in IH as [Hl _]. lia.
Qed.

(** A bound on every rowid bounds the largest one. *)
Lemma last_rowid_le tbl (n : Z) :
  (0 ≤ n)%Z → Forall (λ r, r.1 ≤ n)%Z tbl → (last_rowid tbl ≤ n)%Z.
Proof.
  intros Hn Hall. unfold last_rowid. destruct (last tbl) as [x|] eqn:Hl; simpl; [|done].
  apply last_Some_elem_of in Hl. rewrite Forall_forall in Hall. by apply Hall.
Qed.

Lemma last_rowid_nonneg tbl :
  Forall (λ r, 1 ≤ r.1 ≤ MAX_ROWID)%Z tbl → (0 ≤ last_rowid tbl ≤ MAX_ROWID)%Z.
Proof.
  intros Hall. unfold last_rowid. destruct (last tbl) as [x|] eqn:Hl; simpl; [|done].
  apply last_Some_elem_of in Hl. rewrite Forall_forall in Hall. specialize (Hall x Hl). lia.
Qed.

(** ** Placing a row in the B-tree *)

Lemma insert_row_perm row tbl : insert_row row tbl ≡ₚ row :: tbl.
Proof.
  induction tbl as [|r rest IH]; simpl; [done|]. case_bool_decide; [done|].
  rewrite IH. by constructor.
Qed.

Lemma Forall_insert_row (P : Z * Todo.t → Prop) row tbl :
  P row → Forall P tbl → Forall P (insert_row row tbl).
Proof. intros ? ?. rewrite (insert_row_perm row tbl). by constructor. Qed.

(** A rowid above all others is placed last. *)
Lemma insert_row_app row tbl :
  Forall (λ r, r.1 < row.1)%Z tbl → insert_row row tbl = tbl ++ [row].
Proof.
  induction tbl as [|r rest IH]; simpl; [done|].
  intros [Hr Hrest]%Forall_cons. rewrite bool_decide_false by lia. by rewrite IH.
Qed.

Lemma insert_row_sorted row tbl :
  row.1 ∉ tbl.*1 → StronglySorted (λ a b, a.1 < b.1)%Z tbl →
  StronglySorted (λ a b, a.1 < b.1)%Z (insert_row row tbl).
Proof.
  intros Hnot Hs. induction Hs as [|r rest Hs IH Hr]; simpl; [by repeat constructor|].
  rewrite fmap_cons, not_elem_of_cons in Hnot. destruct Hnot as [Hne Hnot].
  case_bool_decide as Hlt.
  - constructor; [by constructor|]. constructor; [done|].
    eapply Forall_impl; [exact Hr|]. simpl. lia.
  - constructor; [by apply IH|]. apply Forall_insert_row; [simpl; lia|done].
Qed.

Lemma StronglySorted_filter {A} (R : relation A) (P : A → Prop) `{∀ x, Decision (P x)} l :
  StronglySorted R l → StronglySorted R (filter P l).
Proof.
  induction 1 as [|x l Hs IH Hx]; [constructor|]. rewrite filter_cons.
  case_decide; [|done]. constructor; [done|]. by apply Forall_filter_sub.
Qed.

(** ** The invariant *)

Lemma new_rowid_spec tbl draws r :
  rowids_ok tbl → new_rowid tbl draws = Some r →
  (r ∉ tbl.*1) ∧ ((1 ≤ r ≤ MAX_ROWID)%Z).
Proof.
  intros [Hs Hrange] Hr. unfold new_rowid in Hr. case_bool_decide as Hlt.
  - injection Hr as <-. pose proof (last_rowid_nonneg tbl Hrange).
    split; [|lia]. intros (x & Hx & Hin)%list_elem_of_fmap.
    pose proof (sorted_le_last tbl Hs) as Hle. rewrite Forall_forall in Hle.
    specialize (Hle x Hin). lia.
  - apply random_rowid_spec in Hr as [? ?]. split; [done|]. unfold MAX_ROWID. lia.
Qed.

Lemma insert_rowids_ok draws t tbl tbl' :
  rowids_ok tbl → insert draws t tbl = Inserted tbl' → rowids_ok tbl'.
Proof.
  intros Hok Hins. unfold insert in Hins.
  destruct (new_rowid tbl draws) as [r|] eqn:Hr; [|done].
  destruct (existsb _ tbl); [done|]. injection Hins as <-.
  destruct (new_rowid_spec tbl draws r Hok Hr) as [Hnot Hrange].
  destruct Hok as [Hs Hall]. split.
  - by apply insert_row_sorted.
  - by apply Forall_insert_row.
Qed.

Lemma apply_op_rowids_ok tbl o : rowids_ok tbl → rowids_ok (apply_op tbl o).
Proof.
  intros Hok. destruct o as [draws t|k]; simpl.
  - destruct (insert draws t tbl) eqn:Hins; [|done|done]. by eapply insert_rowids_ok.
  - destruct Hok as [Hs Hall]. split; [by apply StronglySorted_filter|by apply Forall_filter_sub].
Qed.

(** ** Rowids against the list model *)

Lemma existsb_select_all (f : Todo.t → bool) tbl :
  existsb f (select_all tbl) = existsb (λ row, f row.2) tbl.
Proof. induction tbl as [|row tbl IH]; simpl; [done|]. by rewrite IH. Qed.

(** While the largest rowid is below [MAX_ROWID], each statement acts on
    the rows as on Sqlite.v's list: an insert appends. *)
Lemma apply_op_refines tbl o :
  rowids_ok tbl → (last_rowid tbl < MAX_ROWID)%Z →
  select_all (apply_op tbl o) = apply_list_op (select_all tbl) o.
Proof.
  intros [Hs Hrange] Hlt. destruct o as [draws t|k]; simpl.
  - unfold insert, new_rowid, Sqlite.insert. rewrite bool_decide_true by done.
    rewrite existsb_select_all. destruct (existsb _ tbl); [done|]. simpl.
    rewrite insert_row_app; [by unfold select_all; rewrite fmap_app|].
    eapply Forall_impl; [by apply sorted_le_last|]. simpl. lia.
  - unfold delete_where, Sqlite.delete_where, select_all.
    apply fmap_filter_comm. done.
Qed.

Lemma new_rowid_le tbl draws r (n : Z) :
  rowids_ok tbl → Forall (λ x, x.1 ≤ n)%Z tbl → (0 ≤ n)%Z →
  new_rowid tbl draws = Some r → (r ≤ n + 1)%Z.
Proof.
  intros [Hs Hrange] Hn Hpos Hr. pose proof (last_rowid_le tbl n Hpos Hn).
  unfold new_rowid in Hr. case_bool_decide as Hlt.
  - injection Hr as <-. lia.
  - apply random_rowid_spec in Hr as [_ ?]. unfold MAX_ROWID in *. lia.
Qed.

Lemma run_snoc ops o : run (ops ++ [o]) = apply_op (run ops) o.
Proof. unfold run. by rewrite foldl_app. Qed.

Lemma run_list_snoc ops o : run_list (ops ++ [o]) = apply_list_op (run_list ops) o.
Proof. unfold run_list. by rewrite foldl_app. Qed.

Lemma inserts_snoc ops o :
  inserts (ops ++ [o]) = (inserts ops + if is_insert o then 1 else 0)%nat.
Proof. unfold inserts. rewrite filter_app, length_app. by destruct o. Qed.

(** The invariant along a sequence of statements from the empty table. *)
Lemma run_invariant ops :
  rowids_ok (run ops) ∧ Forall (λ r, r.1 ≤ Z.of_nat (inserts ops))%Z (run ops).
Proof.
  induction ops as [|o ops IH] using rev_ind.
  { split; [split|]; constructor. }
  destruct IH as [Hok Hle]. rewrite run_snoc, inserts_snoc.
  split; [by apply apply_op_rowids_ok|].
  destruct o as [draws t|k]; simpl.
  - destruct (insert draws t (run ops)) as [tbl'| |] eqn:Hins; simpl;
      [|eapply Forall_impl; [exact Hle|]; simpl; lia..].
    unfold insert in Hins. destruct (new_rowid _ _) as [r|] eqn:Hr; [|done].
    destruct (existsb _ _); [done|]. injection Hins as <-.
    pose proof (new_rowid_le _ _ _ _ Hok Hle ltac:(lia) Hr).
    apply Forall_insert_row; [simpl; lia|]. eapply Forall_impl; [exact Hle|]. simpl. lia.
  - rewrite Nat.add_0_r. by apply Forall_filter_sub.
Qed.

(** C25: From the empty table, the rowids SQLite assigns increase along
    the table and each lies between 1 and the smaller of the number of
    [INSERT]s executed and [MAX_ROWID]. *)
Theorem run_rowid_bound ops :
  StronglySorted (λ a b, a.1 < b.1)%Z (run ops) ∧
  Forall (λ r, 1 ≤ r.1 ≤ Z.min (Z.of_nat (inserts ops)) MAX_ROWID)%Z (run ops).
Proof.
  destruct (run_invariant ops) as [[Hs Hrange] Hle]. split; [done|].
  apply Forall_forall. intros r Hr.
  rewrite Forall_forall in Hrange, Hle. specialize (Hrange r Hr). specialize (Hle r Hr). lia.
Qed.

(** C26: as long as fewer than [2^63 - 1] rows have been
    inserted, the rows in rowid order are exactly Sqlite.v's list model:
    every insert appends. *)
Theorem run_refines_list ops :
  (Z.of_nat (inserts ops) < MAX_ROWID)%Z → select_all (run ops) = run_list ops.
Proof.
  induction ops as [|o ops IH] using rev_ind; [done|].
  rewrite inserts_snoc, run_snoc, run_list_snoc. intros Hlt.
  assert (Z.of_nat (inserts ops) < MAX_ROWID)%Z by (destruct (is_insert o); lia).
  destruct (run_invariant ops) as [Hok Hle].
  rewrite apply_op_refines; [by rewrite IH|done|].
  apply (Z.le_lt_trans _ (Z.of_nat (inserts ops))); [|done].
  apply last_rowid_le; [lia|exact Hle].
Qed.

(** ** Past [MAX_ROWID] *)

(** [insert_row] places the row after the rows of smaller or equal
    rowid that lead the table. *)
Lemma insert_row_split row tbl :
  ∃ pre post, tbl = pre ++ post ∧ insert_row row tbl = pre ++ row :: post ∧
              Forall (λ r, r.1 ≤ row.1)%Z pre.
Proof.
  induction tbl as [|r rest (pre & post & -> & Hins & Hpre)]; simpl.
  - by exists [], [].
  - case_bool_decide as Hlt; [by exists [], (r :: pre ++ post)|].
    exists (r :: pre), post. rewrite Hins. split_and!; [done|done|].
    constructor; [simpl; lia|done].
Qed.

Lemma last_rowid_max_elem tbl :
  last_rowid tbl = MAX_ROWID → ∃ x, x ∈ tbl ∧ x.1 = MAX_ROWID.
Proof.
  unfold last_rowid. destruct (last tbl) as [x|] eqn:Hl; simpl; [|done].
  intros Hx. exists x. split; [by apply last_Some_elem_of|done].
Qed.

(** C27: Once the largest rowid is [MAX_ROWID], a row that [INSERT]
    adds is not placed last: a [SELECT] lists it among the older rows,
    before the row of rowid [MAX_ROWID], while the list model of Sqlite.v
    appends it. *)
Theorem overflow_reorders draws t tbl tbl' :
  rowids_ok tbl → last_rowid tbl = MAX_ROWID → insert draws t tbl = Inserted tbl' →
  Sqlite.insert t (select_all tbl) = Some (select_all tbl ++ [t]) ∧
  ∃ pre post, select_all tbl = pre ++ post ∧ post ≠ [] ∧ select_all tbl' = pre ++ t :: post.
Proof.
  intros Hok Hmax Hins. unfold insert in Hins.
  destruct (new_rowid tbl draws) as [r|] eqn:Hr; [|done].
  destruct (existsb _ tbl) eqn:Hex; [done|]. injection Hins as <-.
  split.
  { unfold Sqlite.insert. rewrite existsb_select_all, Hex. done. }
  assert (r ≤ 2 ^ 62)%Z as Hle.
  { unfold new_rowid in Hr. rewrite Hmax, bool_decide_false in Hr by lia.
    apply random_rowid_spec in Hr as [_ ?]; lia. }
  destruct (insert_row_split (r, t) tbl) as (pre & post & -> & -> & Hpre).
  destruct (last_rowid_max_elem _ Hmax) as (x & Hx & Hx1).
  exists (snd <$> pre), (snd <$> post). unfold select_all.
  rewrite !fmap_app, fmap_cons. split_and!; [done| |done].
  intros ?%fmap_nil_inv. subst post. rewrite app_nil_r in Hx.
  rewrite Forall_forall in Hpre. specialize (Hpre x Hx). simpl in Hpre.
  unfold MAX_ROWID in *. lia.
Qed.

(** ** When no rowid is left *)

(** The random search finds nothing exactly when every candidate is
    taken. *)
Lemma random_rowid_None tbl draws :
  random_rowid tbl draws = None ↔ Forall (λ r, r ∈ tbl.*1) (candidate <$> take 100 draws).
Proof.
  unfold random_rowid. induction (candidate <$> take 100 draws) as [|r rs IH]; [done|].
  rewrite filter_cons, Forall_cons. case_decide as Hr; simpl; [naive_solver|].
  rewrite IH. naive_solver.
Qed.

(** C36: An [INSERT] fails with [SQLITE_FULL] exactly when the largest
    rowid is [MAX_ROWID] and all the random candidates are taken; the
    rowid is chosen before the primary key is checked, so it then fails
    whatever its key, a key the table already holds included. *)
Theorem insert_full draws t tbl :
  rowids_ok tbl →
  insert draws t tbl = Full ↔
  last_rowid tbl = MAX_ROWID ∧ Forall (λ r, r ∈ tbl.*1) (candidate <$> take 100 draws).
Proof.
  intros [_ Hr]. pose proof (last_rowid_nonneg tbl Hr). rewrite <-random_rowid_None.
  unfold insert, new_rowid. case_bool_decide as Hlt.
  - split; [by destruct (existsb _ _)|lia].
  - destruct (random_rowid tbl draws); [|split; [intros _; split; [lia|done]|done]].
    split; [by destruct (existsb _ _)|by intros [_ ?]].
Qed.

End Rowid.
