(* ===== verification/Handlers.v ===== *)
(** * Handlers: the Flask view functions of src/backend/main.py

    [test] (lines 31-33), [get_todos] (35-39), [create_todo] (41-64) and
    [delete_todo] (66-72), written against the [TodoStore] interface of
    Store.v so that their theorems hold for every store that meets
    [TodoStoreSpec].

    Effects are explicit: a handler takes the store and returns its
    response with the store after the request.  Each SQL statement a
    handler issues may also fail with an [OperationalError] (a locked or
    unreadable database file); the handler takes one [io_outcome] per
    statement, and a failed statement is rolled back when the
    [with Session(db)] block exits.  Such an exception is not caught in the
    source and becomes Flask's 500 response.

    [request_json] models the [request.json] read of line 43 (Flask
    and Werkzeug 2.3 or later): a body whose Content-Type is not JSON is
    refused with 415, a JSON body that does not decode with 400
    [BadRequest]; only a decoded body reaches the checks of the source.

    The one output of a view besides its response is the [print(e)] of
    line 61: [create_todo_stdout] is what [create_todo] writes to
    standard output on the same inputs. *)

From S2P Require Import Prelude Text Json Todo Store.

(** The request body as Flask sees it. *)
Inductive http_body :=
  | BodyJson (decoded : option json)  (** [Content-Type: application/json];
                                          [None] when the bytes do not decode *)
  | BodyOther.                        (** any other Content-Type *)

(** A response body: a [jsonify]'d value, the error page of a Werkzeug
    [HTTPException] or of an unhandled exception, or no body (the answer
    to [HEAD] and Flask's automatic [OPTIONS] answer). *)
Inductive payload :=
  | PJson (j : json)
  | PError (name : string)
  | PEmpty.

Record response := mk_response { status : Z; body : payload }.

(** Whether the storage engine completes a statement or raises. *)
Inductive io_outcome := IoOk | IoFail.

Definition jsonify (j : json) (code : Z) : response := mk_response code (PJson j).

Definition internal_server_error : response := mk_response 500 (PError "InternalServerError").
Definition invalid_body : response := jsonify (JStr "Invalid body") 400.
Definition already_exist : response := jsonify (JStr "Already exist") 409.
Definition deleted : response := jsonify (JStr "Deleted") 200.

(** [request.json] *)
Definition request_json (b : http_body) : response + json :=
  match b with
  | BodyOther => inl (mk_response 415 (PError "UnsupportedMediaType"))
  | BodyJson None => inl (mk_response 400 (PError "BadRequest"))
  | BodyJson (Some j) => inr j
  end.

(** Werkzeug's [Request.mimetype]: [parse_options_header] keeps the
    [Content-Type] header up to its first [;], stripped, and the property
    lower-cases it; a request without the header has the empty mimetype. *)
Definition mimetype (content_type : option string) : string :=
  match content_type with
  | None => ""
  | Some ct => lower (strip (before_char ";" ct))
  end.

(** [Request.is_json] *)
Definition is_json (mt : string) : bool :=
  bool_decide (mt = "application/json") ||
  (startswith mt "application/" && endswith mt "+json").

(** The body [request.json] sees, from the [Content-Type] header and the
    result of [json.loads] on the bytes ([None] when they do not decode):
    [get_json] reads the bytes only when [is_json] holds. *)
Definition body_of (content_type : option string) (decoded : option json) : http_body :=
  if is_json (mimetype content_type) then BodyJson decoded else BodyOther.

(** Lines 44-53: the checks on the decoded body, [None] for each
    [return jsonify("Invalid body"), 400]; on success the arguments of
    [Todo(id=id, value=value)]. *)
Definition parse_body (body : json) : option Todo.t :=
  if is_none body then None else
  match py_getitem body "id" with
  | inl _ => None
  | inr id =>
      match py_getitem body "value" with
      | inl _ => None
      | inr value =>
          if is_none id || is_none value || negb (is_str id) || negb (is_str value)
          then None
          else match as_str id, as_str value with
               | Some i, Some v => Some (Todo.mk i v)
               | _, _ => None
               end
      end
  end.

(** A line [create_todo] writes to standard output: [print(e)] (line 61)
    of the [IntegrityError] of the [INSERT], whose text names the
    violated constraint ([UNIQUE constraint failed: todo.id]) and the
    parameters of the statement, the posted row. *)
Inductive log_line := IntegrityErrorLine (params : Todo.t).

Section Handlers.
Context `{TodoStore St}.

(** [@app.route("/test")] *)
Definition test : response := jsonify (JStr "Working") 200.

(** [@app.route("/todo")]: one [SELECT]; the rows are serialized after
    the session closes, from the attributes already loaded. *)
Definition get_todos (io : io_outcome) (s : St) : response * St :=
  match io with
  | IoFail => (internal_server_error, s)
  | IoOk => (jsonify (JArr (Todo.serialize <$> store_all s)) 200, s)
  end.

(** [@app.route("/todo", methods=["POST"])].  After [session.commit()]
    the instance [new_todo] is expired (SQLAlchemy's default
    [expire_on_commit]), so [new_todo.serialize] reloads the row by its
    key: a second statement ([io_reload]), which raises
    [ObjectDeletedError] if the row is gone. *)
Definition create_todo (b : http_body) (io_commit io_reload : io_outcome) (s : St)
    : response * St :=
  match request_json b with
  | inl err => (err, s)
  | inr body =>
      match parse_body body with
      | None => (invalid_body, s)
      | Some new_todo =>
          match io_commit with
          | IoFail => (internal_server_error, s)
          | IoOk =>
              match store_insert new_todo s with
              | None => (already_exist, s)
              | Some s' =>
                  match io_reload with
                  | IoFail => (internal_server_error, s')
                  | IoOk =>
                      match store_get (Todo.id new_todo) s' with
                      | None => (internal_server_error, s')
                      | Some row => (jsonify (Todo.serialize row) 201, s')
                      end
                  end
              end
          end
      end
  end.

(** What [create_todo] prints, along the same path: only the [except
    IntegrityError as e] branch of lines 58-62 writes, before it answers
    409. *)
Definition create_todo_stdout (b : http_body) (io_commit : io_outcome) (s : St)
    : list log_line :=
  match request_json b with
  | inl _ => []
  | inr body =>
      match parse_body body with
      | None => []
      | Some new_todo =>
          match io_commit with
          | IoFail => []
          | IoOk =>
              match store_insert new_todo s with
              | None => [IntegrityErrorLine new_todo]
              | Some _ => []
              end
          end
      end
  end.

(** [@app.route("/todo/<id>", methods=["DELETE"])] *)
Definition delete_todo (id : string) (io : io_outcome) (s : St) : response * St :=
  match io with
  | IoFail => (internal_server_error, s)
  | IoOk => (deleted, store_delete id s)
  end.
End Handlers.

(** ** The Content-Type check of [request.json] *)

(** The media type ignores the letter case of the header and its
    parameters. *)
Lemma mimetype_upper_params mt params :
  has_char ";" mt = false →
  mimetype (Some (upper mt ++ String ";" params)%string) = mimetype (Some mt).
Proof.
  intros Hmt. simpl.
  rewrite before_char_app by (by rewrite has_char_semicolon_upper).
  rewrite before_char_plain by done.
  by rewrite strip_upper, lower_upper.
Qed.

(** C28: [request.json] treats a body the same whatever the case
    of its [Content-Type] and whatever parameters ([; charset=...]) follow
    the media type; it refuses with 415 exactly the media types other
    than [application/json] and [application/*+json]. *)
Theorem request_json_content_type mt params decoded :
  has_char ";" mt = false →
  request_json (body_of (Some (upper mt ++ String ";" params)%string) decoded) =
  request_json (body_of (Some mt) decoded) ∧
  (request_json (body_of (Some mt) decoded) = inl (mk_response 415 (PError "UnsupportedMediaType"))
   ↔ is_json (mimetype (Some mt)) = false).
Proof.
  intros Hmt. unfold body_of. rewrite mimetype_upper_params by done.
  split; [done|]. destruct (is_json _); [|done].
  split; [|done]. by destruct decoded.
Qed.

(** ** Validation of the body (lines 44-53) *)

(** C4: [parse_body] accepts exactly the JSON objects whose (last) members
    [id] and [value] are strings, and returns them as the new row. *)
Lemma parse_body_spec body t :
  parse_body body = Some t ↔
  ∃ kvs, body = JObj kvs ∧ dict_get kvs "id" = Some (JStr (Todo.id t)) ∧
         dict_get kvs "value" = Some (JStr (Todo.value t)).
Proof.
  destruct body as [| | | | | |kvs]; try (split; [done | naive_solver]).
  unfold parse_body, py_getitem; simpl. split.
  - intros Hp. exists kvs. split; [done|].
    destruct (dict_get kvs "id") as [j1|]; [|done].
    destruct (dict_get kvs "value") as [j2|]; [|done].
    destruct j1, j2; simpl in Hp; try done. by simplify_eq.
  - intros (? & [= <-] & -> & ->). simpl. by destruct t.
Qed.

(** Round trip: the object [serialize] produces passes the checks of
    [create_todo] and gives back the same row. *)
Lemma parse_body_serialize t : parse_body (Todo.serialize t) = Some t.
Proof. by destruct t. Qed.

Lemma parse_body_not_dict body :
  py_type_of body ≠ PyDict → parse_body body = None.
Proof.
  intros Hty. unfold parse_body.
  destruct (is_none body); [done|]. by rewrite py_getitem_not_dict.
Qed.

(** ** Behaviour of the handlers on any store meeting the contract *)

Section HandlerTheorems.
Context `{TodoStoreSpec St}.
Implicit Types (s : St) (t : Todo.t).

Lemma create_todo_json body io1 io2 s :
  create_todo (BodyJson (Some body)) io1 io2 s =
  match parse_body body with
  | None => (invalid_body, s)
  | Some t =>
      match io1 with
      | IoFail => (internal_server_error, s)
      | IoOk =>
          match store_insert t s with
          | None => (already_exist, s)
          | Some s' =>
              match io2 with
              | IoFail => (internal_server_error, s')
              | IoOk =>
                  match store_get (Todo.id t) s' with
                  | None => (internal_server_error, s')
                  | Some row => (jsonify (Todo.serialize row) 201, s')
                  end
              end
          end
      end
  end.
Proof. done. Qed.

(** C1: a valid body with a fresh key is stored and echoed with 201. *)
Theorem create_todo_created body t s :
  store_wf s → parse_body body = Some t → store_view s !! Todo.id t = None →
  ∃ s', create_todo (BodyJson (Some body)) IoOk IoOk s = (jsonify (Todo.serialize t) 201, s') ∧
        store_wf s' ∧ store_view s' = <[Todo.id t := Todo.value t]> (store_view s).
Proof.
  intros Hwf Hp Hk. rewrite create_todo_json, Hp.
  destruct (store_insert_fresh t s Hwf Hk) as (s' & Hins & Hwf' & Hv).
  rewrite Hins, (store_get_after_insert t s s' Hwf Hins). eauto.
Qed.

(** C2: A valid body whose key exists answers 409 and leaves the store as
    it was, whatever the reload would do. *)
Theorem create_todo_conflict body t s io2 :
  store_wf s → parse_body body = Some t → is_Some (store_view s !! Todo.id t) →
  create_todo (BodyJson (Some body)) IoOk io2 s = (jsonify (JStr "Already exist") 409, s).
Proof.
  intros Hwf Hp Hk. rewrite create_todo_json, Hp. by rewrite store_insert_dup.
Qed.

(** Every run of [create_todo] either leaves the store unchanged or
    performs exactly the insertion of the parsed row into a store
    without its key. *)
Lemma create_todo_effect b io1 io2 s :
  store_wf s →
  (create_todo b io1 io2 s).2 = s ∨
  ∃ body t, b = BodyJson (Some body) ∧ parse_body body = Some t ∧
            store_view s !! Todo.id t = None ∧
            store_insert t s = Some (create_todo b io1 io2 s).2.
Proof.
  intros Hwf. destruct b as [[body|]|]; [|by left..].
  rewrite create_todo_json.
  destruct (parse_body body) as [t|] eqn:Hp; [|by left].
  destruct io1; [|by left].
  destruct (store_insert t s) as [s'|] eqn:Hins; [|by left].
  right. exists body, t. split_and!; [done|done| |].
  - by apply (store_insert_Some t s s').
  - by destruct io2, (store_get (Todo.id t) s').
Qed.

Lemma create_todo_wf b io1 io2 s :
  store_wf s → store_wf (create_todo b io1 io2 s).2.
Proof.
  intros Hwf. destruct (create_todo_effect b io1 io2 s Hwf)
    as [-> | (body & t & _ & _ & _ & Hins)]; [done|].
  by apply (store_insert_Some t s _ Hwf Hins).
Qed.

(** C3: No request to [create_todo] changes or removes a stored row. *)
Theorem create_todo_keeps_rows b io1 io2 s k v :
  store_wf s → store_view s !! k = Some v →
  store_view (create_todo b io1 io2 s).2 !! k = Some v.
Proof.
  intros Hwf Hkv. destruct (create_todo_effect b io1 io2 s Hwf)
    as [-> | (body & t & _ & _ & Hfresh & Hins)]; [done|].
  destruct (store_insert_Some t s _ Hwf Hins) as (_ & _ & ->).
  rewrite lookup_insert_ne; [done|]. congruence.
Qed.

Lemma delete_todo_wf k io s :
  store_wf s → store_wf (delete_todo k io s).2.
Proof. destruct io; simpl; auto with todo. Qed.

(** C6: [delete_todo] answers 200 "Deleted" whether or not the key was
    present; afterwards the key is absent and every other row is as before. *)
Theorem delete_todo_spec k s :
  store_wf s →
  (delete_todo k IoOk s).1 = jsonify (JStr "Deleted") 200 ∧
  store_wf (delete_todo k IoOk s).2 ∧
  store_view (delete_todo k IoOk s).2 !! k = None ∧
  ∀ k', k' ≠ k → store_view (delete_todo k IoOk s).2 !! k' = store_view s !! k'.
Proof.
  intros Hwf. simpl. rewrite store_delete_view by done. split_and!; [done|auto with todo| |].
  - apply lookup_delete_eq.
  - intros k' Hk'. by apply lookup_delete_ne.
Qed.

(** C7: [get_todos] lists each stored row exactly once, as its serialized
    object, and nothing else. *)
Theorem get_todos_spec s :
  store_wf s →
  ∃ rows, get_todos IoOk s = (jsonify (JArr (Todo.serialize <$> rows)) 200, s) ∧
          NoDup (Todo.id <$> rows) ∧
          ∀ t, t ∈ rows ↔ store_view s !! Todo.id t = Some (Todo.value t).
Proof.
  intros Hwf. exists (store_all s). split_and!; [done| |].
  - by apply store_all_nodup.
  - intros t. by apply store_all_elem.
Qed.

(** C5: A decoded body is answered 400 "Invalid body" exactly when the
    checks of lines 44-53 reject it. *)
Theorem create_todo_invalid_iff body io1 io2 s :
  store_wf s →
  (create_todo (BodyJson (Some body)) io1 io2 s).1 = invalid_body ↔ parse_body body = None.
Proof.
  intros Hwf. rewrite create_todo_json.
  destruct (parse_body body) as [t|]; [|done]. split; [|done].
  destruct io1; [|done]. destruct (store_insert t s) as [s'|]; [|done].
  by destruct io2, (store_get (Todo.id t) s').
Qed.

(** C14: The response of a successful insert is computed by a second
    statement; when that reload fails the client gets 500 although the
    row is committed. *)
Theorem create_todo_reload_fault body t s :
  store_wf s → parse_body body = Some t → store_view s !! Todo.id t = None →
  ∃ s', create_todo (BodyJson (Some body)) IoOk IoFail s = (internal_server_error, s') ∧
        store_view s' !! Todo.id t = Some (Todo.value t).
Proof.
  intros Hwf Hp Hk. rewrite create_todo_json, Hp.
  destruct (store_insert_fresh t s Hwf Hk) as (s' & Hins & _ & Hv).
  rewrite Hins. exists s'. split; [done|]. by rewrite Hv, lookup_insert_eq.
Qed.

(** A failed first statement leaves the store as it was. *)
Lemma io_fail_rollback b k io2 s :
  (get_todos IoFail s).2 = s ∧ (delete_todo k IoFail s).2 = s ∧
  (create_todo b IoFail io2 s).2 = s.
Proof.
  split_and!; [done|done|]. destruct b as [[body|]|]; [|done..].
  rewrite create_todo_json. by destruct (parse_body body).
Qed.
(** C32: [create_todo] prints exactly when it answers 409 "Already
    exist": one [IntegrityError] line, for the posted row, whose key the
    table already holds, and the store is left as it was. *)
Theorem integrity_error_logged b io1 io2 s :
  store_wf s →
  (create_todo_stdout b io1 s ≠ [] ↔ (create_todo b io1 io2 s).1 = already_exist) ∧
  (create_todo_stdout b io1 s = [] ∨
   ∃ body t, b = BodyJson (Some body) ∧ parse_body body = Some t ∧
     create_todo_stdout b io1 s = [IntegrityErrorLine t] ∧
     is_Some (store_view s !! Todo.id t) ∧ (create_todo b io1 io2 s).2 = s).
Proof.
  intros Hwf. destruct b as [[body|]|]; [|split; [split; [done|by inversion 1]|by left]..].
  rewrite create_todo_json. unfold create_todo_stdout. simpl request_json. cbv iota.
  destruct (parse_body body) as [t|] eqn:Hp; [|split; [split; [done|by inversion 1]|by left]].
  destruct io1; [|split; [split; [done|by inversion 1]|by left]].
  destruct (store_insert t s) as [s'|] eqn:Hins.
  - split; [|by left]. split; [done|].
    by destruct io2; [destruct (store_get (Todo.id t) s')|]; inversion 1.
  - split; [done|]. right. exists body, t. split_and!; try done.
    by apply store_insert_None_iff.
Qed.
End HandlerTheorems.
