(* ===== verification/Router.v ===== *)
(** * Router: the URL rules of src/backend/main.py

    The decorators [@app.route(...)] of lines 31, 35, 41 and 66 register
    four Werkzeug rules: [/test] (GET), [/todo] (GET), [/todo] (POST) and
    [/todo/<id>] (DELETE).  Werkzeug matches the request path (already
    percent-decoded by the WSGI server, so [%2F] arrives as [/]) against
    the rules' segments; the default converter of [<id>] matches one or
    more characters other than [/].  A path no rule matches gives 404, a
    path some rule matches with a method none of its rules accepts gives
    405.  Flask adds [HEAD] to every [GET] rule and answers [OPTIONS]
    itself on every rule (its automatic options response, to which
    [flask_cors] adds its headers).

    [split_path] is [path.split('/')]; [match_path] the segment patterns;
    [route] the method dispatch.  [match_path_rules] shows that a path
    matches a rule exactly when it is the rule's string ([rule_string]),
    with the [<id>] of [/todo/<id>] non-empty and without slash. *)

From S2P Require Import Prelude Text.

Inductive method := GET | HEAD | POST | PUT | DELETE | PATCH | OPTIONS.

#[export] Instance method_eq_dec : EqDecision method.
Proof. solve_decision. Defined.

(** The view function a request is dispatched to. *)
Inductive endpoint :=
  | EpTest                     (** [test] *)
  | EpGetTodos                 (** [get_todos] *)
  | EpCreateTodo               (** [create_todo] *)
  | EpDeleteTodo (id : string) (** [delete_todo(id)] *)
  | EpAutoOptions.             (** Flask's automatic [OPTIONS] response *)

Inductive route_result :=
  | Route (e : endpoint)
  | NotFound
  | MethodNotAllowed.

#[export] Instance endpoint_eq_dec : EqDecision endpoint.
Proof. solve_decision. Defined.
#[export] Instance route_result_eq_dec : EqDecision route_result.
Proof. solve_decision. Defined.

(** [path.split('/')], one character at a time. *)
Fixpoint split_path (path : string) : list string :=
  match path with
  | EmptyString => [""]
  | String c rest =>
      match split_path rest with
      | seg :: segs =>
          if decide (c = "/"%char) then "" :: seg :: segs else String c seg :: segs
      | [] => [String c ""]
      end
  end.

(** The path patterns of the three rule strings. *)
Inductive rule_path := PTest | PTodo | PTodoItem (id : string).


Definition match_path (path : string) : option rule_path :=
  match split_path path with
  | [e; a] =>
      if decide (e = "" ∧ a = "test") then Some PTest
      else if decide (e = "" ∧ a = "todo") then Some PTodo
      else None
  | [e; a; id] =>
      if decide (e = "" ∧ a = "todo" ∧ id ≠ "") then Some (PTodoItem id) else None
  | _ => None
  end.

Definition route (m : method) (path : string) : route_result :=
  match match_path path with
  | None => NotFound
  | Some PTest =>
      match m with
      | GET | HEAD => Route EpTest
      | OPTIONS => Route EpAutoOptions
      | _ => MethodNotAllowed
      end
  | Some PTodo =>
      match m with
      | GET | HEAD => Route EpGetTodos
      | POST => Route EpCreateTodo
      | OPTIONS => Route EpAutoOptions
      | _ => MethodNotAllowed
      end
  | Some (PTodoItem id) =>
      match m with
      | DELETE => Route (EpDeleteTodo id)
      | OPTIONS => Route EpAutoOptions
      | _ => MethodNotAllowed
      end
  end.

(** ** Path splitting *)

Lemma split_path_nil path : split_path path ≠ [].
Proof.
  induction path as [|c rest IH]; simpl; [done|].
  destruct (split_path rest) as [|seg segs]; [done|]. by case_decide.
Qed.

(** No segment of a split path contains a slash. *)
Lemma split_path_no_slash path :
  Forall (λ seg, has_char "/" seg = false) (split_path path).
Proof.
  induction path as [|c rest IH]; simpl; [by repeat constructor|].
  destruct (split_path rest) as [|seg segs] eqn:E; [by destruct (split_path_nil rest)|].
  apply Forall_cons in IH as [Hseg Hsegs]. case_decide as Hc.
  - by repeat constructor.
  - constructor; [|done]. simpl. rewrite Hseg, orb_false_r.
    by apply bool_decide_eq_false.
Qed.

(** A segment without slash followed by ["/"] splits off as one segment. *)
Lemma split_path_app seg rest :
  has_char "/" seg = false →
  split_path (seg ++ String "/" rest) = seg :: split_path rest.
Proof.
  induction seg as [|c seg IH]; simpl.
  - intros _. destruct (split_path rest) eqn:E; [by destruct (split_path_nil rest)|].
    by rewrite ?decide_True.
  - intros [Hc Hseg]%orb_false_iff. rewrite IH by done.
    apply bool_decide_eq_false in Hc. by rewrite decide_False.
Qed.

Lemma split_path_plain seg : has_char "/" seg = false → split_path seg = [seg].
Proof.
  induction seg as [|c seg IH]; simpl; [done|].
  intros [Hc Hseg]%orb_false_iff. rewrite IH by done.
  apply bool_decide_eq_false in Hc. by rewrite decide_False.
Qed.

#[export] Hint Resolve split_path_app split_path_plain : todo.


(** ** Which ids a [DELETE] can name *)

(** A request is dispatched to [delete_todo(id)] only with a non-empty id
    without slash: the [<id>] converter's [[^/]+]. *)
Theorem route_delete_id m path id :
  route m path = Route (EpDeleteTodo id) → id ≠ "" ∧ has_char "/" id = false.
Proof.
  unfold route, match_path. intros Hr.
  pose proof (split_path_no_slash path) as Hns.
  destruct (split_path path) as [|e [|a [|i [|? ?]]]]; try done;
    repeat case_decide; destruct m; try done.
  destruct_and!. simplify_eq. split; [done|].
  by repeat apply Forall_cons in Hns as [? Hns].
Qed.

(** Conversely every such id is reached by [DELETE /todo/<id>]. *)
Theorem route_delete_reachable id :
  id ≠ "" → has_char "/" id = false →
  route DELETE ("/todo/" ++ id)%string = Route (EpDeleteTodo id).
Proof.
  intros Hne Hslash. unfold route, match_path.
  change ("/todo/" ++ id)%string with ("" ++ String "/" ("todo" ++ String "/" id))%string.
  rewrite !split_path_app, split_path_plain by done.
  by rewrite decide_True.
Qed.

(** ** The URL rules *)

