(* ===== verification/Server.v ===== *)
(** * Server: the application serving one request after another

    src/backend/main.py as a whole: Flask dispatches each request through
    the URL rules of Router.v to a view function of Handlers.v, and
    answers [HEAD] like [GET] without the body (line 74's [app.run] serves
    the requests).  This file models the processing of one request
    ([handle]), of a sequence of requests ([serve]), the transition
    relation they induce ([step]) and the states reachable from start-up
    ([reachable], from [Sqlite.create_all] of line 29).

    A request's [faults] list the outcome of each SQL statement the view
    issues, in order; a statement past the end of the list completes.  A
    fault-free request has [faults = []]. *)

From S2P Require Import Prelude Text Json Todo Store Sqlite Handlers Router.

Record request := mk_request {
  req_method : method;
  req_path : string;
  req_body : http_body;
}.

Definition stmt_io (faults : list io_outcome) (n : nat) : io_outcome :=
  default IoOk (faults !! n).

Definition not_found : response := mk_response 404 (PError "NotFound").
Definition method_not_allowed : response := mk_response 405 (PError "MethodNotAllowed").
Definition options_response : response := mk_response 200 PEmpty.

Section Server.
Context `{TodoStore St}.

(** Flask's [full_dispatch_request]: route, then call the view. *)
Definition dispatch (faults : list io_outcome) (req : request) (s : St) : response * St :=
  match route (req_method req) (req_path req) with
  | NotFound => (not_found, s)
  | MethodNotAllowed => (method_not_allowed, s)
  | Route EpTest => (test, s)
  | Route EpGetTodos => get_todos (stmt_io faults 0) s
  | Route EpCreateTodo => create_todo (req_body req) (stmt_io faults 0) (stmt_io faults 1) s
  | Route (EpDeleteTodo id) => delete_todo id (stmt_io faults 0) s
  | Route EpAutoOptions => (options_response, s)
  end.

(** The WSGI server drops the body of a [HEAD] response. *)
Definition handle (faults : list io_outcome) (req : request) (s : St) : response * St :=
  let '(r, s') := dispatch faults req s in
  (if decide (req_method req = HEAD) then mk_response (status r) PEmpty else r, s').

(** Requests served one after the other. *)
Fixpoint serve (s : St) (reqs : list (list io_outcome * request)) : list response * St :=
  match reqs with
  | [] => ([], s)
  | (faults, req) :: rest =>
      let '(r, s') := handle faults req s in
      let '(rs, s'') := serve s' rest in
      (r :: rs, s'')
  end.

Inductive step : St → request → response → St → Prop :=
  | step_handle faults req s :
      step s req (handle faults req s).1 (handle faults req s).2.

Inductive reachable (init : St → Prop) : St → Prop :=
  | reach_init s : init s → reachable init s
  | reach_step s req r s' : reachable init s → step s req r s' → reachable init s'.
End Server.

(** Start-up on the SQLite file: whatever table the file holds (a table
    SQLite wrote satisfies its primary key) or a fresh one. *)
Definition startup (tbl : Sqlite.table) : Prop :=
  ∃ file, option_Forall Sqlite.wf file ∧ tbl = Sqlite.create_all file.

(** ** The store invariant along every run *)

Section ServerTheorems.
Context `{TodoStoreSpec St}.
Implicit Types (s : St).

Lemma handle_state faults req s : (handle faults req s).2 = (dispatch faults req s).2.
Proof. unfold handle. by destruct (dispatch faults req s). Qed.

Lemma serve_cons s faults req rest :
  serve s ((faults, req) :: rest) =
  ((handle faults req s).1 :: (serve (handle faults req s).2 rest).1,
   (serve (handle faults req s).2 rest).2).
Proof. simpl. destruct (handle faults req s), (serve _ rest). done. Qed.

Lemma handle_wf faults req s : store_wf s → store_wf (handle faults req s).2.
Proof.
  intros Hwf. rewrite handle_state. unfold dispatch.
  destruct (route _ _) as [[]| |]; simpl; try done.
  - by destruct (stmt_io faults 0).
  - by apply create_todo_wf.
  - by apply delete_todo_wf.
Qed.

(** Every state reachable from well-formed initial states is well formed. *)
Theorem reachable_wf (init : St → Prop) s :
  (∀ s0, init s0 → store_wf s0) → reachable init s → store_wf s.
Proof.
  intros Hinit Hr. induction Hr as [s0 Hs0|s0 req r s' _ IH Hstep]; [auto|].
  inversion Hstep; subst. by apply handle_wf.
Qed.

(** What one request does to the table, as a map: nothing, the insertion
    of a fresh key by [POST /todo], or the deletion of the key a
    [DELETE] names. *)
Theorem handle_effect faults req s :
  store_wf s →
  let s' := (handle faults req s).2 in
  store_view s' = store_view s ∨
  (∃ t, route (req_method req) (req_path req) = Route EpCreateTodo ∧
        store_view s !! Todo.id t = None ∧
        store_view s' = <[Todo.id t := Todo.value t]> (store_view s)) ∨
  (∃ k, route (req_method req) (req_path req) = Route (EpDeleteTodo k) ∧
        store_view s' = delete k (store_view s)).
Proof.
  intros Hwf s'. subst s'. rewrite handle_state. unfold dispatch.
  destruct (route _ _) as [[]| |] eqn:Hr; simpl; try by left.
  - by destruct (stmt_io faults 0); left.
  - destruct (create_todo_effect (req_body req) (stmt_io faults 0) (stmt_io faults 1) s Hwf)
      as [-> | (body & t & _ & _ & Hk & Hins)]; [by left|].
    right; left. exists t. split_and!; [done|done|].
    by apply (store_insert_Some t s _ Hwf Hins).
  - destruct (stmt_io faults 0); [|by left].
    right; right. eexists. split; [done|]. by apply store_delete_view.
Qed.

(** C10: A row whose key is empty or contains a slash is never removed: no
    request path dispatches [delete_todo] with such a key, while
    [create_todo] accepts it. *)
Theorem serve_keeps_unroutable_rows s reqs k v :
  store_wf s → store_view s !! k = Some v → (k = "" ∨ has_char "/" k = true) →
  store_view (serve s reqs).2 !! k = Some v.
Proof.
  revert s. induction reqs as [|[faults req] rest IH]; intros s Hwf Hk Hbad; [done|].
  rewrite serve_cons. apply IH; [by apply handle_wf| |done].
  destruct (handle_effect faults req s Hwf) as [-> | [(t & _ & Hfresh & ->) | (k' & Hr & ->)]].
  - done.
  - rewrite lookup_insert_ne; [done|]. congruence.
  - apply route_delete_id in Hr as [Hne Hslash].
    rewrite lookup_delete_ne; [done|]. intros ->. destruct Hbad; congruence.
Qed.
(** A failed first statement is rolled back and no later statement runs. *)
Lemma handle_first_fault_state rest req s : (handle (IoFail :: rest) req s).2 = s.
Proof.
  rewrite handle_state. unfold dispatch. unfold stmt_io at 1 2 4; simpl.
  destruct (io_fail_rollback (req_body req) "" (stmt_io (IoFail :: rest) 1) s) as (Hg & _ & Hc).
  by destruct (route _ _) as [[]| |].
Qed.

(** Whether serving [req] runs an SQL statement: [get_todos] and
    [delete_todo] always do, [create_todo] once its body has passed
    [request.json] and the checks of lines 44-53. *)
Definition issues_statement (req : request) : bool :=
  match route (req_method req) (req_path req) with
  | Route EpGetTodos | Route (EpDeleteTodo _) => true
  | Route EpCreateTodo =>
      match request_json (req_body req) with
      | inr body => bool_decide (is_Some (parse_body body))
      | inl _ => false
      end
  | _ => false
  end.

(** C15: When the first SQL statement of a request fails, the table is
    left as it was (the failed statement is rolled back and no later
    statement runs).  A request that issues a statement ([GET /todo],
    [DELETE /todo/<id>], or a [POST /todo] whose body passes the checks)
    is answered with Flask's 500 page (its status alone for [HEAD]); any
    other request gets exactly the answer it gets without the fault. *)
Theorem first_fault_rollback rest req s :
  (handle (IoFail :: rest) req s).2 = s ∧
  (handle (IoFail :: rest) req s).1 =
    if issues_statement req then
      (if decide (req_method req = HEAD) then mk_response 500 PEmpty else internal_server_error)
    else (handle [] req s).1.
Proof.
  split; [apply handle_first_fault_state|]. unfold handle.
  assert ((dispatch (IoFail :: rest) req s).1 =
    if issues_statement req then internal_server_error else (dispatch [] req s).1) as Hd.
  { unfold dispatch, issues_statement, stmt_io. simpl.
    destruct (route _ _) as [[]| |]; simpl; try done.
    unfold create_todo. destruct (request_json _) as [|body]; [done|].
    by destruct (parse_body body). }
  destruct (dispatch (IoFail :: rest) req s) as [r s'], (dispatch [] req s) as [r0 s0].
  simpl in *. subst r. by destruct (issues_statement req).
Qed.

(** C34: Whatever the path, the body and the statement outcomes, a
    [HEAD] request is answered with the status of the same [GET]
    request, without body, and leaves the table as that [GET] does. *)
Theorem head_as_get faults path b s :
  handle faults (mk_request HEAD path b) s =
  (mk_response (status (handle faults (mk_request GET path b) s).1) PEmpty,
   (handle faults (mk_request GET path b) s).2).
Proof.
  unfold handle.
  assert (dispatch faults (mk_request HEAD path b) s = dispatch faults (mk_request GET path b) s)
    as -> by (unfold dispatch, route; simpl; by destruct (match_path path) as [[]|]).
  by destruct (dispatch _ _ _) as [r s'].
Qed.

(** C35: A request whose method is neither [POST] nor [DELETE] never
    changes the table, whatever its path, body and statement outcomes. *)
Theorem safe_methods_keep_table faults req s :
  req_method req ≠ POST → req_method req ≠ DELETE → (handle faults req s).2 = s.
Proof.
  intros Hp Hd. rewrite handle_state. destruct req as [m path b]. simpl in *.
  unfold dispatch, route. simpl.
  destruct (match_path path) as [[| |id]|], m; simpl; try done; by destruct (stmt_io faults 0).
Qed.
End ServerTheorems.

(** C9: The SQLite table the application starts from and every table it
    reaches satisfy the primary key constraint. *)
Corollary startup_reachable_wf tbl : reachable startup tbl → Sqlite.wf tbl.
Proof.
  intros Hr. change (store_wf tbl). apply (reachable_wf startup); [|done].
  intros ? (file & Hfile & ->). destruct file; simpl; [by inversion Hfile|].
  apply NoDup_nil_2.
Qed.
