(* ===== verification/Api.v ===== *)
(** * Api: the responses against the API table of the specification

    Section 6 of spec.md lists, for each endpoint, the statuses it answers
    with and the JSON shape of each body: [GET /test] 200 with a string,
    [GET /todo] 200 with an array of [{id, value}] objects, [POST /todo]
    201 with an [{id, value}] object or 400/409 with a string, and
    [DELETE /todo/<id>] 200 with a string.  This file writes that table
    ([api]) over the shapes of [shape], a type system for the JSON bodies
    ([has_shape]), and proves that every response [Server.handle] gives
    either is one of the table's rows for the endpoint the request was
    routed to, or is an answer of the framework itself: an error page of
    status 400, 404, 405, 415 or 500, or the empty body of a [HEAD] or
    [OPTIONS] answer. *)

From S2P Require Import Prelude Json Todo Store Handlers Router Server.

(** The JSON shapes of the table. *)
Inductive shape :=
  | SStr                 (** a string *)
  | STodo                (** an object with exactly the string members [id], [value] *)
  | SArr (sh : shape).   (** an array of values of one shape *)

Fixpoint has_shape (sh : shape) (j : json) : bool :=
  match sh, j with
  | SStr, JStr _ => true
  | STodo, JObj [(k1, v1); (k2, v2)] =>
      bool_decide ((k1, k2) = ("id", "value") ∨ (k1, k2) = ("value", "id"))%string
      && is_str v1 && is_str v2
  | SArr sh, JArr xs => forallb (has_shape sh) xs
  | _, _ => false
  end.

(** Section 6 of the specification: the statuses and bodies of each
    endpoint.  Flask's automatic [OPTIONS] answer has no JSON body. *)
Definition api (e : endpoint) : list (Z * shape) :=
  match e with
  | EpTest => [(200, SStr)]
  | EpGetTodos => [(200, SArr STodo)]
  | EpCreateTodo => [(201, STodo); (400, SStr); (409, SStr)]
  | EpDeleteTodo _ => [(200, SStr)]
  | EpAutoOptions => []
  end%Z.

(** The statuses of the error pages Flask and Werkzeug produce. *)
Definition framework_statuses : list Z := [400; 404; 405; 415; 500]%Z.

(** A response conforms for a request routed to [rr] with method [m]. *)
Definition conforms (rr : route_result) (m : method) (r : response) : bool :=
  match body r with
  | PJson j =>
      match rr with
      | Route e => existsb (λ row, bool_decide (row.1 = status r) && has_shape row.2 j) (api e)
      | _ => false
      end
  | PError _ => bool_decide (status r ∈ framework_statuses)
  | PEmpty => bool_decide (m = HEAD ∨ rr = Route EpAutoOptions)
  end.

(** ** Shapes of the handlers' bodies *)

Lemma has_shape_serialize t : has_shape STodo (Todo.serialize t) = true.
Proof. by destruct t. Qed.

Lemma has_shape_rows (rows : list Todo.t) :
  has_shape (SArr STodo) (JArr (Todo.serialize <$> rows)) = true.
Proof.
  change (forallb (has_shape STodo) (Todo.serialize <$> rows) = true).
  induction rows as [|t rows IH]; [done|]. rewrite fmap_cons. cbn [forallb].
  by rewrite has_shape_serialize, IH.
Qed.

#[export] Hint Resolve has_shape_serialize has_shape_rows : todo.

Section Conformance.
Context `{TodoStore St}.

Lemma create_todo_conforms m b io1 io2 (s : St) :
  conforms (Route EpCreateTodo) m (create_todo b io1 io2 s).1 = true.
Proof.
  unfold create_todo. destruct (request_json b) as [err|j] eqn:Hj.
  { destruct b as [[]|]; simplify_eq/=; reflexivity. }
  destruct (parse_body j); [|reflexivity]. destruct io1; [|reflexivity].
  destruct (store_insert _ _); [|reflexivity]. destruct io2; [|reflexivity].
  destruct (store_get _ _) as [row|]; [|reflexivity].
  unfold conforms, jsonify. cbn [body status api existsb fst snd].
  by rewrite has_shape_serialize.
Qed.

End Conformance.

(** C24: every response of the service is a row of the API table for
    the endpoint the request was routed to, with a body of the listed
    shape, or an error page or empty body of the framework. *)
Theorem handle_conforms `{TodoStore St} faults req (s : St) :
  conforms (route (req_method req) (req_path req)) (req_method req)
    (handle faults req s).1 = true.
Proof.
  unfold handle. case_decide as Hm.
  { destruct (dispatch faults req s) as [r s']. unfold conforms. simpl.
    by rewrite bool_decide_true by (left; done). }
  destruct (dispatch faults req s) as [r s'] eqn:Hd. simpl.
  unfold dispatch in Hd. destruct (route _ _) as [[]| |]; simplify_eq/=; try done.
  - destruct (stmt_io faults 0); simplify_eq/=; [|done].
    unfold conforms, jsonify. cbn [body status api existsb fst snd].
    by rewrite has_shape_rows.
  - pose proof (create_todo_conforms (req_method req) (req_body req)
      (stmt_io faults 0) (stmt_io faults 1) s) as Hc.
    by rewrite Hd in Hc.
  - by destruct (stmt_io faults 0); simplify_eq/=.
  - unfold conforms. simpl. by rewrite bool_decide_true by (right; done).
Qed.
