(* ===== verification/Wire.v ===== *)
(** * Wire: the requests and responses of the service as JSON text

    Handlers.v takes the body of a request as the value [json.loads] made
    of it ([body_of] gets the decoded value) and a response as the value
    passed to [jsonify].  This file joins both to the text of JsonText.v:
    [request_body] is what [request.json] (line 43 of src/backend/main.py)
    reads from the [Content-Type] header and the body text, and
    [response_text] the body text [jsonify] writes.  Every JSON body the
    service sends decodes back to the very value the view passed to
    [jsonify] ([response_bodies_roundtrip]), and a row the service lists,
    sent back as it was printed, is accepted as that row
    ([echo_row_accepted]). *)

From S2P Require Import Prelude Json Todo Store Handlers Router Server JsonText.

(** [request.json]: [get_json] reads the body only when [is_json] holds
    of the mimetype, and decodes it with [json.loads]. *)
Definition request_body (content_type : option string) (data : string) : http_body :=
  body_of content_type (loads data).

(** The body text of a response made by [jsonify]; the HTML error pages
    of Werkzeug are not modelled. *)
Definition response_text (r : response) : option string :=
  match body r with
  | PJson j => Some (jsonify_text j)
  | _ => None
  end.

(** ** The bodies of the views *)

Lemma textual_serialize t : textual (Todo.serialize t) = true.
Proof. by destruct t. Qed.

(** The members [id] and [value] are already in key order. *)
Lemma normalize_serialize t : normalize (Todo.serialize t) = Todo.serialize t.
Proof. by destruct t. Qed.

Lemma textual_rows (ts : list Todo.t) : textual (JArr (Todo.serialize <$> ts)) = true.
Proof.
  induction ts as [|t ts IH]; [done|]. cbn [textual fmap list_fmap forallb] in *.
  by rewrite textual_serialize, IH.
Qed.

Lemma normalize_rows (ts : list Todo.t) :
  normalize (JArr (Todo.serialize <$> ts)) = JArr (Todo.serialize <$> ts).
Proof.
  induction ts as [|t ts IH]; [done|]. cbn [normalize fmap list_fmap List.map] in *.
  rewrite normalize_serialize. by injection IH as ->.
Qed.

(** The bodies the views pass to [jsonify]: a message, one row, or the
    list of rows. *)
Inductive view_body : json → Prop :=
  | vb_message msg : view_body (JStr msg)
  | vb_row t : view_body (Todo.serialize t)
  | vb_rows ts : view_body (JArr (Todo.serialize <$> ts)).

Lemma view_body_roundtrip j : view_body j → textual j = true ∧ normalize j = j.
Proof.
  destruct 1; split; try done;
    auto using textual_serialize, normalize_serialize, textual_rows, normalize_rows.
Qed.

Section Wire.
Context `{TodoStore St}.

Lemma create_todo_bodies b io1 io2 (s : St) j :
  body (create_todo b io1 io2 s).1 = PJson j → view_body j.
Proof.
  unfold create_todo. destruct (request_json b) as [err|bj] eqn:Hj.
  { intros Hb. destruct b as [[]|]; simplify_eq/=. }
  destruct (parse_body bj); [|intros [= <-]; constructor].
  destruct io1; [|done]. destruct (store_insert _ _); [|intros [= <-]; constructor].
  destruct io2; [|done]. destruct (store_get _ _); [|done]. intros [= <-]. constructor.
Qed.

Lemma handle_bodies faults req (s : St) j :
  body (handle faults req s).1 = PJson j → view_body j.
Proof.
  unfold handle. destruct (dispatch faults req s) as [r s'] eqn:Hd. simpl.
  case_decide; [done|]. intros Hb. unfold dispatch in Hd.
  destruct (route _ _) as [[]| |]; simpl in Hd.
  - injection Hd as <- <-. injection Hb as <-. constructor.
  - destruct (stmt_io faults 0); injection Hd as <- <-; [injection Hb as <-; constructor|done].
  - apply (create_todo_bodies (req_body req) (stmt_io faults 0) (stmt_io faults 1) s).
    by rewrite Hd.
  - destruct (stmt_io faults 0); injection Hd as <- <-; [injection Hb as <-; constructor|done].
  - by injection Hd as <- <-.
  - by injection Hd as <- <-.
  - by injection Hd as <- <-.
Qed.
End Wire.

(** C31: every JSON body the service sends is read back by [json.loads]
    as exactly the value the view passed to [jsonify]. *)
Theorem response_bodies_roundtrip `{TodoStore St} faults req (s : St) j :
  body (handle faults req s).1 = PJson j →
  response_text (handle faults req s).1 = Some (jsonify_text j) ∧
  loads (jsonify_text j) = Some j.
Proof.
  intros Hb. unfold response_text. rewrite Hb. split; [done|].
  destruct (view_body_roundtrip j (handle_bodies faults req s j Hb)) as [Ht Hn].
  by rewrite loads_print, Hn.
Qed.

(** C13: A row the service lists, posted back with [Content-Type:
    application/json] in the text the service printed it in, is decoded
    by [request.json] and passes the checks of [create_todo] as that
    row. *)
Theorem echo_row_accepted t :
  request_json (request_body (Some "application/json") (jsonify_text (Todo.serialize t))) =
    inr (Todo.serialize t) ∧
  parse_body (Todo.serialize t) = Some t.
Proof.
  unfold request_body. rewrite loads_print, normalize_serialize by apply textual_serialize.
  split; [done|]. apply parse_body_serialize.
Qed.
