(* ===== verification/Cors.v ===== *)
(** * Cors: the headers [CORS(app)] adds to the responses

    Line 8 of src/backend/main.py, [CORS(app)], installs Flask-Cors with
    its default options: every path (resource [/*]), origins ['*'] read as
    the regular expression [.*], [send_wildcard=False],
    [always_send=True], [supports_credentials=False], [vary_header=True],
    [allow_headers='*'], [expose_headers=None], [max_age=None] and the
    methods [GET, HEAD, POST, OPTIONS, PUT, PATCH, DELETE], which
    [serialize_options] turns into the string
    ["DELETE, GET, HEAD, OPTIONS, PATCH, POST, PUT"].  Its
    [after_request] hook ([cors_after_request], [set_cors_headers],
    [get_cors_headers]) adds:
    - [Access-Control-Allow-Origin]: the request's [Origin] when it is a
      non-empty string (the regex [.*] matches it), otherwise ["*"];
    - for an [OPTIONS] request whose [Access-Control-Request-Method],
      upper-cased, is non-empty and occurs in the methods string (a
      substring test, as Python's [in] on a [str]):
      [Access-Control-Allow-Headers], the requested headers split at
      [,], stripped and sorted, joined by [", "], and
      [Access-Control-Allow-Methods], the methods string;
    - [Vary: Origin] when the origin sent back is not ["*"];
    headers whose value is empty or [None] are dropped.

    The hook runs for every response Flask finalizes: the views', the
    4xx pages of routing and [request.json], and the automatic [OPTIONS]
    answer.  It does not run for an unhandled exception: [app.run] sets
    [debug=True], so Flask's [handle_exception] re-raises it (the default
    of [PROPAGATE_EXCEPTIONS] in debug mode) and Werkzeug's debugger
    answers 500 without the hook.  In the model every 500 is such an
    exception. *)

From stdpp Require Import sorting.
From S2P Require Import Prelude Text Json Todo Store Handlers Router Server.

(** A request with the headers Flask-Cors reads. *)
Record cors_request := mk_cors_request {
  creq : request;
  origin : option string;        (** [Origin] *)
  acr_method : option string;    (** [Access-Control-Request-Method] *)
  acr_headers : option string;   (** [Access-Control-Request-Headers] *)
}.

(** A response with the headers added to it. *)
Record http_response := mk_http_response {
  resp : response;
  headers : list (string * string);
}.

Definition ACL_ORIGIN : string := "Access-Control-Allow-Origin".
Definition ACL_METHODS : string := "Access-Control-Allow-Methods".
Definition ACL_ALLOW_HEADERS : string := "Access-Control-Allow-Headers".

(** The default [methods], as [serialize_options] leaves them. *)
Definition cors_methods : string := "DELETE, GET, HEAD, OPTIONS, PATCH, POST, PUT".

(** [sub in s] for strings. *)
Fixpoint str_contains (sub s : string) : bool :=
  String.prefix sub s ||
  match s with
  | EmptyString => false
  | String _ rest => str_contains sub rest
  end.

(** [get_cors_origins] under the default options. *)
Definition cors_origin (o : option string) : string :=
  match o with
  | Some o => if bool_decide (o = "") then "*" else o
  | None => "*"
  end.

(** [get_allow_headers] with [allow_headers = ['.*']]: every requested
    header matches. *)
Definition allow_headers (h : option string) : string :=
  match h with
  | Some h =>
      if bool_decide (h = "") then ""
      else String.concat ", " (merge_sort String.le (strip <$> split_on "," h))
  | None => ""
  end.

(** [get_cors_headers], with the empty values filtered out. *)
Definition get_cors_headers (cr : cors_request) : list (string * string) :=
  let acao := cors_origin (origin cr) in
  let preflight :=
    if bool_decide (req_method (creq cr) = OPTIONS) then
      let rm := upper (default "" (acr_method cr)) in
      if bool_decide (rm ≠ "") && str_contains rm cors_methods then
        [(ACL_ALLOW_HEADERS, allow_headers (acr_headers cr)); (ACL_METHODS, cors_methods)]
      else []
    else [] in
  let vary := if bool_decide (acao = "*") then [] else [("Vary", "Origin")] in
  filter (λ kv, kv.2 ≠ "") ([(ACL_ORIGIN, acao)] ++ preflight ++ vary).

(** A response that comes from an unhandled exception. *)
Definition uncaught (r : response) : bool := bool_decide (status r = 500)%Z.

Section Cors.
Context `{TodoStore St}.

(** One request through the application with Flask-Cors installed. *)
Definition handle_cors (faults : list io_outcome) (cr : cors_request) (s : St)
    : http_response * St :=
  let '(r, s') := handle faults (creq cr) s in
  (mk_http_response r (if uncaught r then [] else get_cors_headers cr), s').
End Cors.

(** [resp.headers.get(k)]: the first value of a header. *)
Fixpoint header_get (k : string) (hs : list (string * string)) : option string :=
  match hs with
  | [] => None
  | (k', v) :: rest => if decide (k' = k) then Some v else header_get k rest
  end.

(** ** Lemmas *)

Lemma cors_origin_nonempty o : cors_origin o ≠ "".
Proof. destruct o as [o|]; simpl; [|done]. by case_decide. Qed.

Lemma cors_origin_permits o : cors_origin o = "*" ∨ Some (cors_origin o) = o.
Proof. destruct o as [o|]; simpl; [|by left]. case_decide; [by left|by right]. Qed.

Lemma get_cors_headers_origin cr :
  header_get ACL_ORIGIN (get_cors_headers cr) = Some (cors_origin (origin cr)).
Proof.
  unfold get_cors_headers. cbv zeta.
  rewrite filter_app, filter_cons_True by apply cors_origin_nonempty.
  done.
Qed.

(** A join with [", "] is empty only when every part is. *)
Lemma concat_comma_empty l : String.concat ", " l = "" → Forall (λ x, x = "") l.
Proof.
  induction l as [|x [|y l] IH]; simpl; [done|by intros ->; repeat constructor|].
  by destruct x.
Qed.

Lemma allow_headers_spec h :
  Exists (λ x, x ≠ "") (strip <$> split_on "," h) →
  ∃ l, allow_headers (Some h) = String.concat ", " l ∧ l ≡ₚ strip <$> split_on "," h ∧
       allow_headers (Some h) ≠ "".
Proof.
  intros Hne. unfold allow_headers. case_decide as Hh.
  { subst h. by apply Exists_cons in Hne as [? | ?%Exists_nil]. }
  eexists. split_and!; [done|apply merge_sort_Permutation|].
  intros Hc%concat_comma_empty.
  apply Exists_exists in Hne as (x & Hx & Hxne). apply Hxne.
  rewrite Forall_forall in Hc. apply Hc.
  by rewrite (merge_sort_Permutation String.le (strip <$> split_on "," h)).
Qed.

(** The methods the service routes are accepted by the preflight check. *)
Lemma cors_methods_contains m :
  m ∈ ["GET"; "HEAD"; "POST"; "DELETE"; "OPTIONS"] → str_contains m cors_methods = true.
Proof. intros Hm. repeat (apply list_elem_of_cons in Hm as [-> | Hm]; [reflexivity|]). set_solver. Qed.

Section CorsTheorems.
Context `{TodoStore St}.

Lemma handle_cors_spec faults cr (s : St) :
  handle_cors faults cr s =
  (mk_http_response (handle faults (creq cr) s).1
     (if uncaught (handle faults (creq cr) s).1 then [] else get_cors_headers cr),
   (handle faults (creq cr) s).2).
Proof. unfold handle_cors. by destruct (handle faults (creq cr) s). Qed.

(** C21: every response the application finalizes permits the
    requesting origin: it carries [Access-Control-Allow-Origin] with the
    request's [Origin] or ["*"]. *)
Theorem cors_allows_any_origin faults cr (s : St) :
  uncaught (handle faults (creq cr) s).1 = false →
  ∃ v, header_get ACL_ORIGIN (headers (handle_cors faults cr s).1) = Some v ∧
       (v = "*" ∨ Some v = origin cr).
Proof.
  intros Hu. rewrite handle_cors_spec. simpl. rewrite Hu, get_cors_headers_origin.
  eexists. split; [done|]. apply cors_origin_permits.
Qed.

(** C22: when the statement of [GET /todo] or of a [DELETE] fails, the
    500 answer of the debug server carries no CORS header, so a browser
    on another origin cannot read it. *)
Theorem storage_fault_no_cors faults cr (s : St) :
  (route (req_method (creq cr)) (req_path (creq cr)) = Route EpGetTodos ∨
   ∃ k, route (req_method (creq cr)) (req_path (creq cr)) = Route (EpDeleteTodo k)) →
  status (resp (handle_cors (IoFail :: faults) cr s).1) = 500%Z ∧
  header_get ACL_ORIGIN (headers (handle_cors (IoFail :: faults) cr s).1) = None.
Proof.
  intros Hr. rewrite handle_cors_spec.
  assert (status (handle (IoFail :: faults) (creq cr) s).1 = 500%Z) as Hs.
  { unfold handle, dispatch.
    destruct Hr as [-> | [k ->]]; simpl; by case_decide. }
  simpl. unfold uncaught. by rewrite Hs, bool_decide_true.
Qed.

(** C23: a preflight [OPTIONS] request on a path of the service,
    asking for one of its methods and for some headers, is answered 200
    with [Access-Control-Allow-Methods] listing every method and
    [Access-Control-Allow-Headers] listing exactly the requested headers
    (sorted), from any origin. *)
Theorem preflight_allows faults cr (s : St) m h :
  req_method (creq cr) = OPTIONS →
  route OPTIONS (req_path (creq cr)) = Route EpAutoOptions →
  acr_method cr = Some m → upper m ∈ ["GET"; "HEAD"; "POST"; "DELETE"; "OPTIONS"] →
  acr_headers cr = Some h → Exists (λ x, x ≠ "") (strip <$> split_on "," h) →
  status (resp (handle_cors faults cr s).1) = 200%Z ∧
  header_get ACL_METHODS (headers (handle_cors faults cr s).1) = Some cors_methods ∧
  ∃ l, header_get ACL_ALLOW_HEADERS (headers (handle_cors faults cr s).1) =
         Some (String.concat ", " l) ∧ l ≡ₚ strip <$> split_on "," h.
Proof.
  intros Hm Hr Hrm Hup Hh Hne.
  destruct (allow_headers_spec h Hne) as (l & Hl & Hperm & Hlne).
  assert ((handle faults (creq cr) s).1 = options_response) as Hopt.
  { unfold handle, dispatch. by rewrite Hm, Hr. }
  rewrite handle_cors_spec, Hopt. simpl. split; [done|].
  unfold get_cors_headers. rewrite Hm, Hrm, Hh. cbv zeta. simpl default.
  rewrite bool_decide_true by done. rewrite cors_methods_contains by done.
  rewrite bool_decide_true by (by intros Hc; rewrite Hc in Hup; set_solver).
  rewrite Hl in Hlne |- *. simpl andb.
  rewrite !filter_app, filter_cons_True by apply cors_origin_nonempty.
  rewrite filter_cons_True by done. rewrite filter_cons_True by done.
  split; [|exists l; split; [|done]]; simpl; by repeat case_decide.
Qed.
End CorsTheorems.
