(* ===== verification/Refinement.v ===== *)
(** * Refinement: the SQLite-backed service implements the abstract one

    The service's observable behaviour depends on the table only through
    its view, the map from key to value, except for the order in which
    [GET /todo] lists the rows (the order of a table scan).  Responses
    are therefore compared with [resp_equiv]: same status, same body up
    to a permutation of a listed array.  The main theorem,
    [handle_same_view], states that any two stores meeting the contract
    of Store.v with the same view answer every request equivalently and
    end with the same view; [serve_refines] instantiates it with
    the SQLite table and the abstract map over sequences of requests. *)

From S2P Require Import Prelude Json Todo Store Sqlite Handlers Router Server.

Inductive payload_equiv : payload → payload → Prop :=
  | peq_refl p : payload_equiv p p
  | peq_arr l1 l2 : l1 ≡ₚ l2 → payload_equiv (PJson (JArr l1)) (PJson (JArr l2)).

Definition resp_equiv (r1 r2 : response) : Prop :=
  status r1 = status r2 ∧ payload_equiv (body r1) (body r2).

Infix "≈ᵣ" := resp_equiv (at level 70) : todo_scope.
Notation "(≈ᵣ)" := resp_equiv (only parsing) : todo_scope.
Local Open Scope todo_scope.

#[export] Instance payload_equiv_equiv : Equivalence payload_equiv.
Proof.
  split.
  - intros p. constructor.
  - intros p q []; constructor. by symmetry.
  - intros p q r [|l1 l2 H12] Hqr; [done|].
    inversion Hqr; subst; constructor; [done|]. by etrans.
Qed.

#[export] Instance resp_equiv_equiv : Equivalence resp_equiv.
Proof.
  split.
  - intros r. split; reflexivity.
  - intros r1 r2 [H1 H2]. split; by symmetry.
  - intros r1 r2 r3 [H1 H2] [H3 H4]. split; by etrans.
Qed.

(** [HEAD] maps equivalent responses to equivalent responses. *)
#[export] Instance head_strip_proper (m : method) :
  Proper ((≈ᵣ) ==> (≈ᵣ))
    (λ r, if decide (m = HEAD) then mk_response (status r) PEmpty else r).
Proof. intros r1 r2 [Hs Hp]. case_decide; [|done]. split; [done|]. simpl. constructor. Qed.

Section SameView.
Context {S1 S2 : Type} `{TodoStoreSpec S1} `{TodoStoreSpec S2}.

Definition same_view (s1 : S1) (s2 : S2) : Prop :=
  store_wf s1 ∧ store_wf s2 ∧ store_view s1 = store_view s2.

Lemma get_todos_same_view io (s1 : S1) (s2 : S2) :
  same_view s1 s2 →
  (get_todos io s1).1 ≈ᵣ (get_todos io s2).1.
Proof.
  intros (Hwf1 & Hwf2 & Hv). destruct io; [|reflexivity].
  split; [done|]. simpl. constructor. apply fmap_Permutation.
  by apply store_all_same_view.
Qed.

Lemma create_todo_same_view b io1 io2 (s1 : S1) (s2 : S2) :
  same_view s1 s2 →
  (create_todo b io1 io2 s1).1 = (create_todo b io1 io2 s2).1 ∧
  same_view (create_todo b io1 io2 s1).2 (create_todo b io1 io2 s2).2.
Proof.
  intros (Hwf1 & Hwf2 & Hv). destruct b as [[body|]|]; [|done..].
  rewrite !create_todo_json.
  destruct (parse_body body) as [t|]; [|done]. destruct io1; [|done].
  destruct (store_view s1 !! Todo.id t) eqn:Hk.
  - rewrite !store_insert_dup by (done || rewrite <-?Hv; by eexists). done.
  - destruct (store_insert_fresh t s1 Hwf1 Hk) as (s1' & Hins1 & Hwf1' & Hv1).
    rewrite Hv in Hk.
    destruct (store_insert_fresh t s2 Hwf2 Hk) as (s2' & Hins2 & Hwf2' & Hv2).
    rewrite Hins1, Hins2.
    assert (same_view s1' s2') by (split_and!; [done|done|]; by rewrite Hv1, Hv2, Hv).
    destruct io2; [|done].
    by rewrite (store_get_after_insert t s1 s1'), (store_get_after_insert t s2 s2').
Qed.

Lemma delete_todo_same_view k io (s1 : S1) (s2 : S2) :
  same_view s1 s2 →
  (delete_todo k io s1).1 = (delete_todo k io s2).1 ∧
  same_view (delete_todo k io s1).2 (delete_todo k io s2).2.
Proof.
  intros (Hwf1 & Hwf2 & Hv). destruct io; simpl; [|done].
  split; [done|]. split_and!; [by apply store_delete_wf..|].
  by rewrite !store_delete_view, Hv by done.
Qed.

Lemma dispatch_same_view faults req (s1 : S1) (s2 : S2) :
  same_view s1 s2 →
  (dispatch faults req s1).1 ≈ᵣ (dispatch faults req s2).1 ∧
  same_view (dispatch faults req s1).2 (dispatch faults req s2).2.
Proof.
  intros Hsv. unfold dispatch.
  destruct (route _ _) as [[]| |]; simpl; try (split; [reflexivity|done]).
  - split; [by apply get_todos_same_view|]. by destruct (stmt_io faults 0).
  - destruct (create_todo_same_view (req_body req) (stmt_io faults 0) (stmt_io faults 1)
      s1 s2 Hsv) as [-> ?]. split; [reflexivity|done].
  - destruct (delete_todo_same_view id (stmt_io faults 0) s1 s2 Hsv) as [-> ?].
    split; [reflexivity|done].
Qed.

(** Two stores with the same view answer every request equivalently
    and keep the same view. *)
Theorem handle_same_view faults req (s1 : S1) (s2 : S2) :
  same_view s1 s2 →
  (handle faults req s1).1 ≈ᵣ (handle faults req s2).1 ∧
  same_view (handle faults req s1).2 (handle faults req s2).2.
Proof.
  intros Hsv. unfold handle.
  destruct (dispatch_same_view faults req s1 s2 Hsv) as [Hr Hs].
  destruct (dispatch faults req s1) as [r1 s1'], (dispatch faults req s2) as [r2 s2'].
  split; [|done]. by apply head_strip_proper.
Qed.

Lemma serve_same_view reqs (s1 : S1) (s2 : S2) :
  same_view s1 s2 →
  Forall2 (≈ᵣ) (serve s1 reqs).1 (serve s2 reqs).1 ∧
  same_view (serve s1 reqs).2 (serve s2 reqs).2.
Proof.
  revert s1 s2. induction reqs as [|[faults req] rest IH]; intros s1 s2 Hsv; [done|].
  rewrite !serve_cons. destruct (handle_same_view faults req s1 s2 Hsv) as [Hr Hs].
  destruct (IH _ _ Hs) as [Hrs Hs']. split; [by constructor|done].
Qed.
End SameView.

(** C8: The SQLite table refines the abstract map: serving any sequence of
    requests from a table with unique keys gives, request by request, the
    responses the abstract map gives (up to the order of listed rows), and
    ends in a table whose view is the abstract map's final state. *)
Theorem serve_refines (tbl : Sqlite.table) reqs :
  Sqlite.wf tbl →
  Forall2 resp_equiv (serve tbl reqs).1 (serve (Sqlite.view tbl) reqs).1 ∧
  Sqlite.view (serve tbl reqs).2 = (serve (Sqlite.view tbl) reqs).2.
Proof.
  intros Hwf.
  destruct (serve_same_view (S1:=Sqlite.table) (S2:=gmap string string) reqs tbl
              (Sqlite.view tbl)) as [Hr (_ & _ & Hv)]; [by split_and!|].
  split; [done|]. exact Hv.
Qed.
