(* ===== verification/Scenarios.v ===== *)
(** * Scenarios: request sequences on the SQLite table

    The behaviours §8 of the specification lists, stated on the
    application of Server.v running on the SQLite table of Sqlite.v,
    where the order of listed rows is the table's rowid order: a created
    row is listed last, a deleted row disappears and the others keep
    their order.  [spec_scenario] is the scenario of §8 from any table. *)

From S2P Require Import Prelude Text Json Todo Store Sqlite Handlers Router Server.

(** [POST /todo] with the JSON object of a row. *)
Definition post_todo (t : Todo.t) : request :=
  mk_request POST "/todo" (BodyJson (Some (Todo.serialize t))).

Definition get_todo : request := mk_request GET "/todo" BodyOther.

Definition delete_req (k : string) : request :=
  mk_request DELETE ("/todo/" ++ k)%string BodyOther.

Lemma route_post_todo : route POST "/todo" = Route EpCreateTodo.
Proof. reflexivity. Qed.

Lemma route_get_todo : route GET "/todo" = Route EpGetTodos.
Proof. reflexivity. Qed.

Lemma handle_get_todo (tbl : Sqlite.table) :
  handle [] get_todo tbl = (jsonify (JArr (Todo.serialize <$> tbl)) 200, tbl).
Proof. reflexivity. Qed.

Lemma handle_post_todo (tbl : Sqlite.table) t :
  Sqlite.wf tbl → Sqlite.view tbl !! Todo.id t = None →
  handle [] (post_todo t) tbl = (jsonify (Todo.serialize t) 201, tbl ++ [t]).
Proof.
  intros Hwf Hk. unfold handle, dispatch. simpl req_method. simpl req_path.
  rewrite route_post_todo. simpl req_body.
  destruct (Sqlite.insert_fresh_view t tbl Hwf Hk) as (Hins & Hwf' & _).
  assert (parse_body (Todo.serialize t) = Some t) as Hp by (by destruct t).
  unfold stmt_io. simpl. rewrite create_todo_json, Hp.
  change (store_insert t tbl) with (Sqlite.insert t tbl). rewrite Hins.
  change (store_get (Todo.id t) (tbl ++ [t])) with (store_get (Todo.id t) (tbl ++ [t])).
  rewrite (store_get_after_insert t tbl (tbl ++ [t])) by done. done.
Qed.

Lemma handle_delete_req (tbl : Sqlite.table) k :
  k ≠ "" → has_char "/" k = false →
  handle [] (delete_req k) tbl = (deleted, Sqlite.delete_where k tbl).
Proof.
  intros Hne Hslash. unfold handle, dispatch. simpl req_method. simpl req_path.
  by rewrite route_delete_reachable.
Qed.

Lemma delete_where_absent k (tbl : Sqlite.table) :
  k ∉ Todo.id <$> tbl → Sqlite.delete_where k tbl = tbl.
Proof.
  unfold Sqlite.delete_where. induction tbl as [|r tbl IH]; [done|].
  rewrite fmap_cons, not_elem_of_cons. intros [Hr Hk].
  rewrite filter_cons_True by done. by rewrite IH.
Qed.

(** C11: A row created with a fresh key is listed after the rows already
    there, with the value posted. *)
Theorem post_then_list (tbl : Sqlite.table) t :
  Sqlite.wf tbl → Sqlite.view tbl !! Todo.id t = None →
  serve tbl [([], post_todo t); ([], get_todo)] =
  ([jsonify (Todo.serialize t) 201; jsonify (JArr (Todo.serialize <$> tbl ++ [t])) 200],
   tbl ++ [t]).
Proof.
  intros Hwf Hk. rewrite !serve_cons, handle_post_todo by done. cbn [fst snd].
  by rewrite handle_get_todo.
Qed.

(** C12: Deleting a routable key removes exactly its row; the other rows are
    listed in their order. *)
Theorem delete_then_list (tbl : Sqlite.table) k :
  k ≠ "" → has_char "/" k = false →
  serve tbl [([], delete_req k); ([], get_todo)] =
  ([deleted; jsonify (JArr (Todo.serialize <$> Sqlite.delete_where k tbl)) 200],
   Sqlite.delete_where k tbl).
Proof.
  intros Hne Hslash. rewrite !serve_cons, handle_delete_req by done.
  cbn [fst snd]. by rewrite handle_get_todo.
Qed.

(** C16: The scenario of §8 from any table: posting a row with a fresh
    routable key, listing, deleting that key and listing again answers
    201 with the row, the table with the row last, "Deleted", and the
    table as it was; the table ends as it started. *)
Theorem spec_scenario (tbl : Sqlite.table) t :
  Sqlite.wf tbl → Sqlite.view tbl !! Todo.id t = None →
  Todo.id t ≠ "" → has_char "/" (Todo.id t) = false →
  serve tbl [([], post_todo t); ([], get_todo); ([], delete_req (Todo.id t)); ([], get_todo)] =
  ([jsonify (Todo.serialize t) 201; jsonify (JArr (Todo.serialize <$> tbl ++ [t])) 200;
    deleted; jsonify (JArr (Todo.serialize <$> tbl)) 200], tbl).
Proof.
  intros Hwf Hk Hne Hs.
  assert (Sqlite.delete_where (Todo.id t) (tbl ++ [t]) = tbl) as Hdel.
  { unfold Sqlite.delete_where. rewrite filter_app, filter_cons_False, filter_nil, app_nil_r
      by (intros Hc; by apply Hc).
    apply delete_where_absent. by apply Sqlite.not_key_view. }
  rewrite !serve_cons, handle_post_todo by done. cbn [fst snd]. rewrite handle_get_todo.
  cbn [fst snd]. rewrite handle_delete_req, Hdel by done. cbn [fst snd].
  by rewrite handle_get_todo.
Qed.

(** C29: Deleting a key no row has answers 200 "Deleted" and leaves the
    table, hence its row count, as it was (§8 of the spec). *)
Theorem delete_missing_keeps_table (tbl : Sqlite.table) k :
  k ≠ "" → has_char "/" k = false → k ∉ Todo.id <$> tbl →
  serve tbl [([], delete_req k)] = ([deleted], tbl).
Proof.
  intros Hne Hslash Hk. rewrite serve_cons, handle_delete_req by done.
  cbn [fst snd]. by rewrite delete_where_absent.
Qed.
