(* ===== verification/Concurrency.v ===== *)
(** * Concurrency: interleaved requests on the threaded server

    [app.run] (src/backend/main.py, line 74) starts Werkzeug's development
    server, which serves each request in its own thread.  The requests
    share only the SQLite table; SQLite runs each statement atomically.
    Every view issues one statement, except [create_todo] (lines 55-64),
    which commits the [INSERT] and later reloads the expired [new_todo]
    when [new_todo.serialize] reads its attributes: two statements with a
    window between them.

    A thread is [TStart req] before its first statement, [TReload t]
    between the commit of [t] and the reload, and [TDone r] once it has
    its response.  [cstep] executes the next statement of one thread;
    its reflexive-transitive closure gives every interleaving.  A
    statement may also fail ([tstep_start_fault], [tstep_reload_fault]):
    the thread then answers 500 and the table is as before.

    [single_thread_sequential] and [serial_schedule] check the split
    against the sequential [handle] and [serve];
    [reload_returns_posted_row] shows that without concurrent [DELETE]s
    the reload always finds the posted row; [delete_race] and
    [reload_reports_other_row] show, for any table and any pool of
    threads, what a [DELETE] (and a second [POST]) of the key scheduled
    in the window makes the reload answer; [duplicate_posts_one_wins]
    shows that two [POST]s of one key never both answer 201. *)

From S2P Require Import Prelude Text Json Todo Store Sqlite Handlers Router Server Scenarios.

Inductive thread :=
  | TStart (req : request)
  | TReload (t : Todo.t)
  | TDone (r : response).

Section Threads.
Context `{TodoStore St}.

(** The first statement of a request: [create_todo] up to its commit,
    every other view entirely. *)
Definition start_step (req : request) (s : St) : thread * St :=
  match route (req_method req) (req_path req) with
  | Route EpCreateTodo =>
      match request_json (req_body req) with
      | inl err => (TDone err, s)
      | inr body =>
          match parse_body body with
          | None => (TDone invalid_body, s)
          | Some t =>
              match store_insert t s with
              | None => (TDone already_exist, s)
              | Some s' => (TReload t, s')
              end
          end
      end
  | _ => (TDone (handle [] req s).1, (handle [] req s).2)
  end.

(** The reload by primary key behind [new_todo.serialize]. *)
Definition reload_step (t : Todo.t) (s : St) : response :=
  match store_get (Todo.id t) s with
  | None => internal_server_error
  | Some row => jsonify (Todo.serialize row) 201
  end.

(** One statement of one thread.  Each statement completes or raises an
    [OperationalError], which is rolled back and becomes Flask's 500: a
    failed first statement answers as [handle] does when its first
    statement fails, a failed reload answers 500 with the row committed. *)
Inductive tstep : thread → St → thread → St → Prop :=
  | tstep_start req s : tstep (TStart req) s (start_step req s).1 (start_step req s).2
  | tstep_start_fault req s :
      tstep (TStart req) s (TDone (handle [IoFail] req s).1) (handle [IoFail] req s).2
  | tstep_reload t s : tstep (TReload t) s (TDone (reload_step t s)) s
  | tstep_reload_fault t s : tstep (TReload t) s (TDone internal_server_error) s.

(** The server runs the next statement of any one of its threads. *)
Inductive cstep : St * list thread → St * list thread → Prop :=
  | cstep_thread i th th' s s' ths :
      ths !! i = Some th → tstep th s th' s' → cstep (s, ths) (s', <[i := th']> ths).

Lemma cstep_start i req s ths :
  ths !! i = Some (TStart req) →
  cstep (s, ths) ((start_step req s).2, <[i := (start_step req s).1]> ths).
Proof. intros Hi. eapply cstep_thread; [exact Hi|constructor]. Qed.

Lemma cstep_reload i t s ths :
  ths !! i = Some (TReload t) →
  cstep (s, ths) (s, <[i := TDone (reload_step t s)]> ths).
Proof. intros Hi. eapply cstep_thread; [exact Hi|constructor]. Qed.
End Threads.

(** ** The primary key along every interleaving *)

Section Wf.
Context `{TodoStoreSpec St}.

Lemma start_step_wf req (s : St) : store_wf s → store_wf (start_step req s).2.
Proof.
  intros Hwf. unfold start_step.
  destruct (route _ _) as [[]| |]; try by apply handle_wf.
  destruct (request_json _) as [|body]; [done|]. destruct (parse_body body) as [t|]; [|done].
  destruct (store_insert t s) as [s'|] eqn:Hins; [|done].
  by destruct (store_insert_Some t s s' Hwf Hins) as (_ & ? & _).
Qed.

Lemma tstep_wf th (s : St) th' s' : tstep th s th' s' → store_wf s → store_wf s'.
Proof. intros [| | |] Hwf; [by apply start_step_wf|by apply handle_wf|done|done]. Qed.

(** Whatever the interleaving and whichever statements fail, the
    table the threads share keeps its primary key: no two rows with one
    [id]. *)
Lemma cstep_store_wf c c' : rtc cstep c c' → store_wf c.1 → store_wf c'.1.
Proof.
  induction 1 as [|c1 c2 c3 Hs _ IH]; [done|]. intros Hwf. apply IH.
  destruct Hs as [i th th' s s' ths Hi Ht]. by eapply tstep_wf.
Qed.
End Wf.

(** ** Without concurrent deletes, the reload finds the posted row *)

(** A request that is not dispatched to [delete_todo]. *)
Definition no_delete_req (req : request) : Prop :=
  ∀ k, route (req_method req) (req_path req) ≠ Route (EpDeleteTodo k).

Definition thread_ok (th : thread) : Prop :=
  match th with TStart req => no_delete_req req | _ => True end.

Section NoDelete.
Context `{TodoStoreSpec St}.

(** Every thread between commit and reload finds its row in the table. *)
Definition cinv (c : St * list thread) : Prop :=
  store_wf c.1 ∧ Forall thread_ok c.2 ∧
  ∀ i t, c.2 !! i = Some (TReload t) → store_view c.1 !! Todo.id t = Some (Todo.value t).

(** Replacing thread [i] by a finished or reloading thread keeps the
    rows the other reloading threads expect, when the table only grew. *)
Lemma cinv_replace s s' ths i th :
  store_wf s' → Forall thread_ok ths → thread_ok th →
  (∀ j t, ths !! j = Some (TReload t) → store_view s !! Todo.id t = Some (Todo.value t)) →
  (∀ k v, store_view s !! k = Some v → store_view s' !! k = Some v) →
  (∀ t, th = TReload t → store_view s' !! Todo.id t = Some (Todo.value t)) →
  cinv (s', <[i := th]> ths).
Proof.
  intros Hwf Hok Hth Hre Hgrow Hnew. split_and!; [done|by apply Forall_insert|].
  intros j t. simpl. rewrite list_lookup_insert_Some.
  intros [(-> & Heq & _) | (_ & Hj)]; [by apply Hnew|]. by apply Hgrow, (Hre j).
Qed.

Lemma handle_no_create_grows req s :
  store_wf s → no_delete_req req → route (req_method req) (req_path req) ≠ Route EpCreateTodo →
  store_wf (handle [] req s).2 ∧
  ∀ k v, store_view s !! k = Some v → store_view (handle [] req s).2 !! k = Some v.
Proof.
  intros Hwf Hnd Hc. destruct (handle_effect [] req s Hwf)
    as [Hv | [(t & Hr & _) | (k & Hr & _)]]; [|done|by destruct (Hnd k)].
  split; [by apply handle_wf|]. by rewrite Hv.
Qed.

Lemma start_step_grows req s :
  store_wf s → no_delete_req req →
  store_wf (start_step req s).2 ∧
  (∀ k v, store_view s !! k = Some v → store_view (start_step req s).2 !! k = Some v) ∧
  (∀ t, (start_step req s).1 = TReload t →
        store_view (start_step req s).2 !! Todo.id t = Some (Todo.value t)).
Proof.
  intros Hwf Hnd. unfold start_step.
  destruct (route _ _) as [[]| |] eqn:Hr.
  3: {
    destruct (request_json (req_body req)) as [err|body]; [simpl; by eauto|].
    destruct (parse_body body) as [t|]; [|simpl; by eauto].
    destruct (store_insert t s) as [s'|] eqn:Hins; [|simpl; by eauto].
    destruct (store_insert_Some t s s' Hwf Hins) as (Hfresh & Hwf' & Hv).
    simpl. rewrite Hv. split_and!; [done| |].
    - intros k v Hk. rewrite lookup_insert_ne; [done|]. congruence.
    - intros ? [= <-]. by rewrite lookup_insert_eq. }
  all: cbn [fst snd]; destruct (handle_no_create_grows req s Hwf Hnd) as [? ?];
    [by rewrite Hr | split_and!; [done|done|by intros ? [=]]].
Qed.

Lemma cinv_step c c' : cinv c → cstep c c' → cinv c'.
Proof.
  intros (Hwf & Hok & Hre) Hstep.
  destruct Hstep as [i th th' s s' ths Hi Ht]; simpl in *.
  destruct Ht as [req s|req s|t s|t s].
  - assert (no_delete_req req) as Hnd
      by exact (Forall_lookup_1 _ _ _ _ Hok Hi).
    destruct (start_step_grows req s Hwf Hnd) as (Hwf' & Hgrow & Hnew).
    apply (cinv_replace s); [done|done| |done|done|done].
    unfold start_step; by repeat case_match.
  - rewrite handle_first_fault_state.
    apply (cinv_replace s); [done|done|done|done|done|by intros ? [=]].
  - apply (cinv_replace s); [done|done|done|done|done|by intros ? [=]].
  - apply (cinv_replace s); [done|done|done|done|done|by intros ? [=]].
Qed.

Lemma cinv_rtc c c' : cinv c → rtc cstep c c' → cinv c'.
Proof. intros Hc Hrtc. induction Hrtc; eauto using cinv_step. Qed.

(** C17: When no request of a run is a [DELETE], every [POST] that committed
    its row gets 201 with exactly the row it posted, whatever the
    interleaving. *)
Theorem reload_returns_posted_row s reqs s' ths i t :
  store_wf s → Forall no_delete_req reqs →
  rtc cstep (s, TStart <$> reqs) (s', ths) →
  ths !! i = Some (TReload t) →
  reload_step t s' = jsonify (Todo.serialize t) 201.
Proof.
  intros Hwf Hnd Hrtc Hi.
  assert (cinv (s, TStart <$> reqs)) as Hc.
  { split_and!; [done| |].
    - apply Forall_fmap. exact Hnd.
    - intros j t' Hj. simpl in Hj. by apply list_lookup_fmap_Some_1 in Hj as (? & ? & _). }
  destruct (cinv_rtc _ _ Hc Hrtc) as (Hwf' & _ & Hre). simpl in *.
  unfold reload_step. rewrite store_get_view, (Hre i t Hi) by done. by destruct t.
Qed.
End NoDelete.

(** ** One thread alone behaves as the sequential server *)

Lemma route_head_not_create path : route HEAD path ≠ Route EpCreateTodo.
Proof. unfold route. by destruct (match_path path) as [[]|]. Qed.

Section Alone.
Context `{TodoStore St}.

Lemma handle_create req (s : St) :
route (req_method req) (req_path req) = Route EpCreateTodo →
handle [] req s = create_todo (req_body req) IoOk IoOk s.
Proof.
intros Hc. unfold handle, dispatch. rewrite Hc.
destruct (create_todo _ _ _ _). case_decide as Hm; [|done].
rewrite Hm in Hc. by destruct (route_head_not_create (req_path req)).
Qed.

(** A thread that runs alone to completion takes the response and table
    of the sequential [handle]. *)
Lemma run_to_completion i req (s : St) ths :
  ths !! i = Some (TStart req) →
  rtc cstep (s, ths) ((handle [] req s).2, <[i := TDone (handle [] req s).1]> ths).
Proof.
  intros Hi. pose proof (lookup_lt_Some _ _ _ Hi) as Hlt.
  eapply rtc_l; [by apply (cstep_start i)|]. unfold start_step.
  destruct (route _ _) as [[]| |] eqn:Hr; try apply rtc_refl.
  rewrite handle_create by done. unfold create_todo.
  destruct (request_json _) as [err|body]; [apply rtc_refl|].
  destruct (parse_body body) as [t|]; [|apply rtc_refl].
  destruct (store_insert t s) as [s'|]; [|apply rtc_refl]. simpl.
  eapply rtc_l; [apply (cstep_reload i); by rewrite list_lookup_insert_eq|].
  rewrite list_insert_insert_eq.
  unfold reload_step. destruct (store_get _ _); apply rtc_refl.
Qed.

(** A request served alone runs to completion in the threaded model
  and ends with the response and table of the sequential [handle]. *)
Lemma single_thread_sequential req (s : St) :
rtc cstep (s, [TStart req]) ((handle [] req s).2, [TDone (handle [] req s).1]).
Proof. by apply (run_to_completion 0). Qed.
End Alone.

Section Serial.
Context `{TodoStoreSpec St}.

Lemma serial_schedule_from (fin : list response) reqs (s : St) :
  rtc cstep (s, (TDone <$> fin) ++ (TStart <$> reqs))
    ((serve s (pair [] <$> reqs)).2, (TDone <$> fin) ++ (TDone <$> (serve s (pair [] <$> reqs)).1)).
Proof.
  revert fin s. induction reqs as [|req reqs IH]; intros fin s; [apply rtc_refl|].
  rewrite !fmap_cons, serve_cons. simpl.
  eapply rtc_trans.
  { apply (run_to_completion (length (TDone <$> fin))).
    by rewrite lookup_app_r, Nat.sub_diag by lia. }
  rewrite <-(Nat.add_0_r (length (TDone <$> fin))), insert_app_r. simpl.
  specialize (IH (fin ++ [(handle [] req s).1]) (handle [] req s).2).
  by rewrite !fmap_app, <-!app_assoc in IH.
Qed.

(** The threaded server can serve its requests one after another:
    running each thread to completion in turn gives exactly the
    responses and the table of the sequential [serve]. *)
Lemma serial_schedule reqs (s : St) :
  rtc cstep (s, TStart <$> reqs)
    ((serve s (pair [] <$> reqs)).2, TDone <$> (serve s (pair [] <$> reqs)).1).
Proof. apply (serial_schedule_from []). Qed.
End Serial.

(** ** Two concurrent creates of the same key: exactly one wins *)

Section Duplicates.
Context `{TodoStoreSpec St}.

Lemma start_step_post_fresh t (s : St) :
  store_wf s → store_view s !! Todo.id t = None →
  ∃ s', start_step (post_todo t) s = (TReload t, s') ∧ store_wf s' ∧
        store_view s' = <[Todo.id t := Todo.value t]> (store_view s).
Proof.
  intros Hwf Hk. unfold start_step, post_todo. cbn [req_method req_path req_body].
  rewrite route_post_todo. cbn [request_json].
  assert (parse_body (Todo.serialize t) = Some t) as -> by (by destruct t).
  destruct (store_insert_fresh t s Hwf Hk) as (s' & -> & ? & ?). eauto.
Qed.

Lemma start_step_post_taken t (s : St) :
  store_wf s → is_Some (store_view s !! Todo.id t) →
  start_step (post_todo t) s = (TDone already_exist, s).
Proof.
  intros Hwf Hk. unfold start_step, post_todo. cbn [req_method req_path req_body].
  rewrite route_post_todo. cbn [request_json].
  assert (parse_body (Todo.serialize t) = Some t) as -> by (by destruct t).
  by rewrite store_insert_dup.
Qed.

Lemma reload_step_present t (s : St) :
  store_wf s → store_view s !! Todo.id t = Some (Todo.value t) →
  reload_step t s = jsonify (Todo.serialize t) 201.
Proof. intros Hwf Hk. unfold reload_step. rewrite store_get_view, Hk by done. by destruct t. Qed.

Lemma handle_post_fault t (s : St) :
  handle [IoFail] (post_todo t) s = (internal_server_error, s).
Proof.
  unfold handle, dispatch, post_todo. cbn [req_method req_path req_body].
  rewrite route_post_todo. unfold create_todo. cbn [request_json stmt_io lookup].
  assert (parse_body (Todo.serialize t) = Some t) as -> by (by destruct t). done.
Qed.

Lemma answers_differ t :
  internal_server_error ≠ jsonify (Todo.serialize t) 201 ∧
  already_exist ≠ jsonify (Todo.serialize t) 201 ∧ internal_server_error ≠ already_exist.
Proof. unfold internal_server_error, already_exist, jsonify. split_and!; congruence. Qed.

(** A thread of [POST t] before its [INSERT] committed: not run yet, or
    its [INSERT] failed. *)
Definition uncommitted (t : Todo.t) (th : thread) : Prop :=
  th = TStart (post_todo t) ∨ th = TDone internal_server_error.

(** A thread of [POST t] whose [INSERT] committed: waiting for its
    reload, answered 201, or its reload failed. *)
Definition committed (t : Todo.t) (th : thread) : Prop :=
  th = TReload t ∨ th = TDone (jsonify (Todo.serialize t) 201) ∨ th = TDone internal_server_error.

Definition lost (t : Todo.t) (th : thread) : Prop :=
  uncommitted t th ∨ th = TDone already_exist.

(** The states two [POST]s of the key [k] go through: no row yet, or the
    row of the one that committed. *)
Definition dup_pair (k : string) (t1 t2 : Todo.t) (s : St) (th1 th2 : thread) : Prop :=
  (uncommitted t1 th1 ∧ uncommitted t2 th2 ∧ store_view s !! k = None) ∨
  (committed t1 th1 ∧ lost t2 th2 ∧ store_view s !! k = Some (Todo.value t1)) ∨
  (committed t2 th2 ∧ lost t1 th1 ∧ store_view s !! k = Some (Todo.value t2)).

Definition dup_inv (k : string) (t1 t2 : Todo.t) (c : St * list thread) : Prop :=
  store_wf c.1 ∧
  match c.2 with [th1; th2] => dup_pair k t1 t2 c.1 th1 th2 | _ => False end.

Lemma dup_pair_sym k t1 t2 s th1 th2 :
  dup_pair k t1 t2 s th1 th2 → dup_pair k t2 t1 s th2 th1.
Proof. unfold dup_pair. naive_solver. Qed.

(** A statement of the first thread keeps the pair in one of the states. *)
Lemma dup_pair_step1 k t1 t2 s th1 th2 th1' s' :
  Todo.id t1 = k → Todo.id t2 = k → store_wf s → dup_pair k t1 t2 s th1 th2 →
  tstep th1 s th1' s' → store_wf s' ∧ dup_pair k t1 t2 s' th1' th2.
Proof.
  intros H1 H2 Hwf Hp Ht. subst k. unfold dup_pair, committed, lost, uncommitted in *.
  destruct Ht as [req s|req s|t s|t s].
  - destruct Hp as [([[= ->]|?] & Hth2 & Hk) | [([?|[?|?]] & _) | (Hc2 & [[[= ->]|?]|?] & Hk)]];
      try discriminate.
    + destruct (start_step_post_fresh t1 s Hwf Hk) as (s' & -> & Hwf' & Hv). simpl.
      split; [done|]. rewrite Hv, lookup_insert_eq. naive_solver.
    + rewrite start_step_post_taken; [naive_solver|done|by eexists].
  - destruct Hp as [([[= ->]|?] & Hth2 & Hk) | [([?|[?|?]] & _) | (Hc2 & [[[= ->]|?]|?] & Hk)]];
      try discriminate; rewrite handle_post_fault; naive_solver.
  - destruct Hp as [([?|?] & _) | [([[= ->]|[?|?]] & Hl & Hk) | (_ & [[?|?]|?] & _)]];
      try discriminate.
    rewrite reload_step_present by done. naive_solver.
  - destruct Hp as [([?|?] & _) | [([[= ->]|[?|?]] & Hl & Hk) | (_ & [[?|?]|?] & _)]];
      try discriminate. naive_solver.
Qed.

Lemma dup_inv_step k t1 t2 c c' :
  Todo.id t1 = k → Todo.id t2 = k → dup_inv k t1 t2 c → cstep c c' → dup_inv k t1 t2 c'.
Proof.
  intros <- H2 Hinv Hstep. revert Hinv.
  destruct Hstep as [i th th' s s' ths Hi Ht]. intros [Hwf Hc]. simpl in *.
  destruct ths as [|th1 [|th2 [|? ?]]]; cbn in Hc; try done.
  destruct i as [|[|i]]; simplify_eq/=.
  - by eapply dup_pair_step1.
  - destruct (dup_pair_step1 _ t2 t1 _ _ _ _ _ H2 eq_refl Hwf (dup_pair_sym _ _ _ _ _ _ Hc) Ht)
      as [? ?%dup_pair_sym]. by split.
Qed.

Lemma dup_inv_rtc k t1 t2 c c' :
  Todo.id t1 = k → Todo.id t2 = k → dup_inv k t1 t2 c → rtc cstep c c' → dup_inv k t1 t2 c'.
Proof. intros H1 H2 Hc Hrtc. induction Hrtc; eauto using dup_inv_step. Qed.

(** C20: Two concurrent [POST]s of the same fresh key, in whatever order
    their statements interleave and whichever statements fail, never both
    answer 201; when neither answers 500, one is answered 201 with its
    own row and the other 409 "Already exist". *)
Theorem duplicate_posts_one_wins (s s' : St) t1 t2 r1 r2 :
  store_wf s → Todo.id t1 = Todo.id t2 → store_view s !! Todo.id t1 = None →
  rtc cstep (s, [TStart (post_todo t1); TStart (post_todo t2)]) (s', [TDone r1; TDone r2]) →
  ¬ (r1 = jsonify (Todo.serialize t1) 201 ∧ r2 = jsonify (Todo.serialize t2) 201) ∧
  (r1 ≠ internal_server_error → r2 ≠ internal_server_error →
   (r1 = jsonify (Todo.serialize t1) 201 ∧ r2 = already_exist) ∨
   (r1 = already_exist ∧ r2 = jsonify (Todo.serialize t2) 201)).
Proof.
  intros Hwf Hid Hk Hrtc.
  assert (dup_inv (Todo.id t1) t1 t2 (s', [TDone r1; TDone r2])) as [_ Hc].
  { eapply dup_inv_rtc; [done|done| |exact Hrtc]. split; [done|]. left.
    unfold uncommitted. naive_solver. }
  pose proof (answers_differ t1). pose proof (answers_differ t2).
  simpl in Hc. unfold dup_pair, committed, lost, uncommitted in Hc. naive_solver.
Qed.
End Duplicates.

(** ** The race between the commit and the reload of [create_todo] *)

Section Race.
Context `{TodoStoreSpec St}.

Lemma start_step_delete k (s : St) :
  k ≠ "" → has_char "/" k = false →
  start_step (delete_req k) s = (TDone deleted, store_delete k s).
Proof.
  intros Hne Hslash. unfold start_step, delete_req. cbn [req_method req_path].
  rewrite route_delete_reachable by done.
  unfold handle, dispatch. cbn [req_method req_path]. by rewrite route_delete_reachable.
Qed.

Lemma thread_index_ne (ths : list thread) i j th th' :
  ths !! i = Some th → ths !! j = Some th' → th ≠ th' → i ≠ j.
Proof. intros Hi Hj Hne ->. congruence. Qed.

(** The [DELETE] of the key of a [POST] between its commit and its
    reload: the [DELETE] answers, and the row is gone. *)
Lemma delete_in_window (s : St) ths i j t :
  Todo.id t ≠ "" → has_char "/" (Todo.id t) = false →
  ths !! i = Some (TReload t) → ths !! j = Some (TStart (delete_req (Todo.id t))) →
  cstep (s, ths) (store_delete (Todo.id t) s, <[j := TDone deleted]> ths) ∧
  <[j := TDone deleted]> ths !! i = Some (TReload t).
Proof.
  intros Hne Hslash Hi Hj. split.
  - pose proof (cstep_start j _ s ths Hj) as Hs. by rewrite start_step_delete in Hs.
  - rewrite list_lookup_insert_ne; [done|]. intros <-. congruence.
Qed.

(** C18: Whatever the table and the other threads, when the [DELETE] of
    its key runs between the commit and the reload of a [POST], the
    [DELETE] answers "Deleted", the row is gone, and the reload of the
    [POST] answers 500 (SQLAlchemy's [ObjectDeletedError]). *)
Theorem delete_race (s : St) ths i j t :
  store_wf s → Todo.id t ≠ "" → has_char "/" (Todo.id t) = false →
  ths !! i = Some (TReload t) → ths !! j = Some (TStart (delete_req (Todo.id t))) →
  let s' := store_delete (Todo.id t) s in
  rtc cstep (s, ths) (s', <[i := TDone (reload_step t s')]> (<[j := TDone deleted]> ths)) ∧
  store_view s' !! Todo.id t = None ∧
  reload_step t s' = internal_server_error.
Proof.
  intros Hwf Hne Hslash Hi Hj s'.
  destruct (delete_in_window s ths i j t Hne Hslash Hi Hj) as [Hd Hi'].
  assert (store_view s' !! Todo.id t = None) as Hk.
  { subst s'. rewrite store_delete_view by done. apply lookup_delete_eq. }
  split_and!; [|done|].
  - eapply rtc_l; [exact Hd|]. eapply rtc_l; [by apply cstep_reload|]. apply rtc_refl.
  - unfold reload_step. rewrite store_get_view, Hk; [done|]. by apply store_delete_wf.
Qed.

(** C19: Whatever the table and the other threads, when a [DELETE] of
    its key and a second [POST] of the same key with another row both
    commit between the commit and the reload of a [POST], that first
    [POST] answers 201 with the row of the second one. *)
Theorem reload_reports_other_row (s : St) ths i j l t t' :
  store_wf s → Todo.id t' = Todo.id t → Todo.id t ≠ "" → has_char "/" (Todo.id t) = false →
  ths !! i = Some (TReload t) → ths !! j = Some (TStart (delete_req (Todo.id t))) →
  ths !! l = Some (TStart (post_todo t')) →
  ∃ s', store_view s' = <[Todo.id t := Todo.value t']> (store_view s) ∧
    rtc cstep (s, ths)
      (s', <[i := TDone (reload_step t s')]> (<[l := TReload t']> (<[j := TDone deleted]> ths))) ∧
    reload_step t s' = jsonify (Todo.serialize t') 201.
Proof.
  intros Hwf Hid Hne Hslash Hi Hj Hl.
  destruct (delete_in_window s ths i j t Hne Hslash Hi Hj) as [Hd Hi'].
  set (s1 := store_delete (Todo.id t) s).
  assert (store_wf s1) as Hwf1 by by apply store_delete_wf.
  assert (store_view s1 !! Todo.id t' = None) as Hk1.
  { subst s1. rewrite Hid, store_delete_view by done. apply lookup_delete_eq. }
  destruct (start_step_post_fresh t' s1 Hwf1 Hk1) as (s2 & Hs2 & Hwf2 & Hv2).
  assert (j ≠ l) as Hjl.
  { apply (thread_index_ne ths j l _ _ Hj Hl). by intros [= Hr]. }
  assert (<[j := TDone deleted]> ths !! l = Some (TStart (post_todo t'))) as Hl'.
  { by rewrite list_lookup_insert_ne. }
  assert (store_view s2 !! Todo.id t = Some (Todo.value t')) as Hk2.
  { by rewrite Hv2, Hid, lookup_insert_eq. }
  exists s2. split_and!.
  - rewrite Hv2, Hid. subst s1. rewrite store_delete_view by done. apply insert_delete_eq.
  - eapply rtc_l; [exact Hd|]. eapply rtc_l.
    { pose proof (cstep_start l _ s1 _ Hl') as Hs. rewrite Hs2 in Hs. exact Hs. }
    eapply rtc_l; [apply cstep_reload; rewrite list_lookup_insert_ne; [exact Hi'|]|apply rtc_refl].
    intros ->. congruence.
  - unfold reload_step. rewrite store_get_view, Hk2 by done. rewrite <-Hid. by destruct t'.
Qed.
End Race.
