(* ===== verification/Witnesses.v ===== *)
(** * Witnesses: the theorems applied to concrete tables and requests

    Each lemma below applies one theorem of the development at a concrete
    input, mostly the SQLite table [tbl_milk] holding the row ("a",
    "buy milk"), and discharges its hypotheses by evaluation.  The races
    of Concurrency.v run on [race_threads], the rowid theorems on
    [tbl_full], whose last row has the rowid [MAX_ROWID]. *)

From S2P Require Import Prelude Text Json Todo Store JsonText Sqlite Rowid Handlers Router Server Api Wire Cors Refinement Scenarios Concurrency.

Definition milk : Todo.t := Todo.mk "a" "buy milk".
Definition dog : Todo.t := Todo.mk "b" "walk dog".
Definition tbl_milk : Sqlite.table := [milk].

Lemma create_todo_created_witness :
  ∃ s', create_todo (BodyJson (Some (Todo.serialize dog))) IoOk IoOk tbl_milk
          = (jsonify (Todo.serialize dog) 201, s') ∧
        store_wf s' ∧ store_view s' = <[Todo.id dog := Todo.value dog]> (store_view tbl_milk).
Proof.
  apply (create_todo_created (Todo.serialize dog) dog tbl_milk);
    [eval_decide | reflexivity | reflexivity].
Defined.

Lemma create_todo_conflict_witness :
  create_todo (BodyJson (Some (Todo.serialize (Todo.mk "a" "other")))) IoOk IoOk tbl_milk
  = (already_exist, tbl_milk).
Proof.
  apply (create_todo_conflict _ (Todo.mk "a" "other")); [eval_decide | reflexivity |].
  vm_compute. eexists. reflexivity.
Defined.

Lemma create_todo_keeps_rows_witness :
  store_view (create_todo (BodyJson (Some (Todo.serialize (Todo.mk "a" "other"))))
                IoOk IoOk tbl_milk).2 !! "a" = Some "buy milk".
Proof. apply create_todo_keeps_rows; [eval_decide | reflexivity]. Defined.

Lemma create_todo_invalid_iff_witness :
  (create_todo (BodyJson (Some (JObj [("id", JStr "t1")]))) IoOk IoOk tbl_milk).1
    = invalid_body.
Proof. apply create_todo_invalid_iff; [eval_decide | reflexivity]. Defined.

Lemma create_todo_reload_fault_witness :
  ∃ s', create_todo (BodyJson (Some (Todo.serialize dog))) IoOk IoFail tbl_milk
          = (internal_server_error, s') ∧
        store_view s' !! Todo.id dog = Some (Todo.value dog).
Proof. apply create_todo_reload_fault; [eval_decide | reflexivity | reflexivity]. Defined.

Lemma delete_todo_spec_witness :
  (delete_todo "a" IoOk tbl_milk).1 = jsonify (JStr "Deleted") 200 ∧
  store_wf (delete_todo "a" IoOk tbl_milk).2 ∧
  store_view (delete_todo "a" IoOk tbl_milk).2 !! "a" = None ∧
  ∀ k', k' ≠ "a" → store_view (delete_todo "a" IoOk tbl_milk).2 !! k' = store_view tbl_milk !! k'.
Proof. apply delete_todo_spec. eval_decide. Defined.

Lemma get_todos_spec_witness :
  ∃ rows, get_todos IoOk tbl_milk = (jsonify (JArr (Todo.serialize <$> rows)) 200, tbl_milk) ∧
          NoDup (Todo.id <$> rows) ∧
          ∀ t, t ∈ rows ↔ store_view tbl_milk !! Todo.id t = Some (Todo.value t).
Proof. apply get_todos_spec. eval_decide. Defined.

Lemma startup_reachable_wf_witness :
  Sqlite.wf (handle [] (post_todo milk) (Sqlite.create_all None)).2.
Proof.
  apply startup_reachable_wf.
  eapply reach_step; [apply reach_init; exists None; split; [constructor | reflexivity]|].
  apply step_handle.
Defined.

Lemma handle_effect_witness :
  let s' := (handle [] (delete_req "a") tbl_milk).2 in
  store_view s' = store_view tbl_milk ∨
  (∃ t, route DELETE "/todo/a" = Route EpCreateTodo ∧
        store_view tbl_milk !! Todo.id t = None ∧
        store_view s' = <[Todo.id t := Todo.value t]> (store_view tbl_milk)) ∨
  (∃ k, route DELETE "/todo/a" = Route (EpDeleteTodo k) ∧
        store_view s' = delete k (store_view tbl_milk)).
Proof. apply (handle_effect [] (delete_req "a") tbl_milk). eval_decide. Defined.

Lemma serve_keeps_unroutable_rows_witness :
  store_view (serve [Todo.mk "x/y" "v"] [([], delete_req "x/y"); ([], delete_req "x")]).2
    !! "x/y" = Some "v".
Proof.
  apply serve_keeps_unroutable_rows; [eval_decide | reflexivity | right; reflexivity].
Defined.

Lemma route_delete_id_witness : "a" ≠ "" ∧ has_char "/" "a" = false.
Proof. apply (route_delete_id DELETE "/todo/a"). reflexivity. Defined.

Lemma route_delete_reachable_witness :
  route DELETE ("/todo/" ++ "a")%string = Route (EpDeleteTodo "a").
Proof. apply route_delete_reachable; [discriminate | reflexivity]. Defined.

Lemma handle_same_view_witness :
  resp_equiv (handle [] get_todo tbl_milk).1 (handle [] get_todo (Sqlite.view tbl_milk)).1 ∧
  same_view (handle [] get_todo tbl_milk).2 (handle [] get_todo (Sqlite.view tbl_milk)).2.
Proof.
  apply handle_same_view. split; [eval_decide|]. split; [exact I | reflexivity].
Defined.

Lemma serve_refines_witness :
  Forall2 resp_equiv (serve tbl_milk [([], post_todo dog); ([], get_todo)]).1
    (serve (Sqlite.view tbl_milk) [([], post_todo dog); ([], get_todo)]).1 ∧
  Sqlite.view (serve tbl_milk [([], post_todo dog); ([], get_todo)]).2
  = (serve (Sqlite.view tbl_milk) [([], post_todo dog); ([], get_todo)]).2.
Proof. apply serve_refines. eval_decide. Defined.

Lemma post_then_list_witness :
  serve tbl_milk [([], post_todo dog); ([], get_todo)] =
  ([jsonify (Todo.serialize dog) 201;
    jsonify (JArr (Todo.serialize <$> tbl_milk ++ [dog])) 200], tbl_milk ++ [dog]).
Proof. apply post_then_list; [eval_decide | reflexivity]. Defined.

Lemma delete_then_list_witness :
  serve tbl_milk [([], delete_req "a"); ([], get_todo)] =
  ([deleted; jsonify (JArr (Todo.serialize <$> Sqlite.delete_where "a" tbl_milk)) 200],
   Sqlite.delete_where "a" tbl_milk).
Proof. apply delete_then_list; [discriminate | reflexivity]. Defined.

Lemma reload_returns_posted_row_witness :
  reload_step (Todo.mk "a" "buy milk") [Todo.mk "a" "buy milk"]
  = jsonify (Todo.serialize (Todo.mk "a" "buy milk")) 201.
Proof.
  apply (reload_returns_posted_row [] [post_todo (Todo.mk "a" "buy milk")]
           [Todo.mk "a" "buy milk"] [TReload (Todo.mk "a" "buy milk")] 0).
  - eval_decide.
  - constructor; [|constructor]. intros k. vm_compute. discriminate.
  - eapply rtc_l; [by apply (cstep_start 0)|]. vm_compute. apply rtc_refl.
  - reflexivity.
Defined.

Lemma duplicate_posts_one_wins_witness :
  ¬ (jsonify (Todo.serialize milk) 201 = jsonify (Todo.serialize milk) 201 ∧
     already_exist = jsonify (Todo.serialize (Todo.mk "a" "other")) 201) ∧
  (jsonify (Todo.serialize milk) 201 ≠ internal_server_error →
   already_exist ≠ internal_server_error →
   (jsonify (Todo.serialize milk) 201 = jsonify (Todo.serialize milk) 201 ∧
    already_exist = already_exist) ∨
   (jsonify (Todo.serialize milk) 201 = already_exist ∧
    already_exist = jsonify (Todo.serialize (Todo.mk "a" "other")) 201)).
Proof.
  apply (duplicate_posts_one_wins ([] : Sqlite.table) [milk] milk (Todo.mk "a" "other")).
  - eval_decide.
  - reflexivity.
  - reflexivity.
  - eapply rtc_l; [by apply (cstep_start 0)|]. vm_compute.
    eapply rtc_l; [by apply (cstep_start 1)|]. vm_compute.
    eapply rtc_l; [by apply (cstep_reload 0)|]. vm_compute.
    apply rtc_refl.
Defined.

Lemma request_json_content_type_witness :
  request_json (body_of (Some (upper "application/json" ++ String ";" " charset=utf-8")%string)
                  (Some (Todo.serialize milk))) =
  request_json (body_of (Some "application/json") (Some (Todo.serialize milk))) ∧
  (request_json (body_of (Some "application/json") (Some (Todo.serialize milk)))
     = inl (mk_response 415 (PError "UnsupportedMediaType"))
   ↔ is_json (mimetype (Some "application/json")) = false).
Proof. apply request_json_content_type. reflexivity. Defined.

(** A cross-origin [DELETE /todo/a] from a page of another site. *)
Definition cors_delete : cors_request :=
  mk_cors_request (delete_req "a") (Some "http://app.example") None None.

Lemma cors_allows_any_origin_witness :
  ∃ v, header_get ACL_ORIGIN (headers (handle_cors [] cors_delete tbl_milk).1) = Some v ∧
       (v = "*" ∨ Some v = origin cors_delete).
Proof. apply cors_allows_any_origin. reflexivity. Defined.

Lemma storage_fault_no_cors_witness :
  status (resp (handle_cors [IoFail] cors_delete tbl_milk).1) = 500%Z ∧
  header_get ACL_ORIGIN (headers (handle_cors [IoFail] cors_delete tbl_milk).1) = None.
Proof. apply storage_fault_no_cors. right. eexists. reflexivity. Defined.

(** The preflight a browser sends before a cross-origin JSON [POST]. *)
Definition cors_preflight : cors_request :=
  mk_cors_request (mk_request OPTIONS "/todo" BodyOther) (Some "http://app.example")
    (Some "post") (Some "Content-Type").

Lemma preflight_allows_witness :
  status (resp (handle_cors [] cors_preflight tbl_milk).1) = 200%Z ∧
  header_get ACL_METHODS (headers (handle_cors [] cors_preflight tbl_milk).1) = Some cors_methods ∧
  ∃ l, header_get ACL_ALLOW_HEADERS (headers (handle_cors [] cors_preflight tbl_milk).1) =
         Some (String.concat ", " l) ∧ l ≡ₚ strip <$> split_on "," "Content-Type".
Proof.
  apply (preflight_allows [] cors_preflight tbl_milk "post" "Content-Type");
    try reflexivity.
  - eval_decide.
  - vm_compute. constructor. discriminate.
Defined.

Lemma run_refines_list_witness :
  Rowid.select_all (Rowid.run [Rowid.OInsert [] milk; Rowid.OInsert [] dog; Rowid.ODelete "a"]) =
  Rowid.run_list [Rowid.OInsert [] milk; Rowid.OInsert [] dog; Rowid.ODelete "a"].
Proof. apply Rowid.run_refines_list. reflexivity. Defined.

Lemma delete_missing_keeps_table_witness :
  serve tbl_milk [([], delete_req "b")] = ([deleted], tbl_milk).
Proof. apply delete_missing_keeps_table; [discriminate|reflexivity|eval_decide]. Defined.

Definition doc : json :=
  JObj [("value", JArr [JNull; JBool false; JInt (-42); JStr "café"]); ("id", JInt 0); ("value", JObj [])].

Lemma loads_jsonify_text_witness :
  textual doc = true ∧ loads (jsonify_text doc) = Some (normalize doc).
Proof. split; [reflexivity|]. apply (loads_jsonify_text doc). reflexivity. Defined.

Lemma response_bodies_roundtrip_witness :
  body (handle [] get_todo tbl_milk).1 = PJson (JArr [Todo.serialize milk]) ∧
  loads (jsonify_text (JArr [Todo.serialize milk])) = Some (JArr [Todo.serialize milk]).
Proof.
  split; [reflexivity|].
  apply (response_bodies_roundtrip [] get_todo tbl_milk). reflexivity.
Defined.

Lemma integrity_error_logged_witness :
  create_todo_stdout (BodyJson (Some (Todo.serialize (Todo.mk "a" "other")))) IoOk tbl_milk
  = [IntegrityErrorLine (Todo.mk "a" "other")].
Proof.
  destruct (integrity_error_logged (BodyJson (Some (Todo.serialize (Todo.mk "a" "other"))))
    IoOk IoOk tbl_milk) as [_ [Hnil|(body & t & Hb & Hp & Hout & _)]]; [eval_decide| |].
  - vm_compute in Hnil. discriminate.
  - rewrite Hout. injection Hb as <-. vm_compute in Hp. by injection Hp as <-.
Defined.

Lemma spec_scenario_witness :
  serve tbl_milk [([], post_todo dog); ([], get_todo); ([], delete_req "b"); ([], get_todo)] =
  ([jsonify (Todo.serialize dog) 201; jsonify (JArr (Todo.serialize <$> tbl_milk ++ [dog])) 200;
    deleted; jsonify (JArr (Todo.serialize <$> tbl_milk)) 200], tbl_milk).
Proof. apply (spec_scenario tbl_milk dog); [eval_decide|reflexivity|discriminate|reflexivity]. Defined.

(** The [POST] of [milk] has committed; a [DELETE /todo/a] and a [POST]
    of another row with key "a" wait to run. *)
Definition race_threads : list thread :=
  [TReload milk; TStart (delete_req "a"); TStart (post_todo (Todo.mk "a" "sell milk"))].

Lemma delete_race_witness :
  let s' := store_delete "a" tbl_milk in
  rtc cstep (tbl_milk, race_threads)
    (s', <[0 := TDone (reload_step milk s')]> (<[1 := TDone deleted]> race_threads)) ∧
  store_view s' !! "a" = None ∧ reload_step milk s' = internal_server_error.
Proof.
  apply (delete_race tbl_milk race_threads 0 1 milk);
    [eval_decide|discriminate|reflexivity|reflexivity|reflexivity].
Defined.

Lemma reload_reports_other_row_witness :
  ∃ s', store_view s' = <[Todo.id milk := "sell milk"]> (store_view tbl_milk) ∧
    rtc cstep (tbl_milk, race_threads)
      (s', <[0 := TDone (reload_step milk s')]>
             (<[2 := TReload (Todo.mk "a" "sell milk")]> (<[1 := TDone deleted]> race_threads))) ∧
    reload_step milk s' = jsonify (Todo.serialize (Todo.mk "a" "sell milk")) 201.
Proof.
  apply (reload_reports_other_row tbl_milk race_threads 0 1 2 milk (Todo.mk "a" "sell milk"));
    [eval_decide|reflexivity|discriminate|reflexivity|reflexivity|reflexivity|reflexivity].
Defined.

(** A table whose last row took the largest rowid. *)
Definition tbl_full : Rowid.table := [(5%Z, milk); (Rowid.MAX_ROWID, dog)].

Lemma overflow_reorders_witness :
  Sqlite.insert (Todo.mk "c" "z") (Rowid.select_all tbl_full) =
    Some (Rowid.select_all tbl_full ++ [Todo.mk "c" "z"]) ∧
  ∃ pre post, Rowid.select_all tbl_full = pre ++ post ∧ post ≠ [] ∧
    Rowid.select_all [(5%Z, milk); (7%Z, Todo.mk "c" "z"); (Rowid.MAX_ROWID, dog)] =
      pre ++ Todo.mk "c" "z" :: post.
Proof.
  apply (Rowid.overflow_reorders [6%Z]).
  - split; repeat constructor; unfold Rowid.MAX_ROWID; simpl; lia.
  - reflexivity.
  - vm_compute. reflexivity.
Defined.

Lemma safe_methods_keep_table_witness : (handle [IoFail] get_todo tbl_milk).2 = tbl_milk.
Proof. apply safe_methods_keep_table; discriminate. Defined.

(** A full table: the candidate of the draw 4 is the rowid 5, which is
    taken. *)
Lemma insert_full_witness : Rowid.insert [4%Z] milk tbl_full = Rowid.Full.
Proof.
  assert (Rowid.rowids_ok tbl_full) as Hok
    by (split; repeat constructor; unfold Rowid.MAX_ROWID; simpl; lia).
  apply (proj2 (Rowid.insert_full [4%Z] milk tbl_full Hok)).
  split; [reflexivity|]. vm_compute. repeat constructor.
Defined.
